(** * HostelSync: laundry-machine registry and room-booking ledger

    A shallow embedding of the core of [script.js]: the machine state
    machine driven by the minute tick, the bounded notice log, the
    watch-free flags and the booking conflict engine.

    Conventions of the embedding.
    - The script keeps one global [state] object; here it is the record
      [State], threaded through a small state-and-output monad [Op].
    - [Date.now()] is an argument [now] of every operation (one reading per
      operation; the handlers run to completion within a millisecond-scale
      turn of the event loop).
    - JavaScript numbers that hold timestamps, minutes and counters are
      integers ([Z]); [undefined]/[null] fields are [None].  [NaN] is not
      represented: the times a booking request carries are those of dates
      that parsed.  ([new Date(text).getTime()] is [NaN] for a text that is
      no date; in the script such a value fails every comparison, so it
      passes the range and conflict tests of [extendBooking] and
      [modifyBooking].  Properties of these functions are therefore stated
      under comparisons of the times, which [NaN] does not satisfy.)
    - What an operation shows to the outside (a pushed notice, an [alert]
      box, a scheduled approval timer) is recorded in the output trace
      [emitted], next to the capped [notices] list kept in the state.
    - Persistence ([saveState]), DOM rendering and the browser Notification
      toast are outside the model. *)

From stdpp Require Import gmap strings list fin_maps pretty.
From Stdlib Require Import ZArith Lia.

Open Scope Z_scope.

(** ** Data model *)

Inductive MachineStatus := FREE | RUNNING | AWAITING | MAINT.
Inductive WashStatus := W_RUNNING | W_AWAITING | W_COLLECTED.
Inductive BookingStatus := PENDING | APPROVED | REJECTED | CANCELLED.
Inductive NoticeKind := info | success | warning | report.

Global Instance MachineStatus_eq_dec : EqDecision MachineStatus.
Proof. solve_decision. Defined.
Global Instance WashStatus_eq_dec : EqDecision WashStatus.
Proof. solve_decision. Defined.
Global Instance BookingStatus_eq_dec : EqDecision BookingStatus.
Proof. solve_decision. Defined.
Global Instance NoticeKind_eq_dec : EqDecision NoticeKind.
Proof. solve_decision. Defined.

(** A machine object.  [nudgeCount], [flagCount] and [ownerId] are absent on
    the objects built by [makeMachines]; they appear on first use. *)
Record Machine := mkMachine {
  m_id : string;
  m_label : string;
  m_hostel : string;
  m_floor : Z;
  m_status : MachineStatus;
  m_eta : option Z;
  m_lastCompletedAt : option Z;
  m_nudgeCount : option Z;
  m_flagCount : option Z;
  m_ownerId : option string
}.

Record Wash := mkWash {
  w_id : string;
  w_machineId : string;
  w_machineLabel : string;
  w_hostel : string;
  w_floor : Z;
  w_startAt : Z;
  w_endAt : option Z;
  w_status : WashStatus
}.

(** [n_time] is the instant whose [toLocaleTimeString()] the script stores. *)
Record Notice := mkNotice {
  n_id : string;
  n_title : string;
  n_time : Z;
  n_kind : NoticeKind
}.

Record Report := mkReport {
  r_id : string;
  r_machineId : string;
  r_reason : string;
  r_notes : string;
  r_photoDataUrl : option string;
  r_createdAt : Z
}.

Record Room := mkRoom {
  room_id : string;
  room_label : string;
  room_hasAC : bool
}.

Record Booking := mkBooking {
  b_id : string;
  b_roomId : string;
  b_roomLabel : string;
  b_hasAC : bool;
  b_startAt : Z;
  b_endAt : Z;
  b_reason : string;
  b_status : BookingStatus;
  b_createdAt : Z;
  b_updatedAt : Z
}.

(** The fields of [state.user] that the core reads. *)
Record User := mkUser {
  u_id : string;
  u_email : string;
  u_phone : option string
}.

(** [state.watchFree]: hostel, then floor, then flag.  The floor keys of the
    JavaScript objects are the decimal strings of the floor numbers; here
    they are the numbers. *)
Record State := mkState {
  machines : list Machine;
  washes : list Wash;
  notices : list Notice;
  reports : list Report;
  watchFree : gmap string (gmap Z bool);
  user : option User;
  rooms : list Room;
  bookings : list Booking
}.

(** ** Effects *)

Inductive Event :=
| Notified (title : string) (kind : NoticeKind)
| Alerted (msg : string)
| ApprovalScheduled (bookingId : string).

Global Instance Event_eq_dec : EqDecision Event.
Proof. solve_decision. Defined.

Record Run (A : Type) := mkRun {
  value : A;
  final : State;
  emitted : list Event
}.
Arguments mkRun {A} _ _ _.
Arguments value {A} _.
Arguments final {A} _.
Arguments emitted {A} _.

Definition Op (A : Type) : Type := State → Run A.

Global Instance Op_ret : MRet Op := λ A x st, mkRun x st [].
Global Instance Op_bind : MBind Op := λ A B f c st,
  let r := c st in
  let r' := f (value r) (final r) in
  mkRun (value r') (final r') (emitted r ++ emitted r').

Definition get : Op State := λ st, mkRun st st [].
Definition emit (e : Event) : Op unit := λ st, mkRun tt st [e].

(** [xs.forEach(f)] for an effectful callback. *)
Fixpoint forEach {A} (f : A → Op unit) (xs : list A) : Op unit :=
  match xs with
  | [] => mret tt
  | x :: xs' => f x;; forEach f xs'
  end.

(** Field updates of the global object. *)
Definition setMachines (ms : list Machine) (st : State) : State :=
  mkState ms (washes st) (notices st) (reports st) (watchFree st)
          (user st) (rooms st) (bookings st).
Definition setWashes (ws : list Wash) (st : State) : State :=
  mkState (machines st) ws (notices st) (reports st) (watchFree st)
          (user st) (rooms st) (bookings st).
Definition setNotices (ns : list Notice) (st : State) : State :=
  mkState (machines st) (washes st) ns (reports st) (watchFree st)
          (user st) (rooms st) (bookings st).
Definition setReports (rs : list Report) (st : State) : State :=
  mkState (machines st) (washes st) (notices st) rs (watchFree st)
          (user st) (rooms st) (bookings st).
Definition setWatchFree (wf : gmap string (gmap Z bool)) (st : State) : State :=
  mkState (machines st) (washes st) (notices st) (reports st) wf
          (user st) (rooms st) (bookings st).
Definition setUser (u : option User) (st : State) : State :=
  mkState (machines st) (washes st) (notices st) (reports st) (watchFree st)
          u (rooms st) (bookings st).
Definition setBookings (bs : list Booking) (st : State) : State :=
  mkState (machines st) (washes st) (notices st) (reports st) (watchFree st)
          (user st) (rooms st) bs.

Definition modify (f : State → State) : Op unit := λ st, mkRun tt (f st) [].

(** ** Notification sink *)

Definition NOTICE_CAP : nat := 50%nat.

(** [state.notices.unshift(notice); if (length > 50) state.notices.pop()] *)
Definition capNotices (ns : list Notice) : list Notice :=
  if (NOTICE_CAP <? length ns)%nat then removelast ns else ns.

Definition pushNotice (now : Z) (title : string) (kind : NoticeKind) : Op unit :=
  let notice := mkNotice ("n-" +:+ pretty now) title now kind in
  modify (λ st, setNotices (capNotices (notice :: notices st)) st);;
  emit (Notified title kind).

(** ** Machine registry *)

Definition withCycleStarted (minutes : Z) (owner : option string) (m : Machine) : Machine :=
  mkMachine (m_id m) (m_label m) (m_hostel m) (m_floor m)
            RUNNING (Some minutes) (m_lastCompletedAt m)
            (Some 0) (Some 0) owner.

Definition withCollected (m : Machine) : Machine :=
  mkMachine (m_id m) (m_label m) (m_hostel m) (m_floor m)
            FREE None None
            (m_nudgeCount m) (m_flagCount m) (m_ownerId m).

Definition withEta (eta : Z) (m : Machine) : Machine :=
  mkMachine (m_id m) (m_label m) (m_hostel m) (m_floor m)
            (m_status m) (Some eta) (m_lastCompletedAt m)
            (m_nudgeCount m) (m_flagCount m) (m_ownerId m).

Definition withFinished (now : Z) (m : Machine) : Machine :=
  mkMachine (m_id m) (m_label m) (m_hostel m) (m_floor m)
            AWAITING None (Some now)
            (m_nudgeCount m) (m_flagCount m) (m_ownerId m).

Definition withMaint (m : Machine) : Machine :=
  mkMachine (m_id m) (m_label m) (m_hostel m) (m_floor m)
            MAINT None (m_lastCompletedAt m)
            (m_nudgeCount m) (m_flagCount m) (m_ownerId m).

Definition withNudgeCount (n : Z) (m : Machine) : Machine :=
  mkMachine (m_id m) (m_label m) (m_hostel m) (m_floor m)
            (m_status m) (m_eta m) (m_lastCompletedAt m)
            (Some n) (m_flagCount m) (m_ownerId m).

Definition withFlagCount (n : Z) (m : Machine) : Machine :=
  mkMachine (m_id m) (m_label m) (m_hostel m) (m_floor m)
            (m_status m) (m_eta m) (m_lastCompletedAt m)
            (m_nudgeCount m) (Some n) (m_ownerId m).

(** The second-flag branch of [flagMachine]: counters to 0, status and
    [lastCompletedAt] overwritten, [eta] not touched. *)
Definition withAbandoned (now : Z) (m : Machine) : Machine :=
  mkMachine (m_id m) (m_label m) (m_hostel m) (m_floor m)
            AWAITING (m_eta m) (Some now)
            (Some 0) (Some 0) (m_ownerId m).

Definition withWashStatus (s : WashStatus) (endAt : Z) (w : Wash) : Wash :=
  mkWash (w_id w) (w_machineId w) (w_machineLabel w) (w_hostel w) (w_floor w)
         (w_startAt w) (Some endAt) s.

(** [state.machines.map(m => m.id === id ? f(m) : m)] *)
Definition mapMachine (id : string) (f : Machine → Machine) (ms : list Machine) : list Machine :=
  map (λ m, if decide (m_id m = id) then f m else m) ms.

Definition startWash (now : Z) (machine : Machine) (minutes : Z) : Op unit :=
  modify (λ st,
    setMachines (mapMachine (m_id machine)
                   (withCycleStarted minutes (u_id <$> user st)) (machines st)) st);;
  modify (λ st,
    setWashes (mkWash ("w-" +:+ pretty now) (m_id machine) (m_label machine)
                      (m_hostel machine) (m_floor machine) now None W_RUNNING
               :: washes st) st);;
  pushNotice now ("Started wash on " +:+ m_label machine +:+ ".") info.

Definition collectWash (now : Z) (id : string) (w : Wash) : Wash :=
  if bool_decide (w_machineId w = id) &&
     (bool_decide (w_status w = W_AWAITING) || bool_decide (w_status w = W_RUNNING))
  then withWashStatus W_COLLECTED now w else w.

Definition markCollected (now : Z) (machine : Machine) : Op unit :=
  modify (λ st, setMachines (mapMachine (m_id machine) withCollected (machines st)) st);;
  modify (λ st, setWashes (map (collectWash now (m_id machine)) (washes st)) st);;
  pushNotice now ("Thank you! " +:+ m_label machine +:+ " is free now.") success.

(** JavaScript truthiness of a possibly missing string. *)
Definition truthy (s : option string) : bool :=
  match s with
  | Some s => negb (bool_decide (s = EmptyString))
  | None => false
  end.

Definition sendReminderEmail (now : Z) (machine : Machine) : Op unit :=
  if negb (truthy (m_ownerId machine)) then mret tt else
  st ← get;
  match user st with
  | Some u =>
      if bool_decide (Some (u_id u) = m_ownerId machine) then
        let contact := if truthy (u_phone u) then default EmptyString (u_phone u) else u_email u in
        if negb (truthy (Some contact)) then mret tt else
        pushNotice now ("Reminder sent to " +:+ contact +:+
                        " to collect clothes from " +:+ m_label machine +:+ ".") info
      else mret tt
  | None => mret tt
  end.

(** [nudgeMachine] and [flagMachine] write into the object they are handed;
    the returned machine is that object after the call. *)
Definition nudgeMachine (now : Z) (machine : Machine) : Op Machine :=
  let n := default 0 (m_nudgeCount machine) + 1 in
  let machine' := withNudgeCount n machine in
  (if 3 <=? n then
     pushNotice now ("Multiple nudges sent for " +:+ m_label machine +:+
                     ". Please collect your clothes.") warning;;
     sendReminderEmail now machine'
   else
     pushNotice now ("A nudge was sent for " +:+ m_label machine +:+ ".") info);;
  mret machine'.

Definition flagMachine (now : Z) (machine : Machine) : Op Machine :=
  let n := default 0 (m_flagCount machine) + 1 in
  if 2 <=? n then
    pushNotice now (m_label machine +:+
                    " flagged as still occupied. Please collect your clothes.") report;;
    mret (withAbandoned now machine)
  else
    pushNotice now ("Flag recorded for " +:+ m_label machine +:+
                    ". One more flag will apply a penalty.") info;;
    mret (withFlagCount n machine).

(** A call [f(state.machines[i])]: the argument is the stored object, so
    what [f] writes into it is seen through the registry.  (The laundry grid
    hands out copies instead; then only [f]'s own effects reach the state.) *)
Definition onRegistered (i : nat) (f : Machine → Op Machine) : Op unit :=
  st ← get;
  match machines st !! i with
  | Some m =>
      m' ← f m;
      modify (λ st', setMachines (<[i := m']> (machines st')) st')
  | None => mret tt
  end.

Definition submitReport (now : Z) (machineId reason notes : string)
    (photoDataUrl : option string) (affectStatus : bool) : Op unit :=
  modify (λ st,
    setReports (mkReport ("r-" +:+ pretty now) machineId reason notes photoDataUrl now
                :: reports st) st);;
  pushNotice now ("Report submitted for " +:+ machineId +:+ ".") report;;
  if affectStatus then
    modify (λ st, setMachines (mapMachine machineId withMaint (machines st)) st)
  else mret tt.

(** ** The minute tick *)

(** One step of the snapshot loop:
    [if (!c[h]) c[h] = {}; if (!c[h][f]) c[h][f] = 0; if (FREE) c[h][f]++]. *)
Definition tally (c : gmap string (gmap Z nat)) (m : Machine) : gmap string (gmap Z nat) :=
  let byFloor := default ∅ (c !! m_hostel m) in
  let n := default 0%nat (byFloor !! m_floor m) in
  let n' := if decide (m_status m = FREE) then S n else n in
  <[m_hostel m := <[m_floor m := n']> byFloor]> c.

Definition freeCounts (ms : list Machine) : gmap string (gmap Z nat) :=
  foldl tally ∅ ms.

(** [snapshot[hostel]?.[floor] ?? 0] *)
Definition freeAt (c : gmap string (gmap Z nat)) (hostel : string) (floor : Z) : nat :=
  default 0%nat (c !! hostel ≫= (.!! floor)).

Definition finishWash (now : Z) (id : string) (w : Wash) : Wash :=
  if bool_decide (w_machineId w = id) && bool_decide (w_status w = W_RUNNING)
  then withWashStatus W_AWAITING now w else w.

(** The callback of the countdown [map]. *)
Definition tickMachine (now : Z) (m : Machine) : Op Machine :=
  match m_status m, m_eta m with
  | RUNNING, Some e =>
      let eta := e - 1 in
      (if eta =? 3
       then pushNotice now (m_label m +:+ " finishing in ~3 minutes.") info
       else mret tt);;
      if eta <=? 0 then
        pushNotice now (m_label m +:+ " finished. Please collect clothes.") success;;
        modify (λ st, setWashes (map (finishWash now (m_id m)) (washes st)) st);;
        mret (withFinished now m)
      else mret (withEta eta m)
  | _, _ => mret m
  end.

Definition countdown (now : Z) : Op unit :=
  st ← get;
  ms ← mapM (tickMachine now) (machines st);
  modify (setMachines ms).

(** [state.watchFree[hostel][floor]] read as a condition. *)
Definition flagOf (st : State) (hostel : string) (floor : Z) : bool :=
  default false (watchFree st !! hostel ≫= (.!! floor)).

Definition becameFree (before after : gmap string (gmap Z nat))
    (hostel : string) (floor : Z) : bool :=
  (freeAt before hostel floor =? 0)%nat && (0 <? freeAt after hostel floor)%nat.

Definition clearFlag (hostel : string) (floor : Z) (st : State) : State :=
  setWatchFree
    (<[hostel := <[floor := false]> (default ∅ (watchFree st !! hostel))]> (watchFree st)) st.

Definition watchFloor (now : Z) (before after : gmap string (gmap Z nat))
    (hostel : string) (floor : Z) : Op unit :=
  st ← get;
  if flagOf st hostel floor then
    if becameFree before after hostel floor then
      pushNotice now ("A machine is now free on Floor " +:+ pretty floor +:+ ".") success;;
      modify (clearFlag hostel floor)
    else mret tt
  else mret tt.

(** [Object.keys(o)].  The keys come in the order in which the map lists
    them, which need not be JavaScript's property order; nothing below
    depends on the order. *)
Definition keys {K} `{Countable K} {V} (o : gmap K V) : list K := (map_to_list o).*1.

Definition watchHostel (now : Z) (before after : gmap string (gmap Z nat))
    (hostel : string) : Op unit :=
  st ← get;
  forEach (watchFloor now before after hostel)
          (keys (default ∅ (watchFree st !! hostel))).

Definition watchFreeCheck (now : Z) (before after : gmap string (gmap Z nat)) : Op unit :=
  st ← get;
  forEach (watchHostel now before after) (keys (watchFree st)).

Definition tick (now : Z) : Op unit :=
  st0 ← get;
  let freeBefore := freeCounts (machines st0) in
  countdown now;;
  st1 ← get;
  let freeAfter := freeCounts (machines st1) in
  watchFreeCheck now freeBefore freeAfter.

(** ** Booking ledger *)

Definition DAY_MS : Z := 24 * 60 * 60 * 1000.

(** The callback of [state.bookings.some] in [checkConflict]. *)
Definition conflictsWith (roomId : string) (startAt endAt : Z) (b : Booking) : bool :=
  if negb (bool_decide (b_roomId b = roomId)) then false
  else if bool_decide (b_status b = CANCELLED) || bool_decide (b_status b = REJECTED) then false
  else (startAt <? b_endAt b) && (b_startAt b <? endAt).

Definition checkConflict (st : State) (roomId : string) (startAt endAt : Z) : bool :=
  existsb (conflictsWith roomId startAt endAt) (bookings st).

Definition withBookingStatus (s : BookingStatus) (now : Z) (b : Booking) : Booking :=
  mkBooking (b_id b) (b_roomId b) (b_roomLabel b) (b_hasAC b)
            (b_startAt b) (b_endAt b) (b_reason b) s (b_createdAt b) now.

Definition withExtension (newEndAt now : Z) (b : Booking) : Booking :=
  mkBooking (b_id b) (b_roomId b) (b_roomLabel b) (b_hasAC b)
            (b_startAt b) newEndAt (b_reason b) PENDING (b_createdAt b) now.

Definition withNewTimes (newStartAt newEndAt : Z) (newReason : option string)
    (now : Z) (b : Booking) : Booking :=
  mkBooking (b_id b) (b_roomId b) (b_roomLabel b) (b_hasAC b)
            newStartAt newEndAt (default (b_reason b) newReason) PENDING
            (b_createdAt b) now.

(** [state.bookings.findIndex(b => b.id === id)] with the element found. *)
Definition findBooking (id : string) (st : State) : option (nat * Booking) :=
  list_find (λ b, b_id b = id) (bookings st).

Definition replaceBooking (idx : nat) (b : Booking) (st : State) : State :=
  setBookings (<[idx := b]> (bookings st)) st.

Definition submitBooking (now : Z) (room : Room) (startAt endAt : Z) (reason : string) : Op unit :=
  let booking := mkBooking ("b-" +:+ pretty now) (room_id room) (room_label room)
                           (room_hasAC room) startAt endAt reason PENDING now now in
  modify (λ st, setBookings (booking :: bookings st) st);;
  pushNotice now ("Request submitted for " +:+ room_label room +:+ ".") info;;
  emit (ApprovalScheduled (b_id booking)).

(** The timer callback armed by [simulateApproval]. *)
Definition approvalFires (now : Z) (bookingId : string) : Op unit :=
  st ← get;
  match findBooking bookingId st with
  | Some (idx, booking) =>
      if bool_decide (b_status booking = PENDING) then
        modify (replaceBooking idx (withBookingStatus APPROVED now booking));;
        pushNotice now ("Booking approved for " +:+ b_roomLabel booking +:+
                        ". Please keep the room clean and tidy.") success
      else mret tt
  | None => mret tt
  end.

Definition cancelBooking (now : Z) (id : string) : Op unit :=
  st ← get;
  match findBooking id st with
  | Some (idx, booking) =>
      if bool_decide (b_status booking = PENDING) || bool_decide (b_status booking = APPROVED) then
        modify (replaceBooking idx (withBookingStatus CANCELLED now booking));;
        pushNotice now ("Booking cancelled for " +:+ b_roomLabel booking +:+ ".") info
      else mret tt
  | None => mret tt
  end.

Definition extendBooking (now : Z) (id : string) (newEndAt : Z) : Op unit :=
  st ← get;
  match findBooking id st with
  | Some (idx, booking) =>
      if bool_decide (b_status booking = APPROVED) then
        let diff := newEndAt - b_startAt booking in
        if DAY_MS <? diff then
          emit (Alerted "Extension exceeds 24 hours from start time.")
        else if checkConflict st (b_roomId booking) (b_startAt booking) newEndAt then
          emit (Alerted "Requested extension overlaps with another booking.")
        else
          modify (replaceBooking idx (withExtension newEndAt now booking));;
          pushNotice now ("Extension requested for " +:+ b_roomLabel booking +:+ ".") info;;
          emit (ApprovalScheduled (b_id booking))
      else mret tt
  | None => mret tt
  end.

Definition modifyBooking (now : Z) (id : string) (newStartAt newEndAt : Z)
    (newReason : option string) : Op unit :=
  st ← get;
  match findBooking id st with
  | Some (idx, booking) =>
      if bool_decide (b_status booking = PENDING) || bool_decide (b_status booking = APPROVED) then
        let diff := newEndAt - newStartAt in
        if diff <=? 0 then
          emit (Alerted "End time must be after start time.")
        else if DAY_MS <? diff then
          emit (Alerted "Bookings cannot exceed 24 hours.")
        else if checkConflict st (b_roomId booking) newStartAt newEndAt then
          emit (Alerted "Requested times overlap with another booking.")
        else
          modify (replaceBooking idx (withNewTimes newStartAt newEndAt newReason now booking));;
          pushNotice now ("Booking modified for " +:+ b_roomLabel booking +:+ ".") info;;
          emit (ApprovalScheduled (b_id booking))
      else mret tt
  | None => mret tt
  end.

(** ** Operations as data *)

(** The notify button of the laundry page:
    [if (!watchFree[h]) watchFree[h] = {}; watchFree[h][f] = true]. *)
Definition requestWatch (hostel : string) (floor : Z) : Op unit :=
  modify (λ st,
    setWatchFree
      (<[hostel := <[floor := true]> (default ∅ (watchFree st !! hostel))]> (watchFree st)) st).

(** Everything that can happen to the state between two turns of the event
    loop.  [ANudge]/[AFlag] carry a detached copy of a machine (the laundry
    grid), [ANudgeAt]/[AFlagAt] name the stored object by its index (the
    modal opened through [state.machines.find]).  [ANotice] stands for the
    pages' direct [pushNotice] calls, [AProfile] for [loginUser],
    [updateUserContact] and [logoutUser]: each assigns [state.user] and
    pushes one notice (the record assigned and the text are left open). *)
Inductive Action :=
| AStartWash (machine : Machine) (minutes : Z)
| AMarkCollected (machine : Machine)
| ANudge (machine : Machine)
| ANudgeAt (i : nat)
| AFlag (machine : Machine)
| AFlagAt (i : nat)
| ASubmitReport (machineId reason notes : string) (photo : option string) (affectStatus : bool)
| ATick
| ARequestWatch (hostel : string) (floor : Z)
| ANotice (title : string) (kind : NoticeKind)
| AProfile (u : option User) (title : string) (kind : NoticeKind)
| ASubmitBooking (room : Room) (startAt endAt : Z) (reason : string)
| AApprovalFires (bookingId : string)
| ACancelBooking (id : string)
| AExtendBooking (id : string) (newEndAt : Z)
| AModifyBooking (id : string) (newStartAt newEndAt : Z) (newReason : option string).

Definition perform (now : Z) (a : Action) : Op unit :=
  match a with
  | AStartWash machine minutes => startWash now machine minutes
  | AMarkCollected machine => markCollected now machine
  | ANudge machine => nudgeMachine now machine;; mret tt
  | ANudgeAt i => onRegistered i (nudgeMachine now)
  | AFlag machine => flagMachine now machine;; mret tt
  | AFlagAt i => onRegistered i (flagMachine now)
  | ASubmitReport machineId reason notes photo affect =>
      submitReport now machineId reason notes photo affect
  | ATick => tick now
  | ARequestWatch hostel floor => requestWatch hostel floor
  | ANotice title kind => pushNotice now title kind
  | AProfile u title kind => modify (setUser u);; pushNotice now title kind
  | ASubmitBooking room startAt endAt reason => submitBooking now room startAt endAt reason
  | AApprovalFires bookingId => approvalFires now bookingId
  | ACancelBooking id => cancelBooking now id
  | AExtendBooking id newEndAt => extendBooking now id newEndAt
  | AModifyBooking id s e r => modifyBooking now id s e r
  end.

(** A history: each action with the clock reading at which it runs. *)
Fixpoint replay (history : list (Z * Action)) (st : State) : State :=
  match history with
  | [] => st
  | (now, a) :: rest => replay rest (final (perform now a st))
  end.

(** ** Specification vocabulary *)

(** An operation keeps a state predicate. *)
Definition keeps {A} (P : State → Prop) (c : Op A) : Prop :=
  ∀ st, P st → P (final (c st)).

Definition noticesBounded (st : State) : Prop :=
  (length (notices st) ≤ NOTICE_CAP)%nat.

(** The data-model invariant of a machine record. *)
Definition machineInv (m : Machine) : Prop :=
  (m_status m = RUNNING ↔ is_Some (m_eta m)) ∧
  (m_status m = AWAITING ↔ is_Some (m_lastCompletedAt m)).

Global Instance machineInv_dec m : Decision (machineInv m).
Proof. unfold machineInv. apply _. Defined.

Definition registryInv (st : State) : Prop := Forall machineInv (machines st).

(** The side condition under which an action keeps [registryInv]: the three
    operations that set a status without clearing the field of the status
    they leave must not meet a machine in that status. *)
Definition keepsInvariant (a : Action) (st : State) : Prop :=
  match a with
  | AStartWash machine _ =>
      ∀ m, m ∈ machines st → m_id m = m_id machine → m_status m ≠ AWAITING
  | AFlagAt i =>
      ∀ m, machines st !! i = Some m → m_status m ≠ RUNNING
  | ASubmitReport machineId _ _ _ affectStatus =>
      affectStatus = true →
      ∀ m, m ∈ machines st → m_id m = machineId → m_status m ≠ AWAITING
  | _ => True
  end.

(** A machine stands on a given floor of a given hostel. *)
Definition onFloor (hostel : string) (floor : Z) (m : Machine) : Prop :=
  m_hostel m = hostel ∧ m_floor m = floor.

Global Instance onFloor_dec hostel floor m : Decision (onFloor hostel floor m).
Proof. unfold onFloor. apply _. Defined.

(** Number of FREE machines on a floor of a hostel. *)
Definition countFree (hostel : string) (floor : Z) (ms : list Machine) : nat :=
  length (filter (λ m, onFloor hostel floor m ∧ m_status m = FREE) ms).

(** What one machine adds to the FREE count of a floor. *)
Definition freeBump (hostel : string) (floor : Z) (m : Machine) : nat :=
  if decide (onFloor hostel floor m ∧ m_status m = FREE) then 1%nat else 0%nat.

(** What the countdown callback returns, as a function of the machine. *)
Definition afterCountdown (now : Z) (m : Machine) : Machine :=
  match m_status m, m_eta m with
  | RUNNING, Some e => if e - 1 <=? 0 then withFinished now m else withEta (e - 1) m
  | _, _ => m
  end.

(** The condition under which the check fires for a (hostel, floor) pair. *)
Definition fires (before after : gmap string (gmap Z nat)) (st : State)
    (hostel : string) (floor : Z) : bool :=
  flagOf st hostel floor && becameFree before after hostel floor.

(** The pairs for which the watch-free check fires, in the order it visits
    them: hostels, then floors, in key order. *)
Definition firedPairs (before after : gmap string (gmap Z nat)) (st : State)
    : list (string * Z) :=
  h ← keys (watchFree st);
  f ← keys (default ∅ (watchFree st !! h));
  if fires before after st h f then [(h, f)] else [].

Definition freeNotice (floor : Z) : Event :=
  Notified ("A machine is now free on Floor " +:+ pretty floor +:+ ".") success.

(** Whether the countdown ends the machine's cycle at this tick: RUNNING,
    with an eta whose decrement is 0 or less. *)
Definition endsCycle (m : Machine) : bool :=
  match m_status m, m_eta m with
  | RUNNING, Some e => e - 1 <=? 0
  | _, _ => false
  end.

(** What the countdown over the registry [ms] does to one wash record: each
    machine whose cycle ends rewrites [state.washes] through [finishWash],
    in registry order. *)
Definition closeBy (now : Z) (ms : list Machine) (w : Wash) : Wash :=
  foldl (λ w' m, if endsCycle m then finishWash now (m_id m) w' else w') w ms.

(** ** Sample states *)

Definition hour : Z := 3600000.

Definition washer (status : MachineStatus) (eta : option Z) : Machine :=
  mkMachine "LVH-3-1" "M-3A" "LVH" 3 status eta None None None None.

(** One machine on floor 3 of LVH, one wash record for it, and the floor
    watched. *)
Definition laundry (m : Machine) : State :=
  mkState [m] [mkWash "w-1" "LVH-3-1" "M-3A" "LVH" 3 0 None W_RUNNING] [] []
          {["LVH" := {[3 := true]}]} None [] [].

Definition awaitingPickup : Machine :=
  mkMachine "LVH-3-1" "M-3A" "LVH" 3 AWAITING None (Some 1000) None None None.

Definition midCycle : Machine :=
  mkMachine "LVH-3-2" "M-3B" "LVH" 3 RUNNING (Some 20) None None (Some 1) None.

Definition floor3 : State :=
  mkState [awaitingPickup; midCycle] [] [] [] ∅ None [] [].

Definition fullLog : State :=
  mkState [] [] (replicate 50 (mkNotice "n-0" "old" 0 info)) [] ∅ None [] [].

Definition room1 : Room := mkRoom "CR-1" "Common Room 1" true.

Definition demoLedger : State :=
  mkState [] [] [] [] ∅ None []
    [ mkBooking "b-1" "CR-1" "Common Room 1" true (10 * hour) (11 * hour) "study" APPROVED 0 0;
      mkBooking "b-2" "CR-1" "Common Room 1" true (11 * hour) (12 * hour) "club" CANCELLED 0 0;
      mkBooking "b-3" "CR-2" "Common Room 2" true (11 * hour) (12 * hour) "club" PENDING 0 0 ].

Definition approvedOnly : State :=
  mkState [] [] [] [] ∅ None []
    [ mkBooking "b-1" "CR-1" "Common Room 1" true (10 * hour) (11 * hour) "study" APPROVED 0 0 ].

(** A ledger reached through the core alone: a zero-length request, then its
    approval. *)
Definition zeroLength : State :=
  replay [(1, ASubmitBooking room1 (10 * hour) (10 * hour) "setup");
          (2, AApprovalFires "b-1")]
         (mkState [] [] [] [] ∅ None [] []).

(** * The rest of the core *)

(** ** Seeding *)

(** [makeRooms]: eight rooms, the first half with AC. *)
Definition makeRooms : list Room :=
  (λ i : Z, mkRoom ("CR-" +:+ pretty i) ("Common Room " +:+ pretty i) (i <=? 8 / 2))
    <$> [1; 2; 3; 4; 5; 6; 7; 8].

Section seeding.
(** [makeMachines] draws from [Math.random()].  The draws are floating-point
    numbers and are kept abstract: [random k] is the value of the [k]-th
    call, [below45 d] is [d < 0.45], [below25 d] is [d < 0.25], [etaOf d] is
    [Math.floor(8 + d * 28)] and [agoOf d] is
    [Math.floor(d * 1000 * 60 * 30)]. *)
Context {Draw : Type}.
Variables (random : nat → Draw) (below45 below25 : Draw → bool) (etaOf agoOf : Draw → Z).

(** The body of the innermost loop; [k] counts the draws made so far.  The
    second draw is made only when the first says "not running" ([&&]
    short-circuits), the eta draw only for a running machine, the
    completion-time draw only for an awaiting one. *)
Definition seedMachine (now : Z) (hostel : string) (floor i : Z) (k : nat) : Machine * nat :=
  let running := below45 (random k) in
  let k1 := S k in
  let '(awaiting, k2) :=
    if running then (false, k1) else (below25 (random k1), S k1) in
  let '(eta, k3) :=
    if running then (Some (etaOf (random k2)), S k2) else (None, k2) in
  let '(lastCompletedAt, k4) :=
    if awaiting then (Some (now - agoOf (random k3)), S k3) else (None, k3) in
  (mkMachine (hostel +:+ "-" +:+ pretty floor +:+ "-" +:+ pretty i)
             ("M-" +:+ pretty floor +:+ String (Ascii.ascii_of_nat (64 + Z.to_nat i)) EmptyString)
             hostel floor
             (if running then RUNNING else if awaiting then AWAITING else FREE)
             eta lastCompletedAt None None None,
   k4).

Fixpoint seedAll (now : Z) (slots : list (string * Z * Z)) (k : nat) : list Machine :=
  match slots with
  | [] => []
  | (hostel, floor, i) :: rest =>
      let '(m, k') := seedMachine now hostel floor i k in
      m :: seedAll now rest k'
  end.

(** Four hostels, four floors each, five machines per floor. *)
Definition seedSlots : list (string * Z * Z) :=
  hostel ← ["LVH"; "OH"; "WH"; "NH"];
  floor ← [1; 2; 3; 4];
  i ← [1; 2; 3; 4; 5];
  [(hostel, floor, i)].

Definition makeMachines (now : Z) : list Machine := seedAll now seedSlots 0.

(** The flags [initState] creates: one entry, false, for every hostel and
    floor that has a machine. *)
Definition initWatch (ms : list Machine) : gmap string (gmap Z bool) :=
  foldl (λ wf hostel,
           <[hostel :=
               foldl (λ byFloor floor, <[floor := false]> byFloor) ∅
                     (remove_dups (m_floor <$> filter (λ m, m_hostel m = hostel) ms))]> wf)
        ∅ (remove_dups (m_hostel <$> ms)).

(** The state [initState] builds when the stored one is missing or stale. *)
Definition freshState (now : Z) : State :=
  let ms := makeMachines now in
  mkState ms [] [] [] (initWatch ms) None makeRooms [].
End seeding.

(** What every seeded machine looks like, whatever was drawn. *)
Definition seededAs (slot : string * Z * Z) (m : Machine) : Prop :=
  m_id m = slot.1.1 +:+ "-" +:+ pretty slot.1.2 +:+ "-" +:+ pretty slot.2 ∧
  m_hostel m = slot.1.1 ∧ m_floor m = slot.1.2 ∧
  machineInv m ∧ m_status m ≠ MAINT ∧
  m_nudgeCount m = None ∧ m_flagCount m = None ∧ m_ownerId m = None.

(** ** Status summary *)

Record Counts := mkCounts {
  c_FREE : nat;
  c_RUNNING : nat;
  c_AWAITING : nat;
  c_MAINT : nat
}.

(** [counts[m.status]++] *)
Definition bumpCount (c : Counts) (m : Machine) : Counts :=
  match m_status m with
  | FREE => mkCounts (S (c_FREE c)) (c_RUNNING c) (c_AWAITING c) (c_MAINT c)
  | RUNNING => mkCounts (c_FREE c) (S (c_RUNNING c)) (c_AWAITING c) (c_MAINT c)
  | AWAITING => mkCounts (c_FREE c) (c_RUNNING c) (S (c_AWAITING c)) (c_MAINT c)
  | MAINT => mkCounts (c_FREE c) (c_RUNNING c) (c_AWAITING c) (S (c_MAINT c))
  end.

Definition computeCounts (ms : list Machine) : Counts :=
  foldl bumpCount (mkCounts 0 0 0 0) ms.

(** Number of machines in a status. *)
Definition countStatus (s : MachineStatus) (ms : list Machine) : nat :=
  length (filter (λ m, m_status m = s) ms).

(** ** Live-log snippet *)

(** A JavaScript string as its UTF-16 code units. *)
Definition ELLIPSIS : N := 0x2026%N.

(** [if (!text) return null;
     return text.length > 140 ? `${text.slice(0, 139)}…` : text] *)
Definition truncateLogSnippet (text : option (list N)) : option (list N) :=
  match text with
  | None | Some [] => None
  | Some t => Some (if (140 <? length t)%nat then take 139 t ++ [ELLIPSIS] else t)
  end.

(** ** Explicit approval (the admin variant of the ledger) *)

(** [approveBooking] and [rejectBooking] of the admin build of the script.
    There the ledger lives in [commonRoomDB.bookings], which [state.bookings]
    aliases; one list stands for both. *)
Definition approveBooking (now : Z) (bookingId : string) : Op unit :=
  st ← get;
  match findBooking bookingId st with
  | Some (idx, booking) =>
      if bool_decide (b_status booking = PENDING) then
        modify (replaceBooking idx (withBookingStatus APPROVED now booking));;
        pushNotice now ("Booking approved for " +:+ b_roomLabel booking +:+ ".") success
      else mret tt
  | None => mret tt
  end.

Definition rejectBooking (now : Z) (bookingId : string) : Op unit :=
  st ← get;
  match findBooking bookingId st with
  | Some (idx, booking) =>
      if bool_decide (b_status booking = PENDING) then
        modify (replaceBooking idx (withBookingStatus REJECTED now booking));;
        pushNotice now ("Booking rejected for " +:+ b_roomLabel booking +:+ ".") warning
      else mret tt
  | None => mret tt
  end.

(** ** Repeated ticks *)

(** The interval handler fired once per clock reading. *)
Definition ticks (nows : list Z) : Op unit := forEach tick nows.

(** ** More specification vocabulary *)

(** What the countdown callback emits, as a function of the machine. *)
Definition countdownEvents (m : Machine) : list Event :=
  match m_status m, m_eta m with
  | RUNNING, Some e =>
      if e - 1 =? 3 then [Notified (m_label m +:+ " finishing in ~3 minutes.") info]
      else if e - 1 <=? 0
           then [Notified (m_label m +:+ " finished. Please collect clothes.") success]
           else []
  | _, _ => []
  end.

(** A machine in mid-cycle whose eta lies in a range. *)
Definition runningWithin (lo hi : Z) (m : Machine) : Prop :=
  m_status m = RUNNING ∧ ∃ e, m_eta m = Some e ∧ lo ≤ e ≤ hi.

Global Instance runningWithin_dec lo hi m : Decision (runningWithin lo hi m).
Proof.
  unfold runningWithin. destruct (m_eta m) as [e|].
  - destruct (decide (m_status m = RUNNING ∧ lo ≤ e ≤ hi)) as [H|H].
    + left. destruct H as [Hs He]. split; [exact Hs|]. exists e. split; [reflexivity|exact He].
    + right. intros (? & e' & [= <-] & ?). tauto.
  - right. by intros (? & e' & [=] & ?).
Defined.

(** A machine in mid-cycle that reaches the end of its cycle within [n]
    ticks: at the first tick when its eta is 1 or less, at the [e]-th
    otherwise. *)
Definition finishesWithin (n : Z) (m : Machine) : Prop :=
  m_status m = RUNNING ∧ ∃ e, m_eta m = Some e ∧ Z.max 1 e ≤ n.

Global Instance finishesWithin_dec n m : Decision (finishesWithin n m).
Proof.
  unfold finishesWithin. destruct (m_eta m) as [e|].
  - destruct (decide (m_status m = RUNNING ∧ Z.max 1 e ≤ n)) as [H|H].
    + left. destruct H as [Hs He]. split; [exact Hs|]. exists e. split; [reflexivity|exact He].
    + right. intros (? & e' & [= <-] & ?). tauto.
  - right. by intros (? & e' & [=] & ?).
Defined.

Definition isNotice (k : NoticeKind) (e : Event) : Prop :=
  match e with Notified _ k' => k' = k | _ => False end.

Global Instance isNotice_dec k e : Decision (isNotice k e).
Proof. destruct e; cbn; apply _. Defined.

(** A wash record has an end time exactly when it is no longer running. *)
Definition washInv (w : Wash) : Prop := w_status w = W_RUNNING ↔ w_endAt w = None.

(** The stored range of a booking is non-empty and at most a day long. *)
Definition bookingInv (b : Booking) : Prop :=
  b_startAt b < b_endAt b ∧ b_endAt b - b_startAt b ≤ DAY_MS.

Definition terminal (b : Booking) : Prop :=
  b_status b = CANCELLED ∨ b_status b = REJECTED.

(** The parts of the state that belong to the ledger and the profile. *)
Definition sameElsewhere (st st' : State) : Prop :=
  bookings st' = bookings st ∧ reports st' = reports st ∧
  rooms st' = rooms st ∧ user st' = user st.

Definition sameIdentity (m m' : Machine) : Prop :=
  m_id m' = m_id m ∧ m_label m' = m_label m ∧
  m_hostel m' = m_hostel m ∧ m_floor m' = m_floor m ∧
  m_nudgeCount m' = m_nudgeCount m ∧ m_flagCount m' = m_flagCount m ∧
  m_ownerId m' = m_ownerId m.

(** A wash record is as it was, or was RUNNING and has been closed at [now]. *)
Definition closedAt (now : Z) (w w' : Wash) : Prop :=
  w' = w ∨ (w_status w = W_RUNNING ∧ w' = withWashStatus W_AWAITING now w).

(** [b'] is the entry [b] at a later time: same request, and unchanged if
    [b] was already CANCELLED or REJECTED. *)
Definition sameBooking (b b' : Booking) : Prop :=
  b_id b' = b_id b ∧ b_roomId b' = b_roomId b ∧ b_roomLabel b' = b_roomLabel b ∧
  b_hasAC b' = b_hasAC b ∧ b_createdAt b' = b_createdAt b ∧
  (terminal b → b' = b).

(** The ledger [new] holds every entry of [old], in order, below entries
    added since. *)
Definition grownFrom (old new : list Booking) : Prop :=
  ∃ added kept, new = added ++ kept ∧ Forall2 sameBooking old kept.


(** Title and kind of the notices a run pushed, oldest first. *)
Definition pushed (es : list Event) : list (string * NoticeKind) :=
  omap (λ e, match e with Notified t k => Some (t, k) | _ => None end) es.

Definition headline (n : Notice) : string * NoticeKind := (n_title n, n_kind n).

(** An operation keeps the log in step with what it pushes: afterwards the
    log shows the notices pushed, newest first, then the earlier entries,
    cut at 50. *)
Definition logs {A} (c : Op A) : Prop :=
  ∀ st, noticesBounded st →
    noticesBounded (final (c st)) ∧
    headline <$> notices (final (c st)) =
    take 50 (reverse (pushed (emitted (c st))) ++ (headline <$> notices st)).

(** A history together with what it emitted. *)
Fixpoint replayEvents (history : list (Z * Action)) (st : State) : list Event :=
  match history with
  | [] => []
  | (now, a) :: rest =>
      emitted (perform now a st) ++ replayEvents rest (final (perform now a st))
  end.

(** ** More sample states *)

Definition busyFloor : State :=
  mkState [ mkMachine "LVH-1-1" "M-1A" "LVH" 1 RUNNING (Some 5) None None None None;
            mkMachine "LVH-1-2" "M-1B" "LVH" 1 RUNNING (Some 2) None None None None;
            mkMachine "LVH-1-3" "M-1C" "LVH" 1 FREE None None None None None ]
          [ mkWash "w-2" "LVH-1-2" "M-1B" "LVH" 1 0 None W_RUNNING ] [] []
          {["LVH" := {[1 := true]}]} (Some (mkUser "u-1" "a@b.c" None)) [] [].

(** * Properties *)

#[local] Set Warnings "-clear-no-such-hyp".

(** ** The monad *)

Section op_laws.
Context {A B : Type}.
Implicit Types (c : Op A) (f : A → Op B) (st : State).

Lemma value_bind c f st :
  value ((c ≫= f) st) = value (f (value (c st)) (final (c st))).
Proof. reflexivity. Qed.

Lemma final_bind c f st :
  final ((c ≫= f) st) = final (f (value (c st)) (final (c st))).
Proof. reflexivity. Qed.

Lemma emitted_bind c f st :
  emitted ((c ≫= f) st) =
  emitted (c st) ++ emitted (f (value (c st)) (final (c st))).
Proof. reflexivity. Qed.
End op_laws.

Lemma run_ret {A} (x : A) st : (mret x : Op A) st = mkRun x st [].
Proof. reflexivity. Qed.

Lemma run_bind {A B} (c : Op A) (f : A → Op B) st :
  (c ≫= f) st =
  mkRun (value (f (value (c st)) (final (c st))))
        (final (f (value (c st)) (final (c st))))
        (emitted (c st) ++ emitted (f (value (c st)) (final (c st)))).
Proof. reflexivity. Qed.

Lemma run_pushNotice now title kind st :
  pushNotice now title kind st =
  mkRun tt
    (setNotices (capNotices (mkNotice ("n-" +:+ pretty now) title now kind :: notices st)) st)
    [Notified title kind].
Proof. reflexivity. Qed.

Global Opaque pushNotice.

(** Unfold one layer of an operation and normalise the run. *)
Ltac run :=
  repeat (rewrite ?run_bind, ?run_ret, ?run_pushNotice; cbn [value final emitted get emit modify]).

Section keeps.
Context (P : State → Prop).

Lemma keeps_ret {A} (x : A) : keeps P (mret x).
Proof. intros st H. exact H. Qed.

Lemma keeps_get : keeps P get.
Proof. intros st H. exact H. Qed.

Lemma keeps_emit e : keeps P (emit e).
Proof. intros st H. exact H. Qed.

Lemma keeps_bind {A B} (c : Op A) (f : A → Op B) :
  keeps P c → (∀ x, keeps P (f x)) → keeps P (c ≫= f).
Proof. intros Hc Hf st H. rewrite final_bind. apply Hf, Hc, H. Qed.

Lemma keeps_modify (g : State → State) :
  (∀ st, P st → P (g st)) → keeps P (modify g).
Proof. intros Hg st H. apply Hg, H. Qed.

Lemma keeps_forEach {A} (f : A → Op unit) xs :
  (∀ x, keeps P (f x)) → keeps P (forEach f xs).
Proof.
  intros Hf. induction xs as [|x xs IH]; cbn [forEach].
  - apply keeps_ret.
  - apply keeps_bind; auto.
Qed.

Lemma keeps_mapM {A B} (f : A → Op B) xs :
  (∀ x, keeps P (f x)) → keeps P (mapM f xs).
Proof.
  intros Hf. induction xs as [|x xs IH]; cbn [mapM].
  - apply keeps_ret.
  - apply keeps_bind; [apply Hf|]. intros y.
    apply keeps_bind; [apply IH|]. intros ys. apply keeps_ret.
Qed.
End keeps.

(** ** Notification sink: the cap of 50 *)

Section notices.
Implicit Types (ns : list Notice) (n : Notice).

Lemma capNotices_below n ns :
  (length ns < NOTICE_CAP)%nat → capNotices (n :: ns) = n :: ns.
Proof.
  intros H. unfold capNotices.
  destruct (Nat.ltb_spec NOTICE_CAP (length (n :: ns))) as [Hlt|_]; [|done].
  cbn [length] in Hlt. lia.
Qed.

Lemma capNotices_full n ns kept oldest :
  ns = kept ++ [oldest] → (NOTICE_CAP ≤ length ns)%nat →
  capNotices (n :: ns) = n :: kept.
Proof.
  intros -> H. unfold capNotices.
  destruct (Nat.ltb_spec NOTICE_CAP (length (n :: kept ++ [oldest]))) as [_|Hge].
  - change (n :: kept ++ [oldest]) with ((n :: kept) ++ [oldest]).
    by rewrite removelast_last.
  - cbn [length] in Hge. lia.
Qed.

Lemma capNotices_length n ns :
  (length ns ≤ NOTICE_CAP)%nat → (length (capNotices (n :: ns)) ≤ NOTICE_CAP)%nat.
Proof.
  intros H. destruct (decide (length ns < NOTICE_CAP)%nat) as [Hlt|Hge].
  - rewrite capNotices_below by done. cbn [length]. lia.
  - destruct (exists_last (l := ns)) as (kept & oldest & Hns).
    { intros ->. cbn in Hge. unfold NOTICE_CAP in Hge. lia. }
    rewrite (capNotices_full n ns kept oldest) by (done || lia).
    subst ns. rewrite length_app in H. cbn [length] in *. lia.
Qed.

Lemma capNotices_head n ns : ∃ rest, capNotices (n :: ns) = n :: rest.
Proof.
  unfold capNotices. case_match; [|by eexists].
  destruct ns as [|n' ns]; [done|].
  exists (removelast (n' :: ns)). reflexivity.
Qed.
End notices.

Lemma keeps_pushNotice_bound now title kind :
  keeps noticesBounded (pushNotice now title kind).
Proof.
  intros st H. rewrite run_pushNotice. cbn. by apply capNotices_length.
Qed.

(** Solve [keeps P c] for an operation [c] made of the monad's combinators,
    once the hint database knows how [P] fares under the primitive steps. *)
Create HintDb keeps discriminated.
#[local] Hint Resolve keeps_ret keeps_get keeps_emit keeps_pushNotice_bound : keeps.

Ltac keeps_step :=
  lazymatch goal with
  | |- keeps _ (_ ≫= _) => apply keeps_bind; [|intros ?]
  | |- keeps _ (forEach _ _) => apply keeps_forEach; intros ?
  | |- keeps _ (mapM _ _) => apply keeps_mapM; intros ?
  | |- keeps _ (modify _) => apply keeps_modify; intros ? ?; assumption
  | |- keeps _ (if ?b then _ else _) => destruct b
  | |- keeps _ (match ?x with _ => _ end) => destruct x
  | |- keeps _ _ => solve [auto with keeps]
  end.

Ltac keeps_auto := repeat keeps_step.

Lemma keeps_bound_sendReminderEmail now m :
  keeps noticesBounded (sendReminderEmail now m).
Proof. unfold sendReminderEmail. keeps_auto. Qed.

Lemma keeps_bound_nudgeMachine now m : keeps noticesBounded (nudgeMachine now m).
Proof.
  unfold nudgeMachine. keeps_auto; auto using keeps_bound_sendReminderEmail.
Qed.

Lemma keeps_bound_flagMachine now m : keeps noticesBounded (flagMachine now m).
Proof. unfold flagMachine. keeps_auto. Qed.

Lemma keeps_bound_tickMachine now m : keeps noticesBounded (tickMachine now m).
Proof. unfold tickMachine. keeps_auto. Qed.

Lemma keeps_bound_watchFreeCheck now before after :
  keeps noticesBounded (watchFreeCheck now before after).
Proof.
  unfold watchFreeCheck, watchHostel, watchFloor. keeps_auto.
Qed.

Lemma keeps_bound_onRegistered i (f : Machine → Op Machine) :
  (∀ m, keeps noticesBounded (f m)) → keeps noticesBounded (onRegistered i f).
Proof. intros Hf. unfold onRegistered. keeps_auto; auto. Qed.

Lemma keeps_bound_perform now a : keeps noticesBounded (perform now a).
Proof.
  destruct a; cbn [perform];
    unfold startWash, markCollected, submitReport, tick, countdown, requestWatch,
      submitBooking, approvalFires, cancelBooking, extendBooking, modifyBooking;
    try (apply keeps_bound_onRegistered; intros ?);
    keeps_auto;
    auto using keeps_bound_nudgeMachine, keeps_bound_flagMachine,
      keeps_bound_tickMachine, keeps_bound_watchFreeCheck.
Qed.

Lemma replay_bounded history st :
  noticesBounded st → noticesBounded (replay history st).
Proof.
  revert st. induction history as [|[now a] rest IH]; intros st H; cbn [replay].
  - exact H.
  - apply IH, keeps_bound_perform, H.
Qed.

(** C7. The notice list never grows past 50: [pushNotice] puts the new
    notice at the head; below the cap nothing is dropped; at the cap the
    last (oldest) entry is dropped and the others keep their order; and the
    bound survives every history of operations. *)
Theorem C7_notices_capped :
  (∀ now title kind st,
     ∃ rest, notices (final (pushNotice now title kind st)) =
             mkNotice ("n-" +:+ pretty now) title now kind :: rest) ∧
  (∀ now title kind st,
     (length (notices st) < 50)%nat →
     notices (final (pushNotice now title kind st)) =
     mkNotice ("n-" +:+ pretty now) title now kind :: notices st) ∧
  (∀ now title kind st,
     length (notices st) = 50%nat →
     ∃ kept oldest,
       notices st = kept ++ [oldest] ∧
       notices (final (pushNotice now title kind st)) =
       mkNotice ("n-" +:+ pretty now) title now kind :: kept) ∧
  (∀ history st,
     (length (notices st) ≤ 50)%nat →
     (length (notices (replay history st)) ≤ 50)%nat).
Proof.
  split_and!.
  - intros. rewrite run_pushNotice. cbn. apply capNotices_head.
  - intros * H. rewrite run_pushNotice. cbn. by apply capNotices_below.
  - intros * H. destruct (exists_last (l := notices st)) as (kept & oldest & Hns).
    { intros Hnil. rewrite Hnil in H. discriminate. }
    exists kept, oldest. split; [done|].
    rewrite run_pushNotice. cbn.
    apply (capNotices_full _ _ kept oldest); [done|]. unfold NOTICE_CAP. lia.
  - intros history st H. by apply replay_bounded.
Qed.

Lemma C7_notices_capped_witness :
  (length (notices fullLog) ≤ 50)%nat ∧
  (length (notices (replay [(7%Z, ANotice "new" success); (8%Z, ATick)] fullLog)) ≤ 50)%nat.
Proof.
  split.
  - vm_compute. lia.
  - apply (proj2 (proj2 (proj2 C7_notices_capped))). vm_compute. lia.
Defined.

(** ** Booking ledger: conflict detection *)

Section conflict.
Implicit Types (b : Booking) (st : State).

Lemma conflictsWith_true roomId startAt endAt b :
  conflictsWith roomId startAt endAt b = true ↔
  b_roomId b = roomId ∧ b_status b ≠ CANCELLED ∧ b_status b ≠ REJECTED ∧
  startAt < b_endAt b ∧ endAt > b_startAt b.
Proof.
  unfold conflictsWith.
  repeat case_bool_decide; cbn [negb orb andb];
    rewrite ?andb_true_iff, ?Z.ltb_lt;
    (split; [intros H'|intros (?&?&?&?&?)]); try done; try lia.
  repeat split; try done; lia.
Qed.

Lemma checkConflict_true st roomId startAt endAt :
  checkConflict st roomId startAt endAt = true ↔
  ∃ b, b ∈ bookings st ∧ conflictsWith roomId startAt endAt b = true.
Proof.
  unfold checkConflict. rewrite existsb_exists.
  by setoid_rewrite list_elem_of_In.
Qed.

Lemma checkConflict_false st roomId startAt endAt :
  checkConflict st roomId startAt endAt = false ↔
  ∀ b, b ∈ bookings st → conflictsWith roomId startAt endAt b = false.
Proof.
  rewrite <- not_true_iff_false, checkConflict_true. split.
  - intros Hno b Hb. apply not_true_iff_false. naive_solver.
  - intros Hall (b & Hb & Hc). rewrite Hall in Hc; done.
Qed.
End conflict.

(** C4. [checkConflict] is true exactly when some stored booking of the same
    room, neither CANCELLED nor REJECTED, overlaps the requested range in
    the strict sense; a ledger whose bookings only touch the range, sit in
    another room, or are CANCELLED or REJECTED never conflicts. *)
Theorem C4_checkConflict_spec :
  (∀ st roomId startAt endAt,
     checkConflict st roomId startAt endAt = true ↔
     ∃ b, b ∈ bookings st ∧ b_roomId b = roomId ∧
          b_status b ≠ CANCELLED ∧ b_status b ≠ REJECTED ∧
          startAt < b_endAt b ∧ endAt > b_startAt b) ∧
  (∀ st roomId startAt endAt,
     (∀ b, b ∈ bookings st →
           endAt = b_startAt b ∨ startAt = b_endAt b ∨
           b_roomId b ≠ roomId ∨
           b_status b = CANCELLED ∨ b_status b = REJECTED) →
     checkConflict st roomId startAt endAt = false).
Proof.
  split.
  - intros. rewrite checkConflict_true.
    by setoid_rewrite conflictsWith_true.
  - intros * Hall. apply checkConflict_false. intros b Hb.
    apply not_true_iff_false. rewrite conflictsWith_true.
    destruct (Hall b Hb) as [?|[?|[?|[?|?]]]]; intros (?&?&?&?&?);
      congruence || lia.
Qed.

Lemma C4_checkConflict_spec_witness :
  checkConflict demoLedger "CR-1" (10 * hour + hour / 2) (11 * hour + hour / 2) = true ∧
  checkConflict demoLedger "CR-1" (11 * hour) (12 * hour) = false.
Proof.
  split.
  - apply (proj1 C4_checkConflict_spec). eexists. split.
    + apply list_elem_of_here.
    + vm_compute. repeat split; discriminate.
  - apply (proj2 C4_checkConflict_spec). intros b Hb.
    apply list_elem_of_In in Hb. cbn in Hb.
    destruct Hb as [<-|[<-|[<-|[]]]]; cbn.
    + right. left. reflexivity.
    + do 3 right. left. reflexivity.
    + do 2 right. left. discriminate.
Defined.

(** ** Machine registry: countdown, flags, collection *)

Lemma run_tickMachine now m st :
  tickMachine now m st =
  match m_status m, m_eta m with
  | RUNNING, Some e =>
      if e - 1 =? 3 then
        mkRun (withEta 3 m)
              (final (pushNotice now (m_label m +:+ " finishing in ~3 minutes.") info st))
              [Notified (m_label m +:+ " finishing in ~3 minutes.") info]
      else if e - 1 <=? 0 then
        let st' := final (pushNotice now (m_label m +:+ " finished. Please collect clothes.")
                                     success st) in
        mkRun (withFinished now m)
              (setWashes (map (finishWash now (m_id m)) (washes st')) st')
              [Notified (m_label m +:+ " finished. Please collect clothes.") success]
      else mkRun (withEta (e - 1) m) st []
  | _, _ => mkRun m st []
  end.
Proof.
  unfold tickMachine.
  destruct (m_status m), (m_eta m) as [e|]; try reflexivity.
  destruct (Z.eqb_spec (e - 1) 3) as [->|Hne]; [reflexivity|].
  destruct (e - 1 <=? 0); reflexivity.
Qed.

Lemma value_tickMachine now m st :
  value (tickMachine now m st) = afterCountdown now m.
Proof.
  rewrite run_tickMachine. unfold afterCountdown.
  destruct (m_status m), (m_eta m) as [e|]; try reflexivity.
  destruct (Z.eqb_spec (e - 1) 3) as [->|Hne]; [reflexivity|].
  destruct (e - 1 <=? 0); reflexivity.
Qed.

Lemma value_mapM {A B} (f : A → Op B) (g : A → B) xs st :
  (∀ x st', value (f x st') = g x) → value (mapM f xs st) = map g xs.
Proof.
  intros Hf. revert st. induction xs as [|x xs IH]; intros st; [reflexivity|].
  cbn [mapM map]. rewrite !value_bind. cbn. by rewrite Hf, IH.
Qed.

Lemma countdown_machines now st :
  machines (final (countdown now st)) = map (afterCountdown now) (machines st).
Proof.
  unfold countdown. rewrite !final_bind. cbn.
  apply value_mapM. intros. apply value_tickMachine.
Qed.

Lemma keeps_watchFree_pushNotice (P : gmap string (gmap Z bool) → Prop) now title kind :
  keeps (λ st, P (watchFree st)) (pushNotice now title kind).
Proof. intros st H. rewrite run_pushNotice. exact H. Qed.

Lemma keeps_machines_pushNotice (P : list Machine → Prop) now title kind :
  keeps (λ st, P (machines st)) (pushNotice now title kind).
Proof. intros st H. rewrite run_pushNotice. exact H. Qed.

Lemma keeps_machines_tickMachine (P : list Machine → Prop) now m :
  keeps (λ st, P (machines st)) (tickMachine now m).
Proof.
  intros st H. rewrite run_tickMachine.
  destruct (m_status m), (m_eta m) as [e|]; try exact H.
  destruct (e - 1 =? 3); [exact H|]. destruct (e - 1 <=? 0); exact H.
Qed.

Lemma keeps_watchFree_tickMachine (P : gmap string (gmap Z bool) → Prop) now m :
  keeps (λ st, P (watchFree st)) (tickMachine now m).
Proof.
  intros st H. rewrite run_tickMachine.
  destruct (m_status m), (m_eta m) as [e|]; try exact H.
  destruct (e - 1 =? 3); [exact H|]. destruct (e - 1 <=? 0); exact H.
Qed.

Lemma watchFree_countdown now st :
  watchFree (final (countdown now st)) = watchFree st.
Proof.
  unfold countdown. rewrite !final_bind. cbn.
  apply (keeps_mapM (λ s, watchFree s = watchFree st)); [|done].
  intros m. apply (keeps_watchFree_tickMachine (λ w, w = watchFree st)).
Qed.

Lemma keeps_machines_watchFreeCheck (P : list Machine → Prop) now before after :
  keeps (λ st, P (machines st)) (watchFreeCheck now before after).
Proof.
  unfold watchFreeCheck, watchHostel, watchFloor. keeps_auto.
  all: apply (keeps_machines_pushNotice P).
Qed.

Lemma tick_machines now st :
  machines (final (tick now st)) = map (afterCountdown now) (machines st).
Proof.
  unfold tick. rewrite !final_bind. cbn [get value final].
  rewrite <- countdown_machines.
  by apply (keeps_machines_watchFreeCheck (λ ms, ms = machines (final (countdown now st)))).
Qed.

Lemma finishWash_running now id w :
  w_machineId w = id → w_status w = W_RUNNING →
  finishWash now id w = withWashStatus W_AWAITING now w.
Proof.
  intros Hid Hs. unfold finishWash.
  by rewrite !bool_decide_eq_true_2.
Qed.

Lemma run_flagMachine now m st :
  flagMachine now m st =
  if 2 <=? default 0 (m_flagCount m) + 1 then
    mkRun (withAbandoned now m)
      (final (pushNotice now (m_label m +:+
                " flagged as still occupied. Please collect your clothes.") report st))
      [Notified (m_label m +:+
         " flagged as still occupied. Please collect your clothes.") report]
  else
    mkRun (withFlagCount (default 0 (m_flagCount m) + 1) m)
      (final (pushNotice now ("Flag recorded for " +:+ m_label m +:+
                ". One more flag will apply a penalty.") info st))
      [Notified ("Flag recorded for " +:+ m_label m +:+
         ". One more flag will apply a penalty.") info].
Proof. unfold flagMachine. destruct (2 <=? _); reflexivity. Qed.

Lemma run_onRegistered i (f : Machine → Op Machine) m st :
  machines st !! i = Some m →
  (∀ s, machines (final (f m s)) = machines s) →
  machines (final (onRegistered i f st)) = <[i := value (f m st)]> (machines st).
Proof.
  intros Hi Hf. unfold onRegistered. rewrite final_bind. cbn [get value final].
  rewrite Hi, final_bind. cbn. by rewrite Hf.
Qed.

(** C6. [flagMachine] adds one to the flag counter of the object it is
    given.  At 2 or more both counters go back to 0, the status is set to
    AWAITING whatever it was, [lastCompletedAt] becomes the current time and
    one notice of kind report is pushed.  At 1 only the info notice is
    pushed: status, [lastCompletedAt] and the nudge counter stay.  When the
    object is the one stored in the registry, the registry shows the
    change. *)
Theorem C6_flagMachine now m st :
  let n := default 0 (m_flagCount m) + 1 in
  let r := flagMachine now m st in
  (2 ≤ n →
     m_flagCount (value r) = Some 0 ∧ m_nudgeCount (value r) = Some 0 ∧
     m_status (value r) = AWAITING ∧ m_lastCompletedAt (value r) = Some now ∧
     emitted r = [Notified (m_label m +:+
                    " flagged as still occupied. Please collect your clothes.") report]) ∧
  (n = 1 →
     m_flagCount (value r) = Some 1 ∧ m_nudgeCount (value r) = m_nudgeCount m ∧
     m_status (value r) = m_status m ∧
     m_lastCompletedAt (value r) = m_lastCompletedAt m ∧
     emitted r = [Notified ("Flag recorded for " +:+ m_label m +:+
                    ". One more flag will apply a penalty.") info]) ∧
  (∀ i, machines st !! i = Some m →
     machines (final (onRegistered i (flagMachine now) st)) =
     <[i := value r]> (machines st)).
Proof.
  intros n r. subst n r. split_and!.
  - intros Hn. rewrite run_flagMachine.
    destruct (Z.leb_spec 2 (default 0 (m_flagCount m) + 1)); [done|lia].
  - intros Hn. rewrite run_flagMachine.
    destruct (Z.leb_spec 2 (default 0 (m_flagCount m) + 1)); [lia|].
    cbn. by rewrite Hn.
  - intros i Hi. apply run_onRegistered; [done|].
    intros s. rewrite run_flagMachine. by destruct (2 <=? _).
Qed.

Lemma C6_flagMachine_witness :
  let flagged1 := value (flagMachine 5 (washer AWAITING None) (laundry (washer AWAITING None))) in
  m_flagCount flagged1 = Some 1 ∧
  m_flagCount (value (flagMachine 6 flagged1 (laundry flagged1))) = Some 0.
Proof.
  split.
  - apply (proj1 (proj2 (C6_flagMachine 5 (washer AWAITING None)
                           (laundry (washer AWAITING None))))). reflexivity.
  - apply (proj1 (C6_flagMachine 6 _ (laundry _))). vm_compute. discriminate.
Defined.

Lemma collectWash_spec now id w :
  collectWash now id w =
  if decide (w_machineId w = id ∧ (w_status w = W_AWAITING ∨ w_status w = W_RUNNING))
  then withWashStatus W_COLLECTED now w else w.
Proof.
  unfold collectWash.
  repeat case_bool_decide; case_decide; cbn [andb orb]; try reflexivity; exfalso; tauto.
Qed.

Lemma collectWash_idem now now' id w :
  collectWash now' id (collectWash now id w) = collectWash now id w.
Proof.
  rewrite (collectWash_spec now). case_decide as Hw.
  - rewrite collectWash_spec. rewrite decide_False; [done|].
    cbn. intros (_ & [?|?]); discriminate.
  - rewrite collectWash_spec. by rewrite decide_False.
Qed.

Lemma mapMachine_collected_idem id ms :
  mapMachine id withCollected (mapMachine id withCollected ms) =
  mapMachine id withCollected ms.
Proof.
  unfold mapMachine. rewrite map_map. apply map_ext. intros m.
  destruct (decide (m_id m = id)) as [Hid|Hid]; cbn.
  - by rewrite decide_True.
  - by rewrite decide_False.
Qed.

Lemma run_markCollected now machine st :
  markCollected now machine st =
  mkRun tt
    (final (pushNotice now ("Thank you! " +:+ m_label machine +:+ " is free now.") success
       (setWashes (map (collectWash now (m_id machine)) (washes st))
          (setMachines (mapMachine (m_id machine) withCollected (machines st)) st))))
    [Notified ("Thank you! " +:+ m_label machine +:+ " is free now.") success].
Proof. reflexivity. Qed.

(** C9. [markCollected] frees every registry entry with the machine's id
    (status FREE, eta and [lastCompletedAt] cleared) and turns each of its
    RUNNING or AWAITING wash records into COLLECTED with [endAt] set.  A
    second call for the same machine leaves registry and wash records as
    they are and only pushes its notice again. *)
Theorem C9_markCollected now machine st :
  let r := markCollected now machine st in
  (∀ i m, machines st !! i = Some m → m_id m = m_id machine →
     ∃ m', machines (final r) !! i = Some m' ∧
           m_status m' = FREE ∧ m_eta m' = None ∧ m_lastCompletedAt m' = None) ∧
  (∀ i w, washes st !! i = Some w → w_machineId w = m_id machine →
     w_status w = W_RUNNING ∨ w_status w = W_AWAITING →
     ∃ w', washes (final r) !! i = Some w' ∧
           w_status w' = W_COLLECTED ∧ w_endAt w' = Some now) ∧
  (∀ now' machine', m_id machine' = m_id machine →
     let r2 := markCollected now' machine' (final r) in
     machines (final r2) = machines (final r) ∧
     washes (final r2) = washes (final r) ∧
     emitted r2 =
       [Notified ("Thank you! " +:+ m_label machine' +:+ " is free now.") success]).
Proof.
  intros r. subst r. rewrite run_markCollected. split_and!.
  - intros i m Hi Hid. exists (withCollected m). split; [|done].
    rewrite run_pushNotice. cbn. unfold mapMachine.
    rewrite list_lookup_fmap, Hi. cbn. by rewrite decide_True.
  - intros i w Hi Hid Hs. exists (withWashStatus W_COLLECTED now w). split; [|done].
    rewrite run_pushNotice. cbn. rewrite list_lookup_fmap, Hi. cbn.
    rewrite collectWash_spec, decide_True; [done|]. tauto.
  - intros now' machine' Hid r2. subst r2. rewrite run_markCollected.
    rewrite !run_pushNotice. cbn. rewrite Hid. split_and!; [..|done].
    + apply mapMachine_collected_idem.
    + rewrite map_map. apply map_ext. intros. apply collectWash_idem.
Qed.

Lemma C9_markCollected_witness :
  let st := laundry (washer AWAITING None) in
  let once := final (markCollected 9 (washer AWAITING None) st) in
  let twice := final (markCollected 10 (washer FREE None) once) in
  machines twice = machines once ∧ washes twice = washes once.
Proof.
  intros st once twice.
  destruct (proj2 (proj2 (C9_markCollected 9 (washer AWAITING None) st))
              10 (washer FREE None) eq_refl) as (Hm & Hw & _).
  split; assumption.
Defined.

(** ** The tick: FREE-count snapshots *)

Section snapshot.
Implicit Types (c : gmap string (gmap Z nat)) (m : Machine) (ms : list Machine).

Lemma freeAt_tally c m hostel floor :
  freeAt (tally c m) hostel floor = (freeAt c hostel floor + freeBump hostel floor m)%nat.
Proof.
  unfold freeAt, tally, freeBump, onFloor.
  destruct (decide (m_hostel m = hostel)) as [<-|Hh].
  - rewrite lookup_insert_eq. cbn.
    destruct (decide (m_floor m = floor)) as [<-|Hf].
    + rewrite lookup_insert_eq. cbn.
      destruct (c !! m_hostel m) as [byFloor|]; cbn;
        [destruct (byFloor !! m_floor m)|rewrite lookup_empty]; cbn;
        repeat case_decide; try lia; exfalso; intuition congruence.
    + rewrite lookup_insert_ne by done.
      rewrite decide_False by tauto.
      destruct (c !! m_hostel m); cbn; [|rewrite lookup_empty; cbn]; lia.
  - rewrite lookup_insert_ne by done.
    rewrite decide_False by tauto. lia.
Qed.

Lemma freeAt_foldl_tally ms c hostel floor :
  freeAt (foldl tally c ms) hostel floor =
  (freeAt c hostel floor + countFree hostel floor ms)%nat.
Proof.
  revert c. induction ms as [|m ms IH]; intros c; cbn [foldl].
  - unfold countFree. cbn. lia.
  - rewrite IH, freeAt_tally. unfold countFree, freeBump.
    rewrite filter_cons. case_decide; cbn [length]; lia.
Qed.

(** The snapshot read at a floor is the number of FREE machines there. *)
Lemma freeAt_freeCounts ms hostel floor :
  freeAt (freeCounts ms) hostel floor = countFree hostel floor ms.
Proof.
  unfold freeCounts. rewrite freeAt_foldl_tally. reflexivity.
Qed.

Lemma afterCountdown_place now m :
  m_hostel (afterCountdown now m) = m_hostel m ∧
  m_floor (afterCountdown now m) = m_floor m.
Proof.
  unfold afterCountdown.
  destruct (m_status m), (m_eta m) as [e|]; try done.
  destruct (e - 1 <=? 0); done.
Qed.

Lemma afterCountdown_free now m :
  m_status (afterCountdown now m) = FREE ↔ m_status m = FREE.
Proof.
  unfold afterCountdown.
  destruct (m_status m) eqn:Hs, (m_eta m) as [e|]; rewrite ?Hs; try done.
  destruct (e - 1 <=? 0); cbn; rewrite ?Hs; split; discriminate.
Qed.

Lemma tally_afterCountdown now c m :
  tally c (afterCountdown now m) = tally c m.
Proof.
  unfold tally.
  destruct (afterCountdown_place now m) as [-> ->].
  pose proof (afterCountdown_free now m) as Hfree.
  repeat case_decide; try reflexivity; exfalso; tauto.
Qed.

Lemma freeCounts_afterCountdown now ms :
  freeCounts (map (afterCountdown now) ms) = freeCounts ms.
Proof.
  unfold freeCounts. generalize (∅ : gmap string (gmap Z nat)).
  induction ms as [|m ms IH]; intros c; cbn [map foldl]; [done|].
  by rewrite tally_afterCountdown, IH.
Qed.

Lemma becameFree_same c hostel floor : becameFree c c hostel floor = false.
Proof.
  unfold becameFree. destruct (freeAt c hostel floor); reflexivity.
Qed.
End snapshot.

Lemma forEach_noop {A} (f : A → Op unit) xs st :
  (∀ x, f x st = mkRun tt st []) → forEach f xs st = mkRun tt st [].
Proof.
  intros Hf. induction xs as [|x xs IH]; [reflexivity|].
  cbn [forEach]. rewrite run_bind, Hf. cbn. by rewrite IH.
Qed.

Lemma run_watchFloor now before after hostel floor st :
  watchFloor now before after hostel floor st =
  if flagOf st hostel floor && becameFree before after hostel floor then
    mkRun tt
      (clearFlag hostel floor
         (final (pushNotice now ("A machine is now free on Floor " +:+ pretty floor +:+ ".")
                            success st)))
      [freeNotice floor]
  else mkRun tt st [].
Proof.
  unfold watchFloor. rewrite run_bind. cbn [get value final emitted].
  destruct (flagOf st hostel floor), (becameFree before after hostel floor); reflexivity.
Qed.

Lemma watchFreeCheck_quiet now before after st :
  (∀ hostel floor, becameFree before after hostel floor = false) →
  watchFreeCheck now before after st = mkRun tt st [].
Proof.
  intros Hquiet. unfold watchFreeCheck. rewrite run_bind. cbn [get value final emitted].
  rewrite forEach_noop; [reflexivity|].
  intros hostel. unfold watchHostel. rewrite run_bind. cbn [get value final emitted].
  rewrite forEach_noop; [reflexivity|].
  intros floor. rewrite run_watchFloor, Hquiet. by rewrite andb_false_r.
Qed.

Lemma run_tick now st :
  tick now st = mkRun tt (final (countdown now st)) (emitted (countdown now st)).
Proof.
  unfold tick. rewrite run_bind. cbn [get value final emitted].
  rewrite run_bind, run_bind. cbn [get value final emitted].
  rewrite countdown_machines, freeCounts_afterCountdown.
  rewrite watchFreeCheck_quiet by apply becameFree_same.
  cbn. by rewrite app_nil_r.
Qed.

(** C10. The countdown never makes a machine FREE and never moves one, so
    the FREE count of every floor is the same before and after it; the
    watch-free check of that tick then finds nothing to report: the flags
    are as they were and every event of the tick comes from the countdown. *)
Theorem C10_watch_branch_unreachable now st :
  (∀ m, (m_status (afterCountdown now m) = FREE ↔ m_status m = FREE) ∧
        (m_status m ≠ RUNNING → afterCountdown now m = m) ∧
        (m_status m = RUNNING →
           m_status (afterCountdown now m) = RUNNING ∨
           m_status (afterCountdown now m) = AWAITING)) ∧
  (∀ hostel floor,
     countFree hostel floor (machines (final (countdown now st))) =
     countFree hostel floor (machines st)) ∧
  freeCounts (machines (final (countdown now st))) = freeCounts (machines st) ∧
  watchFree (final (tick now st)) = watchFree st ∧
  (∀ hostel floor, flagOf (final (tick now st)) hostel floor = flagOf st hostel floor) ∧
  emitted (tick now st) = emitted (countdown now st).
Proof.
  split_and!.
  - intros m. split_and!.
    + apply afterCountdown_free.
    + intros Hs. unfold afterCountdown. by destruct (m_status m).
    + intros Hs. unfold afterCountdown. rewrite Hs.
      destruct (m_eta m) as [e|]; [|by left].
      destruct (e - 1 <=? 0); cbn; auto.
  - intros hostel floor. rewrite <- !freeAt_freeCounts.
    by rewrite countdown_machines, freeCounts_afterCountdown.
  - by rewrite countdown_machines, freeCounts_afterCountdown.
  - rewrite run_tick. cbn. apply watchFree_countdown.
  - intros. unfold flagOf. rewrite run_tick. cbn. by rewrite watchFree_countdown.
  - by rewrite run_tick.
Qed.

Lemma C10_watch_branch_unreachable_witness :
  let st := laundry (washer RUNNING (Some 1)) in
  flagOf st "LVH" 3 = true ∧
  m_status <$> machines (final (tick 60000 st)) = [AWAITING] ∧
  flagOf (final (tick 60000 st)) "LVH" 3 = true ∧
  emitted (tick 60000 st) = [Notified "M-3A finished. Please collect clothes." success].
Proof.
  intros st.
  destruct (C10_watch_branch_unreachable 60000 st) as (_ & _ & _ & _ & Hflag & Hev).
  split_and!.
  - reflexivity.
  - reflexivity.
  - rewrite Hflag. reflexivity.
  - rewrite Hev. reflexivity.
Defined.

(** ** The tick: the watch-free check *)

Section watch.
Variables (now : Z) (before after : gmap string (gmap Z nat)).
Implicit Types (st : State) (h : string) (f : Z).

Local Abbreviation fire := (fires before after).

Lemma flagOf_clearFlag hostel floor st h f :
  flagOf (clearFlag hostel floor st) h f =
  if decide (h = hostel ∧ f = floor) then false else flagOf st h f.
Proof.
  unfold flagOf, clearFlag. cbn [watchFree setWatchFree].
  destruct (decide (h = hostel)) as [->|Hh].
  - rewrite lookup_insert_eq. cbn.
    destruct (decide (f = floor)) as [->|Hf].
    + rewrite lookup_insert_eq, decide_True by done. reflexivity.
    + rewrite lookup_insert_ne by done. rewrite decide_False by tauto.
      destruct (watchFree st !! hostel); cbn; [done|]. by rewrite lookup_empty.
  - rewrite lookup_insert_ne by done. rewrite decide_False by tauto. reflexivity.
Qed.

Lemma watchFree_clearFlag_ne hostel floor st h :
  h ≠ hostel → watchFree (clearFlag hostel floor st) !! h = watchFree st !! h.
Proof. intros Hh. unfold clearFlag. cbn. by rewrite lookup_insert_ne. Qed.

(** One visit of the inner loop. *)
Lemma watchFloor_step hostel floor st :
  let r := watchFloor now before after hostel floor st in
  emitted r = (if fire st hostel floor then [freeNotice floor] else []) ∧
  (∀ h f, flagOf (final r) h f =
          if decide (h = hostel ∧ f = floor)
          then flagOf st h f && negb (becameFree before after h f)
          else flagOf st h f) ∧
  (∀ h, h ≠ hostel → watchFree (final r) !! h = watchFree st !! h).
Proof.
  cbn zeta. rewrite run_watchFloor. change (flagOf st hostel floor && becameFree before after hostel floor) with (fire st hostel floor).
  destruct (fire st hostel floor) eqn:Hfire; cbn [emitted final].
  - apply andb_true_iff in Hfire as [Hflag Hfree]. split_and!; [done|..].
    + intros h f. rewrite flagOf_clearFlag.
      case_decide as Hhf; [|by rewrite run_pushNotice].
      destruct Hhf as [-> ->]. by rewrite Hflag, Hfree.
    + intros h Hh. rewrite watchFree_clearFlag_ne by done. by rewrite run_pushNotice.
  - split_and!; [done| |done].
    intros h f. case_decide as Hhf; [|done]. destruct Hhf as [-> ->].
    apply andb_false_iff in Hfire as [Hflag|Hfree].
    + by rewrite Hflag.
    + by rewrite Hfree, andb_true_r.
Qed.

(** The inner loop over the floors of one hostel. *)
Lemma watchFloors_spec hostel fs st :
  NoDup fs →
  let r := forEach (watchFloor now before after hostel) fs st in
  emitted r = (f ← fs; if fire st hostel f then [freeNotice f] else []) ∧
  (∀ h f, flagOf (final r) h f =
          if decide (h = hostel ∧ f ∈ fs)
          then flagOf st h f && negb (becameFree before after h f)
          else flagOf st h f) ∧
  (∀ h, h ≠ hostel → watchFree (final r) !! h = watchFree st !! h).
Proof.
  intros Hnd. revert st. induction Hnd as [|floor fs Hnotin Hnd IH]; intros st.
  - cbn. split_and!; [done| |done]. intros h f.
    rewrite decide_False; [done|]. intros [_ Hin]. by apply elem_of_nil in Hin.
  - cbn zeta. cbn [forEach]. rewrite run_bind. cbn [value final emitted].
    destruct (watchFloor_step hostel floor st) as (He1 & Hf1 & Hw1).
    destruct (IH (final (watchFloor now before after hostel floor st)))
      as (He2 & Hf2 & Hw2).
    split_and!.
    + rewrite He1, He2, bind_cons. f_equal.
      apply Forall_bind_ext, Forall_forall. intros f Hf.
      unfold fires. rewrite Hf1, decide_False; [done|].
      intros [_ ->]. contradiction.
    + intros h f. rewrite Hf2, !Hf1.
      repeat case_decide; try reflexivity; exfalso; set_solver.
    + intros h Hh. by rewrite Hw2, Hw1.
Qed.

Lemma run_watchHostel hostel st :
  watchHostel now before after hostel st =
  forEach (watchFloor now before after hostel)
          (keys (default ∅ (watchFree st !! hostel))) st.
Proof. unfold watchHostel. rewrite run_bind. cbn. by destruct (forEach _ _ st). Qed.

(** The outer loop over hostels. *)
Lemma watchHostels_spec hs st :
  NoDup hs →
  let r := forEach (watchHostel now before after) hs st in
  emitted r =
    (h ← hs; f ← keys (default ∅ (watchFree st !! h));
     if fire st h f then [freeNotice f] else []) ∧
  (∀ h f, flagOf (final r) h f =
          if decide (h ∈ hs ∧ f ∈ keys (default ∅ (watchFree st !! h)))
          then flagOf st h f && negb (becameFree before after h f)
          else flagOf st h f) ∧
  (∀ h, h ∉ hs → watchFree (final r) !! h = watchFree st !! h).
Proof.
  intros Hnd. revert st. induction Hnd as [|hostel hs Hnotin Hnd IH]; intros st.
  - cbn. split_and!; [done| |done]. intros h f.
    rewrite decide_False; [done|]. intros [Hin _]. by apply elem_of_nil in Hin.
  - cbn zeta. cbn [forEach]. rewrite run_bind. cbn [value final emitted].
    rewrite run_watchHostel.
    destruct (watchFloors_spec hostel (keys (default ∅ (watchFree st !! hostel))) st)
      as (He1 & Hf1 & Hw1); [apply NoDup_fst_map_to_list|].
    set (st1 := final (forEach (watchFloor now before after hostel)
                         (keys (default ∅ (watchFree st !! hostel))) st)) in *.
    destruct (IH st1) as (He2 & Hf2 & Hw2).
    split_and!.
    + rewrite He1, He2, bind_cons. f_equal.
      apply Forall_bind_ext, Forall_forall. intros h Hh.
      assert (h ≠ hostel) as Hne by (intros ->; contradiction).
      rewrite Hw1 by done.
      apply Forall_bind_ext, Forall_forall. intros f Hf.
      unfold fires. rewrite Hf1, decide_False; [done|]. tauto.
    + intros h f. rewrite Hf2, !Hf1.
      destruct (decide (h = hostel)) as [->|Hne].
      * repeat case_decide; try reflexivity; exfalso; set_solver.
      * rewrite Hw1 by done.
        repeat case_decide; try reflexivity; exfalso; set_solver.
    + intros h Hh. apply not_elem_of_cons in Hh as [Hne Hh].
      by rewrite Hw2, Hw1.
Qed.

Lemma flagged_is_key st h f :
  flagOf st h f = true →
  h ∈ keys (watchFree st) ∧ f ∈ keys (default ∅ (watchFree st !! h)).
Proof.
  unfold flagOf, keys. intros Hflag.
  destruct (watchFree st !! h) as [byFloor|] eqn:Hh; [|done]. cbn in Hflag.
  destruct (byFloor !! f) as [b|] eqn:Hf; [|done]. cbn in Hflag. subst b. split.
  - apply list_elem_of_fmap. exists (h, byFloor). split; [done|].
    by apply elem_of_map_to_list.
  - apply list_elem_of_fmap. exists (f, true). split; [done|].
    by apply elem_of_map_to_list.
Qed.

Lemma run_watchFreeCheck st :
  watchFreeCheck now before after st =
  forEach (watchHostel now before after) (keys (watchFree st)) st.
Proof. unfold watchFreeCheck. rewrite run_bind. cbn. by destruct (forEach _ _ st). Qed.

Lemma fmap_bind_list {A B C} (g : B → C) (k : A → list B) (l : list A) :
  g <$> (l ≫= k) = l ≫= (λ x, g <$> k x).
Proof.
  induction l as [|x l IH]; [done|].
  by rewrite !bind_cons, fmap_app, IH.
Qed.

Lemma emitted_watchFreeCheck st :
  emitted (watchFreeCheck now before after st) =
  (λ p, freeNotice p.2) <$> firedPairs before after st.
Proof.
  rewrite run_watchFreeCheck.
  destruct (watchHostels_spec (keys (watchFree st)) st) as (He & _);
    [apply NoDup_fst_map_to_list|].
  rewrite He. unfold firedPairs. rewrite fmap_bind_list.
  apply list_bind_ext; [|done]. intros h. rewrite fmap_bind_list.
  apply list_bind_ext; [|done]. intros f. by destruct (fire st h f).
Qed.

Lemma flagOf_watchFreeCheck st h f :
  flagOf (final (watchFreeCheck now before after st)) h f =
  flagOf st h f && negb (becameFree before after h f).
Proof.
  rewrite run_watchFreeCheck.
  destruct (watchHostels_spec (keys (watchFree st)) st) as (_ & Hf & _);
    [apply NoDup_fst_map_to_list|].
  rewrite Hf. case_decide as Hkey; [done|].
  destruct (flagOf st h f) eqn:Hflag; [|done].
  exfalso. by apply Hkey, flagged_is_key.
Qed.

Lemma elem_of_firedPairs st h f :
  (h, f) ∈ firedPairs before after st ↔
  flagOf st h f = true ∧ becameFree before after h f = true.
Proof.
  unfold firedPairs. rewrite list_elem_of_bind. split.
  - intros (h' & Hin & _). apply list_elem_of_bind in Hin as (f' & Hin & _).
    destruct (fire st h' f') eqn:Hfire; [|by apply elem_of_nil in Hin].
    apply list_elem_of_singleton in Hin. injection Hin as -> ->.
    by apply andb_true_iff in Hfire.
  - intros [Hflag Hfree]. destruct (flagged_is_key st h f Hflag) as [Hh Hf].
    exists h. split; [|done]. apply list_elem_of_bind. exists f. split; [|done].
    unfold fires. rewrite Hflag, Hfree. apply list_elem_of_here.
Qed.

Lemma NoDup_firedPairs st : NoDup (firedPairs before after st).
Proof.
  unfold firedPairs. apply NoDup_bind; [| |apply NoDup_fst_map_to_list].
  - intros h1 h2 [h f] _ _ Hin1 Hin2.
    apply list_elem_of_bind in Hin1 as (f1 & Hin1 & _).
    apply list_elem_of_bind in Hin2 as (f2 & Hin2 & _).
    destruct (fire st h1 f1); [|by apply elem_of_nil in Hin1].
    destruct (fire st h2 f2); [|by apply elem_of_nil in Hin2].
    apply list_elem_of_singleton in Hin1, Hin2. congruence.
  - intros h _. apply NoDup_bind; [| |apply NoDup_fst_map_to_list].
    + intros f1 f2 [h' f] _ _ Hin1 Hin2.
      destruct (fire st h f1); [|by apply elem_of_nil in Hin1].
      destruct (fire st h f2); [|by apply elem_of_nil in Hin2].
      apply list_elem_of_singleton in Hin1, Hin2. congruence.
    + intros f _. destruct (fire st h f); [apply NoDup_singleton|apply NoDup_nil_2].
Qed.
End watch.

Lemma becameFree_freeCounts msBefore msAfter hostel floor :
  becameFree (freeCounts msBefore) (freeCounts msAfter) hostel floor = true ↔
  countFree hostel floor msBefore = 0%nat ∧ (0 < countFree hostel floor msAfter)%nat.
Proof.
  unfold becameFree. rewrite !freeAt_freeCounts.
  by rewrite andb_true_iff, Nat.eqb_eq, Nat.ltb_lt.
Qed.

(** C8. The watch-free check, run on the FREE-count snapshots of a machine
    list before and after.  For a pair whose flag is set: if the count was 0
    before and is positive after, the success notice for that floor is
    pushed and the flag becomes false; if the count is still 0 after, or was
    already positive before, the flag stays true.  A flag that is not set
    stays so.  The notices pushed are exactly one per pair that fired.  A
    tick runs this check on the snapshots taken around its countdown. *)
Theorem C8_watch_free_check now msBefore msAfter st :
  let r := watchFreeCheck now (freeCounts msBefore) (freeCounts msAfter) st in
  (∀ hostel floor,
     flagOf st hostel floor = true →
     countFree hostel floor msBefore = 0%nat →
     (0 < countFree hostel floor msAfter)%nat →
     freeNotice floor ∈ emitted r ∧ flagOf (final r) hostel floor = false) ∧
  (∀ hostel floor,
     flagOf st hostel floor = true →
     countFree hostel floor msAfter = 0%nat ∨ (0 < countFree hostel floor msBefore)%nat →
     flagOf (final r) hostel floor = true) ∧
  (∀ hostel floor,
     flagOf st hostel floor = false → flagOf (final r) hostel floor = false) ∧
  (∃ fired : list (string * Z),
     NoDup fired ∧
     (∀ hostel floor,
        (hostel, floor) ∈ fired ↔
        flagOf st hostel floor = true ∧
        countFree hostel floor msBefore = 0%nat ∧
        (0 < countFree hostel floor msAfter)%nat) ∧
     emitted r = (λ p, freeNotice p.2) <$> fired) ∧
  (∀ st0,
     let st1 := final (countdown now st0) in
     let check := watchFreeCheck now (freeCounts (machines st0))
                                 (freeCounts (machines st1)) st1 in
     tick now st0 =
     mkRun tt (final check) (emitted (countdown now st0) ++ emitted check)).
Proof.
  intros r. subst r. split_and!; [..|intros st0 st1 check; subst st1 check; unfold tick;
    rewrite run_bind; cbn [get value final emitted];
    rewrite run_bind, run_bind; cbn [get value final emitted];
    f_equal; by destruct (value _)].
  - intros hostel floor Hflag Hzero Hpos.
    assert (becameFree (freeCounts msBefore) (freeCounts msAfter) hostel floor = true)
      as Hfree by by apply becameFree_freeCounts.
    split.
    + rewrite emitted_watchFreeCheck. apply list_elem_of_fmap.
      exists (hostel, floor). split; [done|]. by apply elem_of_firedPairs.
    + by rewrite flagOf_watchFreeCheck, Hflag, Hfree.
  - intros hostel floor Hflag Hstay.
    rewrite flagOf_watchFreeCheck, Hflag. cbn.
    apply negb_true_iff, not_true_iff_false.
    rewrite becameFree_freeCounts. lia.
  - intros hostel floor Hflag. by rewrite flagOf_watchFreeCheck, Hflag.
  - exists (firedPairs (freeCounts msBefore) (freeCounts msAfter) st). split_and!.
    + apply NoDup_firedPairs.
    + intros hostel floor. by rewrite elem_of_firedPairs, becameFree_freeCounts.
    + apply emitted_watchFreeCheck.
Qed.

Lemma C8_watch_free_check_witness :
  let busy := washer RUNNING (Some 5) in
  let free := washer FREE None in
  let r := watchFreeCheck 60000 (freeCounts [busy]) (freeCounts [free]) (laundry busy) in
  (flagOf (laundry busy) "LVH" 3 = true ∧
   countFree "LVH" 3 [busy] = 0%nat ∧ (0 < countFree "LVH" 3 [free])%nat) ∧
  freeNotice 3 ∈ emitted r ∧ flagOf (final r) "LVH" 3 = false.
Proof.
  intros busy free r.
  assert (flagOf (laundry busy) "LVH" 3 = true) as Hflag by reflexivity.
  assert (countFree "LVH" 3 [busy] = 0%nat) as Hzero by reflexivity.
  assert (0 < countFree "LVH" 3 [free])%nat as Hpos by (vm_compute; lia).
  split; [done|].
  exact (proj1 (C8_watch_free_check 60000 [busy] [free] (laundry busy))
               "LVH" 3 Hflag Hzero Hpos).
Defined.

(** ** Booking ledger: extend, modify, submit *)

Section ledger.
Implicit Types (b : Booking) (st : State).

Lemma findBooking_Some id st idx b :
  findBooking id st = Some (idx, b) →
  bookings st !! idx = Some b ∧ b_id b = id.
Proof.
  unfold findBooking. intros H. apply list_find_Some in H. tauto.
Qed.

Lemma run_extendBooking now id newEndAt st idx b :
  findBooking id st = Some (idx, b) → b_status b = APPROVED →
  extendBooking now id newEndAt st =
  if DAY_MS <? newEndAt - b_startAt b then
    mkRun tt st [Alerted "Extension exceeds 24 hours from start time."]
  else if checkConflict st (b_roomId b) (b_startAt b) newEndAt then
    mkRun tt st [Alerted "Requested extension overlaps with another booking."]
  else
    mkRun tt
      (final (pushNotice now ("Extension requested for " +:+ b_roomLabel b +:+ ".") info
                (replaceBooking idx (withExtension newEndAt now b) st)))
      [Notified ("Extension requested for " +:+ b_roomLabel b +:+ ".") info;
       ApprovalScheduled (b_id b)].
Proof.
  intros Hfind Hs. unfold extendBooking. rewrite run_bind. cbn [get value final emitted].
  rewrite Hfind, (bool_decide_eq_true_2 _ Hs).
  destruct (DAY_MS <? _); [reflexivity|].
  destruct (checkConflict _ _ _ _); reflexivity.
Qed.

Lemma run_extendBooking_ineligible now id newEndAt st :
  (∀ idx b, findBooking id st = Some (idx, b) → b_status b ≠ APPROVED) →
  extendBooking now id newEndAt st = mkRun tt st [].
Proof.
  intros Hno. unfold extendBooking. rewrite run_bind. cbn [get value final emitted].
  destruct (findBooking id st) as [[idx b]|] eqn:Hfind; [|reflexivity].
  by rewrite (bool_decide_eq_false_2 _ (Hno idx b eq_refl)).
Qed.

Lemma run_modifyBooking now id newStartAt newEndAt newReason st idx b :
  findBooking id st = Some (idx, b) →
  b_status b = PENDING ∨ b_status b = APPROVED →
  modifyBooking now id newStartAt newEndAt newReason st =
  if newEndAt - newStartAt <=? 0 then
    mkRun tt st [Alerted "End time must be after start time."]
  else if DAY_MS <? newEndAt - newStartAt then
    mkRun tt st [Alerted "Bookings cannot exceed 24 hours."]
  else if checkConflict st (b_roomId b) newStartAt newEndAt then
    mkRun tt st [Alerted "Requested times overlap with another booking."]
  else
    mkRun tt
      (final (pushNotice now ("Booking modified for " +:+ b_roomLabel b +:+ ".") info
                (replaceBooking idx (withNewTimes newStartAt newEndAt newReason now b) st)))
      [Notified ("Booking modified for " +:+ b_roomLabel b +:+ ".") info;
       ApprovalScheduled (b_id b)].
Proof.
  intros Hfind Hs. unfold modifyBooking. rewrite run_bind. cbn [get value final emitted].
  rewrite Hfind.
  replace (bool_decide (b_status b = PENDING) || bool_decide (b_status b = APPROVED))
    with true by (destruct Hs as [Hs|Hs]; rewrite Hs; reflexivity).
  destruct (_ <=? 0); [reflexivity|].
  destruct (DAY_MS <? _); [reflexivity|].
  destruct (checkConflict _ _ _ _); reflexivity.
Qed.

Lemma run_submitBooking now room startAt endAt reason st :
  submitBooking now room startAt endAt reason st =
  mkRun tt
    (final (pushNotice now ("Request submitted for " +:+ room_label room +:+ ".") info
       (setBookings
          (mkBooking ("b-" +:+ pretty now) (room_id room) (room_label room)
                     (room_hasAC room) startAt endAt reason PENDING now now
           :: bookings st) st)))
    [Notified ("Request submitted for " +:+ room_label room +:+ ".") info;
     ApprovalScheduled ("b-" +:+ pretty now)].
Proof. reflexivity. Qed.

(** A stored booking that is still active overlaps every range that
    starts where it starts and ends after that. *)
Lemma self_conflict st idx b newEndAt :
  bookings st !! idx = Some b →
  b_status b ≠ CANCELLED → b_status b ≠ REJECTED →
  b_startAt b < b_endAt b → b_startAt b < newEndAt →
  checkConflict st (b_roomId b) (b_startAt b) newEndAt = true.
Proof.
  intros Hidx Hc Hr Hlen Hnew. apply checkConflict_true. exists b. split.
  - by eapply list_elem_of_lookup_2.
  - apply conflictsWith_true. repeat split; try done; lia.
Qed.

(** What [extendBooking] does to an APPROVED booking of positive length:
    the scan meets the booking itself, so no later end time is accepted. *)
Lemma extendBooking_never_extends now id newEndAt st idx b :
  findBooking id st = Some (idx, b) → b_status b = APPROVED →
  b_startAt b < b_endAt b → b_startAt b < newEndAt →
  final (extendBooking now id newEndAt st) = st ∧
  ∃ msg, emitted (extendBooking now id newEndAt st) = [Alerted msg].
Proof.
  intros Hfind Hs Hlen Hnew.
  destruct (findBooking_Some _ _ _ _ Hfind) as [Hidx _].
  rewrite (run_extendBooking _ _ _ _ idx b) by done.
  destruct (DAY_MS <? _); [by eauto|].
  rewrite (self_conflict st idx b) by (done || congruence). by eauto.
Qed.

(** When [extendBooking] refuses an APPROVED booking: the range is too long,
    or some stored active booking of the room, the booking itself not
    excepted, overlaps it. *)
Lemma extendBooking_refuses_iff now id newEndAt st idx b :
  findBooking id st = Some (idx, b) → b_status b = APPROVED →
  (∃ msg, emitted (extendBooking now id newEndAt st) = [Alerted msg]) ↔
  newEndAt - b_startAt b > DAY_MS ∨
  ∃ b', b' ∈ bookings st ∧ b_roomId b' = b_roomId b ∧
        b_status b' ≠ CANCELLED ∧ b_status b' ≠ REJECTED ∧
        b_startAt b < b_endAt b' ∧ newEndAt > b_startAt b'.
Proof.
  intros Hfind Hs. rewrite (run_extendBooking _ _ _ _ idx b) by done.
  destruct (Z.ltb_spec DAY_MS (newEndAt - b_startAt b)) as [Hlong|Hshort].
  - split; [intros _; left; lia|by eauto].
  - destruct (checkConflict st (b_roomId b) (b_startAt b) newEndAt) eqn:Hc.
    + split; [intros _; right|by eauto].
      apply checkConflict_true in Hc as (b' & Hin & Hc).
      apply conflictsWith_true in Hc. by exists b'.
    + split; [by intros [msg [=]]|]. intros [Hlong|(b' & Hin & Hb')]; [lia|].
      apply not_true_iff_false in Hc. destruct Hc.
      apply checkConflict_true. exists b'. split; [done|].
      by apply conflictsWith_true.
Qed.
End ledger.

(** C2, at a concrete ledger.  The only booking is APPROVED for 10:00 to
    11:00; asking to extend it to 12:00 (two hours in all, no other booking
    in the room) is refused with the overlap alert and the ledger is left
    as it was: the conflict scan counts the booking against itself. *)
Theorem C2_extend_conflicts_with_itself :
  findBooking "b-1" approvedOnly =
    Some (0%nat, mkBooking "b-1" "CR-1" "Common Room 1" true (10 * hour) (11 * hour)
                           "study" APPROVED 0 0) ∧
  12 * hour - 10 * hour ≤ DAY_MS ∧
  (∀ b, b ∈ bookings approvedOnly → b_id b = "b-1") ∧
  extendBooking 500 "b-1" (12 * hour) approvedOnly =
    mkRun tt approvedOnly [Alerted "Requested extension overlaps with another booking."].
Proof.
  split_and!.
  - reflexivity.
  - vm_compute. discriminate.
  - intros b Hb. apply list_elem_of_singleton in Hb. by subst b.
  - reflexivity.
Qed.

(** C3 as stated fails for [submitBooking]: a 48-hour request is stored and
    no alert is raised. *)
Lemma C3_submitBooking_stores_48h :
  let r := submitBooking 500 room1 0 (2 * DAY_MS) "party" approvedOnly in
  2 * DAY_MS - 0 > DAY_MS ∧
  bookings (final r) ≠ bookings approvedOnly ∧
  length (bookings (final r)) = 2%nat ∧
  ∀ msg, Alerted msg ∉ emitted r.
Proof.
  cbn zeta. rewrite run_submitBooking. split_and!.
  - reflexivity.
  - intros H. apply (f_equal length) in H. vm_compute in H. discriminate.
  - reflexivity.
  - intros msg Hin. cbn in Hin.
    apply elem_of_cons in Hin as [Hin|Hin]; [discriminate|].
    apply list_elem_of_singleton in Hin. discriminate.
Qed.

(** C3, amended.  [extendBooking] (on an APPROVED booking) and
    [modifyBooking] (on a PENDING or APPROVED one) refuse a range longer
    than 24 hours: the state is untouched and their duration alert is
    shown.  At exactly 24 hours the duration test passes, and the request
    goes through whenever [checkConflict] reports no overlap.
    [submitBooking] checks nothing itself (its caller does): it stores the
    request as PENDING whatever the range. *)
Theorem C3_duration_limit now st :
  (∀ id newEndAt idx b,
     findBooking id st = Some (idx, b) → b_status b = APPROVED →
     (newEndAt - b_startAt b > DAY_MS →
        extendBooking now id newEndAt st =
        mkRun tt st [Alerted "Extension exceeds 24 hours from start time."]) ∧
     (newEndAt - b_startAt b = DAY_MS →
        checkConflict st (b_roomId b) (b_startAt b) newEndAt = false →
        bookings (final (extendBooking now id newEndAt st)) =
          <[idx := withExtension newEndAt now b]> (bookings st) ∧
        emitted (extendBooking now id newEndAt st) =
          [Notified ("Extension requested for " +:+ b_roomLabel b +:+ ".") info;
           ApprovalScheduled (b_id b)])) ∧
  (∀ id newStartAt newEndAt newReason idx b,
     findBooking id st = Some (idx, b) →
     b_status b = PENDING ∨ b_status b = APPROVED →
     (newEndAt - newStartAt > DAY_MS →
        modifyBooking now id newStartAt newEndAt newReason st =
        mkRun tt st [Alerted "Bookings cannot exceed 24 hours."]) ∧
     (newEndAt - newStartAt = DAY_MS →
        checkConflict st (b_roomId b) newStartAt newEndAt = false →
        bookings (final (modifyBooking now id newStartAt newEndAt newReason st)) =
          <[idx := withNewTimes newStartAt newEndAt newReason now b]> (bookings st) ∧
        emitted (modifyBooking now id newStartAt newEndAt newReason st) =
          [Notified ("Booking modified for " +:+ b_roomLabel b +:+ ".") info;
           ApprovalScheduled (b_id b)])) ∧
  (∀ room startAt endAt reason,
     bookings (final (submitBooking now room startAt endAt reason st)) =
       mkBooking ("b-" +:+ pretty now) (room_id room) (room_label room) (room_hasAC room)
                 startAt endAt reason PENDING now now :: bookings st ∧
     emitted (submitBooking now room startAt endAt reason st) =
       [Notified ("Request submitted for " +:+ room_label room +:+ ".") info;
        ApprovalScheduled ("b-" +:+ pretty now)]).
Proof.
  split_and!.
  - intros id newEndAt idx b Hfind Hs.
    rewrite (run_extendBooking _ _ _ _ idx b) by done. split.
    + intros Hlong. destruct (Z.ltb_spec DAY_MS (newEndAt - b_startAt b)); [done|lia].
    + intros Hday Hfree. rewrite Hday, Hfree. cbn. by rewrite run_pushNotice.
  - intros id newStartAt newEndAt newReason idx b Hfind Hs.
    rewrite (run_modifyBooking _ _ _ _ _ _ idx b) by done. split.
    + intros Hlong.
      destruct (Z.leb_spec (newEndAt - newStartAt) 0); [unfold DAY_MS in Hlong; lia|].
      destruct (Z.ltb_spec DAY_MS (newEndAt - newStartAt)); [done|lia].
    + intros Hday Hfree. rewrite Hday, Hfree. cbn. by rewrite run_pushNotice.
  - intros. rewrite run_submitBooking, run_pushNotice. done.
Qed.

Lemma C3_duration_limit_witness :
  (* an extension to 25 hours is refused *)
  extendBooking 500 "b-1" (35 * hour) approvedOnly =
    mkRun tt approvedOnly [Alerted "Extension exceeds 24 hours from start time."] ∧
  (* a move to a free 24-hour range is accepted *)
  bookings (final (modifyBooking 500 "b-1" (24 * hour) (48 * hour) None approvedOnly)) =
    [mkBooking "b-1" "CR-1" "Common Room 1" true (24 * hour) (48 * hour)
               "study" PENDING 0 500] ∧
  (* a zero-length booking can be stretched to exactly 24 hours *)
  bookings (final (extendBooking 500 "b-1" (34 * hour) zeroLength)) =
    [mkBooking "b-1" "CR-1" "Common Room 1" true (10 * hour) (34 * hour)
               "setup" PENDING 1 500].
Proof.
  split_and!.
  - refine (proj1 (proj1 (C3_duration_limit 500 approvedOnly)
                     "b-1" (35 * hour) 0%nat _ eq_refl eq_refl) _).
    reflexivity.
  - refine (proj1 (proj2 (proj1 (proj2 (C3_duration_limit 500 approvedOnly))
                     "b-1" (24 * hour) (48 * hour) None 0%nat _ eq_refl (or_intror eq_refl))
                     _ _)); reflexivity.
  - refine (proj1 (proj2 (proj1 (C3_duration_limit 500 zeroLength)
                     "b-1" (34 * hour) 0%nat _ eq_refl eq_refl) _ _)); reflexivity.
Defined.

(** ** The machine invariant *)

Section invariant.
Implicit Types (m : Machine) (st : State).

(** Close one direction or both of the invariant's equivalences on a
    record whose fields are known. *)
Ltac inv_iff :=
  split; intros;
  try match goal with H : is_Some None |- _ => by apply is_Some_None in H end;
  try discriminate; try done; eauto.

Lemma machineInv_afterCountdown now m :
  machineInv m → machineInv (afterCountdown now m).
Proof.
  unfold afterCountdown. intros Hinv.
  destruct (m_status m) eqn:Hs; try done.
  destruct (m_eta m) as [e|] eqn:He; [|done].
  destruct (e - 1 <=? 0).
  - split; cbn; inv_iff.
  - destruct Hinv as [_ Hdone]. split; cbn; [rewrite Hs; inv_iff|exact Hdone].
Qed.

Lemma machineInv_withCollected m : machineInv (withCollected m).
Proof. split; cbn; inv_iff. Qed.

Lemma machineInv_withNudgeCount n m : machineInv m → machineInv (withNudgeCount n m).
Proof. intros H. exact H. Qed.

Lemma machineInv_withFlagCount n m : machineInv m → machineInv (withFlagCount n m).
Proof. intros H. exact H. Qed.

Lemma machineInv_withCycleStarted minutes owner m :
  machineInv m → m_status m ≠ AWAITING → machineInv (withCycleStarted minutes owner m).
Proof.
  intros [_ Hdone] Hs. split; cbn; [inv_iff|].
  split; [discriminate|]. intros Hsome. by apply Hdone in Hsome.
Qed.

Lemma machineInv_withAbandoned now m :
  machineInv m → m_status m ≠ RUNNING → machineInv (withAbandoned now m).
Proof.
  intros [Heta _] Hs. split; cbn; [|inv_iff].
  split; [discriminate|]. intros Hsome. by apply Heta in Hsome.
Qed.

Lemma machineInv_withMaint m :
  machineInv m → m_status m ≠ AWAITING → machineInv (withMaint m).
Proof.
  intros [_ Hdone] Hs. split; cbn; [inv_iff|].
  split; [discriminate|]. intros Hsome. by apply Hdone in Hsome.
Qed.

Lemma Forall_mapMachine (f : Machine → Machine) id ms :
  Forall machineInv ms →
  (∀ m, m ∈ ms → m_id m = id → machineInv m → machineInv (f m)) →
  Forall machineInv (mapMachine id f ms).
Proof.
  intros Hall Hf. unfold mapMachine. apply Forall_fmap, Forall_forall.
  intros m Hm. rewrite Forall_forall in Hall. cbn. case_decide; auto.
Qed.

Lemma keeps_machines_nudgeMachine (P : list Machine → Prop) now m :
  keeps (λ st, P (machines st)) (nudgeMachine now m).
Proof.
  unfold nudgeMachine, sendReminderEmail. keeps_auto.
  all: apply (keeps_machines_pushNotice P).
Qed.

Lemma machines_nudgeMachine now m st :
  machines (final (nudgeMachine now m st)) = machines st.
Proof. by apply (keeps_machines_nudgeMachine (λ ms, ms = machines st)). Qed.

Lemma machines_flagMachine now m st :
  machines (final (flagMachine now m st)) = machines st.
Proof. rewrite run_flagMachine. by destruct (2 <=? _). Qed.

Lemma value_nudgeMachine now m st :
  value (nudgeMachine now m st) = withNudgeCount (default 0 (m_nudgeCount m) + 1) m.
Proof. reflexivity. Qed.

Lemma keeps_machines_ledger (P : list Machine → Prop) now a :
  match a with
  | ASubmitBooking _ _ _ _ | AApprovalFires _ | ACancelBooking _
  | AExtendBooking _ _ | AModifyBooking _ _ _ _ | ARequestWatch _ _
  | ANotice _ _ | AProfile _ _ _ | ANudge _ | AFlag _ => keeps (λ st, P (machines st)) (perform now a)
  | _ => True
  end.
Proof.
  destruct a; try exact I; cbn [perform];
    unfold submitBooking, approvalFires, cancelBooking, extendBooking, modifyBooking,
      requestWatch;
    try (apply keeps_bind; [|intros; apply keeps_ret]);
    try (intros st H; by first [rewrite machines_nudgeMachine|rewrite machines_flagMachine]);
    keeps_auto; by apply (keeps_machines_pushNotice P).
Qed.

(** Every action keeps the invariant of the registry, under the side
    condition [keepsInvariant]. *)
Lemma registryInv_perform now a st :
  registryInv st → keepsInvariant a st → registryInv (final (perform now a st)).
Proof.
  unfold registryInv. intros Hinv Hsafe.
  pose proof (keeps_machines_ledger (Forall machineInv) now a) as Hledger.
  destruct a as [machine minutes|machine|machine|i|machine|i
                |machineId reason notes photo affectStatus| |hostel floor
                |title kind|u title kind|room startAt endAt reason|bookingId|id
                |id newEndAt|id newStartAt newEndAt newReason];
    try exact (Hledger st Hinv); clear Hledger;
    cbn [perform keepsInvariant] in *.
  - (* startWash *)
    unfold startWash. rewrite !final_bind, run_pushNotice. cbn.
    apply Forall_mapMachine; [done|]. intros m Hm Hid Hm'.
    apply machineInv_withCycleStarted; auto.
  - (* markCollected *)
    rewrite run_markCollected, run_pushNotice. cbn.
    apply Forall_mapMachine; [done|]. intros. apply machineInv_withCollected.
  - (* nudge, stored object *)
    unfold onRegistered. rewrite final_bind. cbn [get value final].
    destruct (machines st !! i) as [m|] eqn:Hi; [|done].
    rewrite final_bind. cbn. rewrite machines_nudgeMachine.
    apply Forall_insert; [done|]. rewrite value_nudgeMachine.
    apply machineInv_withNudgeCount.
    eapply Forall_lookup_1; eauto.
  - (* flag, stored object *)
    unfold onRegistered. rewrite final_bind. cbn [get value final].
    destruct (machines st !! i) as [m|] eqn:Hi; [|done].
    rewrite final_bind. cbn. rewrite machines_flagMachine.
    apply Forall_insert; [done|].
    assert (machineInv m) as Hm by (eapply Forall_lookup_1; eauto).
    rewrite run_flagMachine. destruct (2 <=? _); cbn.
    + apply machineInv_withAbandoned; auto.
    + by apply machineInv_withFlagCount.
  - (* submitReport *)
    unfold submitReport. rewrite !final_bind, run_pushNotice. cbn.
    destruct affectStatus; cbn; [|done].
    apply Forall_mapMachine; [done|]. intros m Hm Hid Hm'.
    apply machineInv_withMaint; auto.
  - (* tick *)
    rewrite tick_machines. apply Forall_fmap, Forall_forall.
    intros m Hm. rewrite Forall_forall in Hinv. cbn.
    by apply machineInv_afterCountdown, Hinv.
Qed.
End invariant.

(** C1, at a concrete registry that satisfies the invariant.  A report with
    [affectStatus] on the machine awaiting pickup leaves it in MAINT with
    [lastCompletedAt] still set; a second flag on the running machine leaves
    it AWAITING with its eta still set.  Either way the registry no longer
    satisfies the invariant. *)
Theorem C1_invariant_broken :
  registryInv floor3 ∧
  machines (final (submitReport 2000 "LVH-3-1" "Not working" EmptyString None true floor3)) =
    [mkMachine "LVH-3-1" "M-3A" "LVH" 3 MAINT None (Some 1000) None None None; midCycle] ∧
  ¬ registryInv (final (submitReport 2000 "LVH-3-1" "Not working" EmptyString None true floor3)) ∧
  machines (final (onRegistered 1 (flagMachine 2000) floor3)) =
    [awaitingPickup;
     mkMachine "LVH-3-2" "M-3B" "LVH" 3 AWAITING (Some 20) (Some 2000) (Some 0) (Some 0) None] ∧
  ¬ registryInv (final (onRegistered 1 (flagMachine 2000) floor3)).
Proof.
  split_and!.
  - unfold registryInv. cbn. repeat constructor; cbn; try done;
      try (by intros [? [=]]); by eauto.
  - reflexivity.
  - unfold registryInv. intros H. apply Forall_cons in H as [[_ [_ H]] _].
    cbn in H. by specialize (H (mk_is_Some _ _ eq_refl)).
  - reflexivity.
  - unfold registryInv. intros H. apply Forall_cons in H as [_ H].
    apply Forall_cons in H as [[[_ H] _] _].
    cbn in H. by specialize (H (mk_is_Some _ _ eq_refl)).
Qed.

(** * Further properties of the registry *)

(** ** Starting a cycle *)

Lemma run_startWash now machine minutes st :
  startWash now machine minutes st =
  mkRun tt
    (final (pushNotice now ("Started wash on " +:+ m_label machine +:+ ".") info
       (setWashes (mkWash ("w-" +:+ pretty now) (m_id machine) (m_label machine)
                          (m_hostel machine) (m_floor machine) now None W_RUNNING
                   :: washes st)
          (setMachines (mapMachine (m_id machine)
                          (withCycleStarted minutes (u_id <$> user st)) (machines st)) st))))
    [Notified ("Started wash on " +:+ m_label machine +:+ ".") info].
Proof. reflexivity. Qed.

(** [startWash] puts every registry entry with the machine's id into a new
    cycle: RUNNING, eta as given, both counters 0, owner the logged-in user
    (or none).  The other entries are untouched.  A RUNNING wash record for
    the machine goes to the head of the wash list, also when the registry
    has no entry with that id. *)
Theorem startWash_begins_cycle now machine minutes st :
  let r := startWash now machine minutes st in
  (∀ i m, machines st !! i = Some m → m_id m = m_id machine →
     ∃ m', machines (final r) !! i = Some m' ∧
           m_status m' = RUNNING ∧ m_eta m' = Some minutes ∧
           m_nudgeCount m' = Some 0 ∧ m_flagCount m' = Some 0 ∧
           m_ownerId m' = u_id <$> user st) ∧
  (∀ i m, machines st !! i = Some m → m_id m ≠ m_id machine →
     machines (final r) !! i = Some m) ∧
  (∃ w, washes (final r) = w :: washes st ∧
        w_machineId w = m_id machine ∧ w_status w = W_RUNNING ∧
        w_startAt w = now ∧ w_endAt w = None) ∧
  emitted r = [Notified ("Started wash on " +:+ m_label machine +:+ ".") info].
Proof.
  intros r. subst r. rewrite run_startWash, run_pushNotice. cbn. split_and!.
  - intros i m Hi Hid. eexists. split.
    + unfold mapMachine. rewrite list_lookup_fmap, Hi. cbn. by rewrite decide_True.
    + done.
  - intros i m Hi Hid. unfold mapMachine.
    rewrite list_lookup_fmap, Hi. cbn. by rewrite decide_False.
  - eexists. split; [reflexivity|done].
  - reflexivity.
Qed.

Lemma startWash_begins_cycle_witness :
  let st := laundry (washer FREE None) in
  m_status <$> machines (final (startWash 100 (washer FREE None) 35 st)) = [RUNNING] ∧
  m_eta <$> machines (final (startWash 100 (washer FREE None) 35 st)) = [Some 35].
Proof.
  intros st.
  destruct (proj1 (startWash_begins_cycle 100 (washer FREE None) 35 st)
              0%nat (washer FREE None) eq_refl eq_refl) as (m' & Hm' & Hs & He & _).
  cbn in Hm'. injection Hm' as <-. split; reflexivity.
Defined.

(** ** A cycle over successive ticks *)

Lemma afterCountdown_idle now m :
  m_status m ≠ RUNNING → afterCountdown now m = m.
Proof. intros Hs. unfold afterCountdown. by destruct (m_status m). Qed.

Lemma life_idle nows m :
  m_status m ≠ RUNNING → foldl (λ m' now, afterCountdown now m') m nows = m.
Proof.
  intros Hs. induction nows as [|now nows IH]; [done|].
  cbn [foldl]. by rewrite afterCountdown_idle.
Qed.

Lemma run_ticks_cons now nows st :
  ticks (now :: nows) st =
  mkRun tt (final (ticks nows (final (tick now st))))
        (emitted (tick now st) ++ emitted (ticks nows (final (tick now st)))).
Proof.
  unfold ticks. cbn [forEach]. rewrite run_bind. f_equal.
  by destruct (value _).
Qed.

Lemma ticks_machines nows st :
  machines (final (ticks nows st)) =
  map (λ m, foldl (λ m' now, afterCountdown now m') m nows) (machines st).
Proof.
  revert st. induction nows as [|now nows IH]; intros st.
  - cbn. by rewrite map_id.
  - rewrite run_ticks_cons. cbn [final]. rewrite IH, tick_machines, map_map.
    reflexivity.
Qed.

Lemma life_running nows : ∀ m e,
  m_status m = RUNNING → m_eta m = Some e →
  let m' := foldl (λ m' now, afterCountdown now m') m nows in
  (Z.of_nat (length nows) < Z.max 1 e →
     m_status m' = RUNNING ∧ m_eta m' = Some (e - Z.of_nat (length nows)) ∧
     m_lastCompletedAt m' = m_lastCompletedAt m) ∧
  (Z.max 1 e ≤ Z.of_nat (length nows) →
     m_status m' = AWAITING ∧ m_eta m' = None ∧
     m_lastCompletedAt m' = nows !! Z.to_nat (Z.max 1 e - 1)).
Proof.
  induction nows as [|now nows IH]; intros m e Hs He; cbn zeta.
  - cbn [foldl length]. split; [|lia]. intros _.
    rewrite Hs, He. repeat split. f_equal. lia.
  - cbn [foldl length]. unfold afterCountdown at 2 4 6 8 10 12. rewrite Hs, He.
    destruct (Z.leb_spec (e - 1) 0) as [Hle|Hgt].
    + rewrite life_idle by done. split; [lia|]. intros _.
      replace (Z.max 1 e - 1) with 0 by lia. done.
    + destruct (IH (withEta (e - 1) m) (e - 1) Hs eq_refl) as [Hrun Hdone].
      split.
      * intros Hlt. destruct Hrun as (? & ? & ?); [lia|]. split_and!; try done.
        rewrite H0. f_equal. lia.
      * intros Hge. destruct Hdone as (? & ? & ?); [lia|]. split_and!; try done.
        rewrite H1. replace (Z.to_nat (Z.max 1 e - 1)) with (S (Z.to_nat (Z.max 1 (e - 1) - 1))) by lia.
        reflexivity.
Qed.

(** A machine in mid-cycle with eta [e] counts down by one per tick and
    becomes AWAITING at tick number [max 1 e], with [lastCompletedAt] the
    time of that tick; later ticks leave it alone. *)
Theorem cycle_ends_on_time nows st i m e :
  machines st !! i = Some m → m_status m = RUNNING → m_eta m = Some e →
  ∃ m', machines (final (ticks nows st)) !! i = Some m' ∧
    (Z.of_nat (length nows) < Z.max 1 e →
       m_status m' = RUNNING ∧ m_eta m' = Some (e - Z.of_nat (length nows))) ∧
    (Z.max 1 e ≤ Z.of_nat (length nows) →
       m_status m' = AWAITING ∧ m_eta m' = None ∧
       m_lastCompletedAt m' = nows !! Z.to_nat (Z.max 1 e - 1)).
Proof.
  intros Hi Hs He. eexists. split.
  - rewrite ticks_machines, list_lookup_fmap, Hi. reflexivity.
  - destruct (life_running nows m e Hs He) as [Hrun Hdone]. split.
    + intros Hlt. destruct (Hrun Hlt) as (? & ? & _). done.
    + exact Hdone.
Qed.

Lemma cycle_ends_on_time_witness :
  ∃ m', machines (final (ticks [60; 120; 180] busyFloor)) !! 1%nat = Some m' ∧
        m_status m' = AWAITING ∧ m_lastCompletedAt m' = Some 120.
Proof.
  destruct (cycle_ends_on_time [60; 120; 180] busyFloor 1 _ 2 eq_refl eq_refl eq_refl)
    as (m' & Hm' & _ & Hdone).
  exists m'. split; [exact Hm'|].
  destruct Hdone as (Hs & _ & Hat); [cbn; lia|]. split; [exact Hs|exact Hat].
Defined.

(** ** What the ticks announce *)

Lemma emitted_mapM {A B} (f : A → Op B) (g : A → list Event) xs st :
  (∀ x st', emitted (f x st') = g x) → emitted (mapM f xs st) = xs ≫= g.
Proof.
  intros Hf. revert st. induction xs as [|x xs IH]; intros st; [reflexivity|].
  cbn [mapM]. rewrite !emitted_bind, Hf, IH, bind_cons. cbn. by rewrite app_nil_r.
Qed.

Lemma emitted_tickMachine now m st :
  emitted (tickMachine now m st) = countdownEvents m.
Proof.
  rewrite run_tickMachine. unfold countdownEvents.
  destruct (m_status m), (m_eta m) as [e|]; try reflexivity.
  destruct (e - 1 =? 3); [reflexivity|]. destruct (e - 1 <=? 0); reflexivity.
Qed.

Lemma emitted_tick now st :
  emitted (tick now st) = machines st ≫= countdownEvents.
Proof.
  rewrite run_tick. cbn [emitted]. unfold countdown.
  rewrite !emitted_bind. cbn [get value final emitted modify].
  rewrite (emitted_mapM _ countdownEvents) by (intros; apply emitted_tickMachine).
  by rewrite app_nil_r.
Qed.

Section counting.
Context {A : Type}.
Implicit Types (l : list A).

(** Counting through a disjoint union. *)
Lemma count_split (P Q R : A → Prop)
    `{!∀ x, Decision (P x), !∀ x, Decision (Q x), !∀ x, Decision (R x)} l :
  (∀ x, R x ↔ P x ∨ Q x) → (∀ x, P x → Q x → False) →
  length (filter R l) = (length (filter P l) + length (filter Q l))%nat.
Proof.
  intros Hunion Hdisj. induction l as [|x l IH]; [reflexivity|].
  rewrite !filter_cons.
  destruct (decide (P x)) as [HP|HP], (decide (Q x)) as [HQ|HQ];
    destruct (decide (R x)) as [HR|HR]; cbn [length];
    try lia; exfalso; first [by eapply Hdisj | apply HR, Hunion; tauto
                             | apply Hunion in HR; tauto].
Qed.

Lemma count_none (P : A → Prop) `{!∀ x, Decision (P x)} l :
  (∀ x, ¬ P x) → length (filter P l) = 0%nat.
Proof.
  intros HP. induction l as [|x l IH]; [reflexivity|].
  rewrite filter_cons. by destruct (decide (P x)) as [?%HP|_].
Qed.

Lemma count_bind {B} (g : A → list B) (P : B → Prop) (Q : A → Prop)
    `{!∀ y, Decision (P y), !∀ x, Decision (Q x)} l :
  (∀ x, length (filter P (g x)) = if decide (Q x) then 1%nat else 0%nat) →
  length (filter P (l ≫= g)) = length (filter Q l).
Proof.
  intros Hg. induction l as [|x l IH]; [reflexivity|].
  rewrite bind_cons, filter_app, length_app, IH, Hg, filter_cons.
  by destruct (decide (Q x)).
Qed.

Lemma count_fmap {B} (f : A → B) (P : B → Prop) (Q : A → Prop)
    `{!∀ y, Decision (P y), !∀ x, Decision (Q x)} l :
  (∀ x, P (f x) ↔ Q x) →
  length (filter P (f <$> l)) = length (filter Q l).
Proof.
  intros Hf. induction l as [|x l IH]; [reflexivity|].
  rewrite fmap_cons, !filter_cons.
  destruct (decide (P (f x))) as [HP|HP], (decide (Q x)) as [HQ|HQ]; cbn [length];
    try lia; exfalso; first [by apply HQ, Hf | by apply HP, Hf].
Qed.
End counting.

Lemma runningWithin_after lo hi now m :
  1 ≤ lo →
  runningWithin lo hi (afterCountdown now m) ↔ runningWithin (lo + 1) (hi + 1) m.
Proof.
  intros Hlo. unfold runningWithin, afterCountdown.
  destruct (m_status m) eqn:Hs; rewrite ?Hs;
    try (split; intros [? _]; discriminate).
  destruct (m_eta m) as [e|] eqn:He; rewrite ?Hs, ?He;
    [|split; intros (_ & e' & [=] & _)].
  destruct (Z.leb_spec (e - 1) 0) as [Hle|Hgt]; cbn; rewrite ?Hs.
  - split; [by intros [? _]|]. intros (_ & e' & [= <-] & ?). lia.
  - split; intros (_ & e' & [= <-] & ?); (split; [done|]); eexists; (split; [done|]); lia.
Qed.

Lemma finishesWithin_after n now m :
  finishesWithin n (afterCountdown now m) ↔ runningWithin 2 (n + 1) m.
Proof.
  unfold finishesWithin, runningWithin, afterCountdown.
  destruct (m_status m) eqn:Hs; rewrite ?Hs;
    try (split; intros [? _]; discriminate).
  destruct (m_eta m) as [e|] eqn:He; rewrite ?Hs, ?He;
    [|split; intros (_ & e' & [=] & _)].
  destruct (Z.leb_spec (e - 1) 0) as [Hle|Hgt]; cbn; rewrite ?Hs.
  - split; [by intros [? _]|]. intros (_ & e' & [= <-] & ?). lia.
  - split; intros (_ & e' & [= <-] & ?); (split; [done|]); eexists; (split; [done|]); lia.
Qed.

Lemma countdownEvents_info m :
  length (filter (isNotice info) (countdownEvents m)) =
  if decide (runningWithin 4 4 m) then 1%nat else 0%nat.
Proof.
  unfold countdownEvents.
  destruct (decide (runningWithin 4 4 m)) as [(Hs & e & He & ?)|Hno].
  - rewrite Hs, He.
    replace (e - 1 =? 3) with true by (symmetry; apply Z.eqb_eq; lia). reflexivity.
  - destruct (m_status m) eqn:Hs, (m_eta m) as [e|] eqn:He; try reflexivity.
    destruct (Z.eqb_spec (e - 1) 3) as [H3|H3].
    + exfalso. apply Hno. split; [done|]. exists e. split; [done|lia].
    + by destruct (e - 1 <=? 0).
Qed.

Lemma countdownEvents_success m :
  length (filter (isNotice success) (countdownEvents m)) =
  if decide (finishesWithin 1 m) then 1%nat else 0%nat.
Proof.
  unfold countdownEvents.
  destruct (decide (finishesWithin 1 m)) as [(Hs & e & He & ?)|Hno].
  - rewrite Hs, He.
    replace (e - 1 =? 3) with false by (symmetry; apply Z.eqb_neq; lia).
    replace (e - 1 <=? 0) with true by (symmetry; apply Z.leb_le; lia). reflexivity.
  - destruct (m_status m) eqn:Hs, (m_eta m) as [e|] eqn:He; try reflexivity.
    destruct (e - 1 =? 3); [reflexivity|].
    destruct (Z.leb_spec (e - 1) 0) as [Hle|Hgt]; [|reflexivity].
    exfalso. apply Hno. split; [done|]. exists e. split; [done|lia].
Qed.

Lemma countdownEvents_kinds m :
  Forall (λ e, isNotice info e ∨ isNotice success e) (countdownEvents m).
Proof.
  unfold countdownEvents.
  destruct (m_status m), (m_eta m) as [e|]; try by constructor.
  destruct (e - 1 =? 3); [constructor; [by left|constructor]|].
  destruct (e - 1 <=? 0); constructor; [by right|constructor].
Qed.

(** Over any run of ticks each machine announces the end of its cycle once
    and its last three minutes at most once: the "finishing" notices number
    the machines that start the run RUNNING with an eta from 4 up to the
    number of ticks plus 3, the "finished" notices those that reach the end
    of their cycle within the run, and the ticks emit nothing else. *)
Theorem ticks_announce_once nows st :
  let n := Z.of_nat (length nows) in
  let es := emitted (ticks nows st) in
  length (filter (isNotice info) es) =
    length (filter (runningWithin 4 (n + 3)) (machines st)) ∧
  length (filter (isNotice success) es) =
    length (filter (finishesWithin n) (machines st)) ∧
  Forall (λ e, isNotice info e ∨ isNotice success e) es.
Proof.
  cbn zeta. revert st. induction nows as [|now nows IH]; intros st.
  - cbn. split_and!; [| |constructor].
    + symmetry. apply count_none. intros m (_ & e & _ & ?). lia.
    + symmetry. apply count_none. intros m (_ & e & _ & ?). lia.
  - rewrite run_ticks_cons. cbn [emitted].
    destruct (IH (final (tick now st))) as (Hinfo & Hdone & Hkinds).
    rewrite tick_machines in Hinfo, Hdone. rewrite emitted_tick.
    rewrite !filter_app, !length_app, Hinfo, Hdone.
    rewrite (count_bind countdownEvents (isNotice info) (runningWithin 4 4))
      by apply countdownEvents_info.
    rewrite (count_bind countdownEvents (isNotice success) (finishesWithin 1))
      by apply countdownEvents_success.
    rewrite (count_fmap (afterCountdown now) _
               (runningWithin 5 (Z.of_nat (length nows) + 4)))
      by (intros m; rewrite runningWithin_after by lia;
          by replace (Z.of_nat (length nows) + 3 + 1) with (Z.of_nat (length nows) + 4) by lia).
    rewrite (count_fmap (afterCountdown now) _
               (runningWithin 2 (Z.of_nat (length nows) + 1)))
      by (intros m; apply finishesWithin_after).
    cbn [length]. split_and!.
    + symmetry. apply count_split.
      * intros m. unfold runningWithin. split.
        -- intros (Hs & e & He & ?). destruct (decide (e = 4)) as [Heq|Hne];
             [left|right]; (split; [done|]); exists e; (split; [done|]); lia.
        -- intros [(Hs & e & He & ?)|(Hs & e & He & ?)];
             (split; [done|]); exists e; (split; [done|]); lia.
      * intros m (_ & e & He & ?) (_ & e' & He' & ?). rewrite He in He'.
        injection He' as <-. lia.
    + symmetry. apply count_split.
      * intros m. unfold finishesWithin, runningWithin. split.
        -- intros (Hs & e & He & ?). destruct (decide (e ≤ 1));
             [left|right]; (split; [done|]); exists e; (split; [done|]); lia.
        -- intros [(Hs & e & He & ?)|(Hs & e & He & ?)];
             (split; [done|]); exists e; (split; [done|]); lia.
      * intros m (_ & e & He & ?) (_ & e' & He' & ?). rewrite He in He'.
        injection He' as <-. lia.
    + apply Forall_app. split; [|done].
      apply Forall_bind, Forall_forall. intros m _. apply countdownEvents_kinds.
Qed.

(** ** What a tick leaves alone *)

Lemma keeps_pushNotice_frame (P : State → Prop) now title kind :
  (∀ st ns, P st → P (setNotices ns st)) → keeps P (pushNotice now title kind).
Proof. intros HP st H. rewrite run_pushNotice. cbn. by apply HP. Qed.

(** [keeps_auto] for predicates that do not look at the notices. *)
Ltac frame_step :=
  lazymatch goal with
  | |- keeps _ (pushNotice _ _ _) =>
      apply keeps_pushNotice_frame; intros ? ? ?; assumption
  | |- _ => keeps_step
  end.

Ltac frame_auto := repeat frame_step.

Lemma keeps_elsewhere_tickMachine st0 now m :
  keeps (sameElsewhere st0) (tickMachine now m).
Proof. unfold tickMachine. frame_auto. Qed.

Lemma finishWash_closedAt now id w w0 :
  closedAt now w0 w → closedAt now w0 (finishWash now id w).
Proof.
  unfold finishWash, closedAt. intros [->|[Hs ->]].
  - destruct (bool_decide (w_machineId w0 = id)); cbn [andb]; [|by left].
    case_bool_decide; [by right|by left].
  - right. split; [done|].
    destruct (bool_decide _); cbn [andb]; [|done].
    by rewrite bool_decide_eq_false_2.
Qed.

Lemma keeps_washes_tickMachine st0 now m :
  keeps (λ s, Forall2 (closedAt now) (washes st0) (washes s)) (tickMachine now m).
Proof.
  intros st H. rewrite run_tickMachine.
  destruct (m_status m), (m_eta m) as [e|]; try exact H.
  destruct (e - 1 =? 3); [by rewrite run_pushNotice|].
  destruct (e - 1 <=? 0); [|exact H].
  cbn. rewrite run_pushNotice. cbn.
  apply Forall2_fmap_r. eapply Forall2_impl; [exact H|].
  intros w0 w Hw. by apply finishWash_closedAt.
Qed.

Lemma afterCountdown_identity now m : sameIdentity m (afterCountdown now m).
Proof.
  unfold afterCountdown, sameIdentity.
  destruct (m_status m), (m_eta m) as [e|]; try done.
  by destruct (e - 1 <=? 0).
Qed.

Lemma mapM_quiet {A} (f : A → Op A) xs st :
  (∀ x, x ∈ xs → f x st = mkRun x st []) → mapM f xs st = mkRun xs st [].
Proof.
  induction xs as [|x xs IH]; intros Hf; [reflexivity|].
  cbn [mapM]. rewrite run_bind, (Hf x) by apply list_elem_of_here.
  cbn [value final emitted]. rewrite run_bind, IH.
  - reflexivity.
  - intros y Hy. apply Hf. by apply list_elem_of_further.
Qed.

Lemma tick_washes now st :
  Forall2 (closedAt now) (washes st) (washes (final (tick now st))).
Proof.
  rewrite run_tick. cbn [final]. unfold countdown. rewrite !final_bind.
  cbn [get value final modify].
  apply (keeps_mapM (λ s, Forall2 (closedAt now) (washes st) (washes s))).
  - intros m. apply keeps_washes_tickMachine.
  - apply Forall_Forall2_diag, Forall_forall. intros w _. by left.
Qed.

Lemma tick_bookings_user now st :
  bookings (final (tick now st)) = bookings st ∧ user (final (tick now st)) = user st.
Proof.
  assert (sameElsewhere st (final (tick now st))) as (Hb & _ & _ & Hu); [|done].
  rewrite run_tick. cbn [final]. unfold countdown. rewrite !final_bind.
  cbn [get value final modify].
  apply (keeps_mapM (sameElsewhere st)); [|done].
  intros m. apply keeps_elsewhere_tickMachine.
Qed.

(** A tick changes nothing but machines, wash records and notices.  The
    registry keeps its length and order, and each machine its id, label,
    place, counters and owner.  Each wash record is as before or, if it was
    RUNNING, closed at the tick time.  When no machine is RUNNING with an
    eta, the tick does nothing at all. *)
Theorem tick_leaves_rest_alone now st :
  let st' := final (tick now st) in
  bookings st' = bookings st ∧ reports st' = reports st ∧
  rooms st' = rooms st ∧ user st' = user st ∧ watchFree st' = watchFree st ∧
  Forall2 sameIdentity (machines st) (machines st') ∧
  Forall2 (closedAt now) (washes st) (washes st') ∧
  ((∀ m, m ∈ machines st → m_status m ≠ RUNNING ∨ m_eta m = None) →
   tick now st = mkRun tt st []).
Proof.
  cbn zeta.
  assert (sameElsewhere st (final (tick now st))) as (Hb & Hr & Hro & Hu).
  { rewrite run_tick. cbn [final]. unfold countdown. rewrite !final_bind.
    cbn [get value final modify].
    apply (keeps_mapM (sameElsewhere st)); [|done].
    intros m. apply keeps_elsewhere_tickMachine. }
  split_and!; try done.
  - rewrite run_tick. cbn [final]. apply watchFree_countdown.
  - rewrite tick_machines. apply Forall2_fmap_r, Forall_Forall2_diag, Forall_forall.
    intros m _. apply afterCountdown_identity.
  - apply tick_washes.
  - intros Hidle. rewrite run_tick. unfold countdown.
    rewrite !run_bind. cbn [get value final emitted modify].
    rewrite mapM_quiet.
    + cbn. by destruct st.
    + intros m Hm. rewrite run_tickMachine.
      destruct (Hidle m Hm) as [Hs|He]; [by destruct (m_status m)|].
      rewrite He. by destruct (m_status m).
Qed.

Lemma tick_leaves_rest_alone_witness :
  tick 60000 (laundry (washer AWAITING None)) =
  mkRun tt (laundry (washer AWAITING None)) [].
Proof.
  apply (tick_leaves_rest_alone 60000 (laundry (washer AWAITING None))).
  intros m Hm. apply list_elem_of_singleton in Hm. subst m. left. discriminate.
Defined.

(** ** Wash records *)

Lemma replay_keeps (P : State → Prop) history st :
  (∀ now a, keeps P (perform now a)) → P st → P (replay history st).
Proof.
  intros Hstep. revert st. induction history as [|[now a] rest IH]; intros st H.
  - exact H.
  - cbn [replay]. by apply IH, Hstep.
Qed.

Lemma washInv_closedAt now w w' : closedAt now w w' → washInv w → washInv w'.
Proof.
  intros [->|[_ ->]] Hw; [done|]. split; cbn; intros; discriminate.
Qed.

Lemma keeps_washInv_perform now a :
  keeps (λ s, Forall washInv (washes s)) (perform now a).
Proof.
  destruct a; cbn [perform];
    try solve [unfold onRegistered, nudgeMachine, flagMachine, sendReminderEmail,
                 submitReport, requestWatch, submitBooking, approvalFires, cancelBooking,
                 extendBooking, modifyBooking; frame_auto].
  - (* startWash *)
    intros st H. rewrite run_startWash, run_pushNotice. cbn.
    constructor; [by split|exact H].
  - (* markCollected *)
    intros st H. rewrite run_markCollected, run_pushNotice. cbn.
    apply Forall_fmap. eapply Forall_impl; [exact H|].
    intros w Hw. cbn. rewrite collectWash_spec.
    case_decide; [|done]. split; cbn; intros; discriminate.
  - (* tick *)
    intros st H. pose proof (tick_washes now st) as Hc.
    apply Forall_forall. intros w' Hin.
    apply list_elem_of_lookup in Hin as [j Hj].
    destruct (Forall2_lookup_r _ _ _ _ _ Hc Hj) as (w & Hw & Hcl).
    eapply washInv_closedAt; [exact Hcl|]. eapply Forall_lookup_1; eauto.
Qed.

(** Through every history a wash record has an end time exactly when it is
    no longer RUNNING. *)
Theorem wash_records_consistent history st :
  Forall washInv (washes st) → Forall washInv (washes (replay history st)).
Proof.
  apply (replay_keeps (λ s, Forall washInv (washes s))).
  apply keeps_washInv_perform.
Qed.

Lemma wash_records_consistent_witness :
  Forall washInv
    (washes (replay [(1, AStartWash (washer FREE None) 1); (2, ATick);
                     (3, AMarkCollected (washer FREE None))]
                    (laundry (washer FREE None)))).
Proof.
  apply wash_records_consistent. repeat constructor; done.
Defined.

(** ** Nudges *)




Lemma registryInv_perform_witness :
  registryInv (final (perform 7 (AFlagAt 0) floor3)).
Proof.
  apply registryInv_perform.
  - unfold registryInv. repeat constructor; cbn; try done;
      try (intros H; by apply is_Some_None in H); by eauto.
  - cbn. intros m [= <-]. discriminate.
Defined.

(** ** Reports *)

Lemma run_submitReport now machineId reason notes photo affectStatus st :
  submitReport now machineId reason notes photo affectStatus st =
  let st1 := final (pushNotice now ("Report submitted for " +:+ machineId +:+ ".") report
                 (setReports (mkReport ("r-" +:+ pretty now) machineId reason notes photo now
                              :: reports st) st)) in
  mkRun tt
    (if affectStatus
     then setMachines (mapMachine machineId withMaint (machines st1)) st1 else st1)
    [Notified ("Report submitted for " +:+ machineId +:+ ".") report].
Proof. unfold submitReport. destruct affectStatus; reflexivity. Qed.

(** A report is always filed and announced, also for an id that no machine
    has.  Without [affectStatus] the registry is untouched; with it every
    machine of that id goes to MAINT with its eta cleared and the others
    stay as they are.  Wash records are never touched: the running record of
    a machine sent to maintenance stays RUNNING. *)
Theorem report_always_filed now machineId reason notes photo affectStatus st :
  let r := submitReport now machineId reason notes photo affectStatus st in
  reports (final r) =
    mkReport ("r-" +:+ pretty now) machineId reason notes photo now :: reports st ∧
  emitted r = [Notified ("Report submitted for " +:+ machineId +:+ ".") report] ∧
  washes (final r) = washes st ∧
  (affectStatus = false → machines (final r) = machines st) ∧
  (affectStatus = true →
     ∀ i m, machines st !! i = Some m →
       (m_id m = machineId →
          ∃ m', machines (final r) !! i = Some m' ∧
                m_status m' = MAINT ∧ m_eta m' = None ∧
                m_lastCompletedAt m' = m_lastCompletedAt m) ∧
       (m_id m ≠ machineId → machines (final r) !! i = Some m)).
Proof.
  cbn zeta. rewrite run_submitReport, run_pushNotice. cbn zeta. split_and!.
  - by destruct affectStatus.
  - reflexivity.
  - by destruct affectStatus.
  - by intros ->.
  - intros -> i m Hi. cbn. unfold mapMachine. rewrite list_lookup_fmap, Hi. cbn. split.
    + intros Hid. rewrite decide_True by done. by eexists.
    + intros Hid. by rewrite decide_False.
Qed.

Lemma report_always_filed_witness :
  m_status <$> machines (final (submitReport 5 "LVH-3-1" "Leaking water" "drip" None true
                                  (laundry (washer RUNNING (Some 9))))) = [MAINT] ∧
  w_status <$> washes (final (submitReport 5 "LVH-3-1" "Leaking water" "drip" None true
                                (laundry (washer RUNNING (Some 9))))) = [W_RUNNING].
Proof.
  pose proof (report_always_filed 5 "LVH-3-1" "Leaking water" "drip" None true
                (laundry (washer RUNNING (Some 9)))) as (_ & _ & Hw & _ & Hm).
  split.
  - destruct (proj1 (Hm eq_refl 0%nat _ eq_refl) eq_refl) as (m' & Hm' & Hs & _).
    cbn in Hm'. injection Hm' as <-. reflexivity.
  - rewrite Hw. reflexivity.
Defined.

(** * Further properties of the ledger *)

Section ledger_more.
Implicit Types (b : Booking) (st : State).

Lemma findBooking_replace id st idx b b' :
  findBooking id st = Some (idx, b) → b_id b' = b_id b →
  findBooking id (replaceBooking idx b' st) = Some (idx, b').
Proof.
  unfold findBooking, replaceBooking. cbn [bookings setBookings].
  intros (Hidx & Hid & Hfirst)%list_find_Some Hsame.
  apply list_find_Some. split_and!.
  - apply list_lookup_insert_eq. by eapply lookup_lt_Some.
  - congruence.
  - intros j y Hj Hlt. rewrite list_lookup_insert_ne in Hj by lia. by eapply Hfirst.
Qed.

Lemma findBooking_pushNotice id now title kind st :
  findBooking id (final (pushNotice now title kind st)) = findBooking id st.
Proof. by rewrite run_pushNotice. Qed.

Lemma run_cancelBooking now id st idx b :
  findBooking id st = Some (idx, b) →
  b_status b = PENDING ∨ b_status b = APPROVED →
  cancelBooking now id st =
  mkRun tt
    (final (pushNotice now ("Booking cancelled for " +:+ b_roomLabel b +:+ ".") info
              (replaceBooking idx (withBookingStatus CANCELLED now b) st)))
    [Notified ("Booking cancelled for " +:+ b_roomLabel b +:+ ".") info].
Proof.
  intros Hfind Hs. unfold cancelBooking. rewrite run_bind. cbn [get value final emitted].
  rewrite Hfind.
  replace (bool_decide (b_status b = PENDING) || bool_decide (b_status b = APPROVED))
    with true by (destruct Hs as [Hs|Hs]; rewrite Hs; reflexivity).
  reflexivity.
Qed.

Lemma run_approvalFires now id st idx b :
  findBooking id st = Some (idx, b) → b_status b = PENDING →
  approvalFires now id st =
  mkRun tt
    (final (pushNotice now ("Booking approved for " +:+ b_roomLabel b +:+
                            ". Please keep the room clean and tidy.") success
              (replaceBooking idx (withBookingStatus APPROVED now b) st)))
    [Notified ("Booking approved for " +:+ b_roomLabel b +:+
               ". Please keep the room clean and tidy.") success].
Proof.
  intros Hfind Hs. unfold approvalFires. rewrite run_bind. cbn [get value final emitted].
  rewrite Hfind, (bool_decide_eq_true_2 _ Hs). reflexivity.
Qed.

(** The four requests on a stored booking, when the booking is missing or
    not in a status they accept. *)
Lemma cancelBooking_silent now id st :
  (∀ idx b, findBooking id st = Some (idx, b) →
            b_status b ≠ PENDING ∧ b_status b ≠ APPROVED) →
  cancelBooking now id st = mkRun tt st [].
Proof.
  intros Hno. unfold cancelBooking. rewrite run_bind. cbn [get value final emitted].
  destruct (findBooking id st) as [[idx b]|]; [|reflexivity].
  destruct (Hno idx b eq_refl) as [H1 H2].
  by rewrite (bool_decide_eq_false_2 _ H1), (bool_decide_eq_false_2 _ H2).
Qed.

Lemma modifyBooking_silent now id s e reason st :
  (∀ idx b, findBooking id st = Some (idx, b) →
            b_status b ≠ PENDING ∧ b_status b ≠ APPROVED) →
  modifyBooking now id s e reason st = mkRun tt st [].
Proof.
  intros Hno. unfold modifyBooking. rewrite run_bind. cbn [get value final emitted].
  destruct (findBooking id st) as [[idx b]|]; [|reflexivity].
  destruct (Hno idx b eq_refl) as [H1 H2].
  by rewrite (bool_decide_eq_false_2 _ H1), (bool_decide_eq_false_2 _ H2).
Qed.

Lemma approvalFires_silent now id st :
  (∀ idx b, findBooking id st = Some (idx, b) → b_status b ≠ PENDING) →
  approvalFires now id st = mkRun tt st [].
Proof.
  intros Hno. unfold approvalFires. rewrite run_bind. cbn [get value final emitted].
  destruct (findBooking id st) as [[idx b]|]; [|reflexivity].
  by rewrite (bool_decide_eq_false_2 _ (Hno idx b eq_refl)).
Qed.

Lemma emitted_nonempty {A} (r : Run A) x st :
  emitted r ≠ [] → r ≠ mkRun x st [].
Proof. intros Hne ->. by apply Hne. Qed.
End ledger_more.

(** A request about a stored booking is silent exactly when the booking is
    missing or in a status the request does not accept; then nothing
    changes.  A request on a booking in a status it accepts always answers:
    a cancellation and the approval timer with their one notice; an
    extension and a modification either with one alert, the state left as
    it was, or with their notice followed by the scheduling of a new
    approval. *)
Theorem requests_silent_iff_ineligible now id st :
  (cancelBooking now id st = mkRun tt st [] ↔
     ∀ idx b, findBooking id st = Some (idx, b) →
              b_status b ≠ PENDING ∧ b_status b ≠ APPROVED) ∧
  (∀ newEndAt,
     extendBooking now id newEndAt st = mkRun tt st [] ↔
     ∀ idx b, findBooking id st = Some (idx, b) → b_status b ≠ APPROVED) ∧
  (∀ newStartAt newEndAt newReason,
     modifyBooking now id newStartAt newEndAt newReason st = mkRun tt st [] ↔
     ∀ idx b, findBooking id st = Some (idx, b) →
              b_status b ≠ PENDING ∧ b_status b ≠ APPROVED) ∧
  (approvalFires now id st = mkRun tt st [] ↔
     ∀ idx b, findBooking id st = Some (idx, b) → b_status b ≠ PENDING) ∧
  (∀ idx b, findBooking id st = Some (idx, b) →
     (b_status b = PENDING ∨ b_status b = APPROVED →
        emitted (cancelBooking now id st) =
          [Notified ("Booking cancelled for " +:+ b_roomLabel b +:+ ".") info] ∧
        ∀ newStartAt newEndAt newReason,
          let r := modifyBooking now id newStartAt newEndAt newReason st in
          (final r = st ∧ ∃ msg, emitted r = [Alerted msg]) ∨
          emitted r = [Notified ("Booking modified for " +:+ b_roomLabel b +:+ ".") info;
                       ApprovalScheduled (b_id b)]) ∧
     (b_status b = APPROVED →
        ∀ newEndAt,
          let r := extendBooking now id newEndAt st in
          (final r = st ∧ ∃ msg, emitted r = [Alerted msg]) ∨
          emitted r = [Notified ("Extension requested for " +:+ b_roomLabel b +:+ ".") info;
                       ApprovalScheduled (b_id b)]) ∧
     (b_status b = PENDING →
        emitted (approvalFires now id st) =
          [Notified ("Booking approved for " +:+ b_roomLabel b +:+
                     ". Please keep the room clean and tidy.") success])).
Proof.
  split_and!.
  - split; [|apply cancelBooking_silent].
    intros Hsilent idx b Hfind.
    destruct (decide (b_status b = PENDING ∨ b_status b = APPROVED)) as [Hs|Hs]; [|tauto].
    rewrite (run_cancelBooking _ _ _ idx b) in Hsilent by done. discriminate.
  - intros newEndAt. split; [|apply run_extendBooking_ineligible].
    intros Hsilent idx b Hfind Hs.
    rewrite (run_extendBooking _ _ _ _ idx b) in Hsilent by done.
    destruct (DAY_MS <? _); [discriminate|].
    destruct (checkConflict _ _ _ _); discriminate.
  - intros newStartAt newEndAt newReason. split; [|apply modifyBooking_silent].
    intros Hsilent idx b Hfind.
    destruct (decide (b_status b = PENDING ∨ b_status b = APPROVED)) as [Hs|Hs]; [|tauto].
    rewrite (run_modifyBooking _ _ _ _ _ _ idx b) in Hsilent by done.
    destruct (_ <=? 0); [discriminate|].
    destruct (DAY_MS <? _); [discriminate|].
    destruct (checkConflict _ _ _ _); discriminate.
  - split; [|apply approvalFires_silent].
    intros Hsilent idx b Hfind Hs.
    rewrite (run_approvalFires _ _ _ idx b) in Hsilent by done. discriminate.
  - intros idx b Hfind. split_and!.
    + intros Hs. split.
      * by rewrite (run_cancelBooking _ _ _ idx b).
      * intros newStartAt newEndAt newReason. cbn zeta.
        rewrite (run_modifyBooking _ _ _ _ _ _ idx b) by done.
        destruct (_ <=? 0); [left; split; [done|by eexists]|].
        destruct (DAY_MS <? _); [left; split; [done|by eexists]|].
        destruct (checkConflict _ _ _ _); [left; split; [done|by eexists]|].
        by right.
    + intros Hs newEndAt. cbn zeta.
      rewrite (run_extendBooking _ _ _ _ idx b) by done.
      destruct (DAY_MS <? _); [left; split; [done|by eexists]|].
      destruct (checkConflict _ _ _ _); [left; split; [done|by eexists]|].
      by right.
    + intros Hs. by rewrite (run_approvalFires _ _ _ idx b).
Qed.

Lemma requests_silent_iff_ineligible_witness :
  cancelBooking 5 "b-2" demoLedger = mkRun tt demoLedger [] ∧
  extendBooking 5 "b-3" (13 * hour) demoLedger = mkRun tt demoLedger [] ∧
  approvalFires 5 "b-9" demoLedger = mkRun tt demoLedger [] ∧
  emitted (approvalFires 5 "b-3" demoLedger) =
    [Notified "Booking approved for Common Room 2. Please keep the room clean and tidy."
              success].
Proof.
  split_and!.
  - apply (proj1 (requests_silent_iff_ineligible 5 "b-2" demoLedger)).
    intros idx b [= <- <-]. split; discriminate.
  - apply (proj1 (proj2 (requests_silent_iff_ineligible 5 "b-3" demoLedger))).
    intros idx b [= <- <-]. discriminate.
  - apply (proj1 (proj2 (proj2 (proj2 (requests_silent_iff_ineligible 5 "b-9" demoLedger))))).
    intros idx b [=].
  - refine (proj2 (proj2
              (proj2 (proj2 (proj2 (proj2 (requests_silent_iff_ineligible 5 "b-3" demoLedger))))
                 2%nat (mkBooking "b-3" "CR-2" "Common Room 2" true (11 * hour) (12 * hour)
                                  "club" PENDING 0 0) eq_refl)) eq_refl).
Defined.

(** ** Submitting, approving, cancelling *)

(** A request submitted at time [now] is stored at the head of the ledger
    under the id built from [now] and is found there by that id, whatever
    the ledger held.  The approval timer, when it fires, approves exactly
    that entry; if the request was cancelled in between, the timer does
    nothing and the entry stays CANCELLED. *)
Theorem submit_then_approve now room startAt endAt reason st :
  let id := "b-" +:+ pretty now in
  let new := mkBooking id (room_id room) (room_label room) (room_hasAC room)
                       startAt endAt reason PENDING now now in
  let st1 := final (submitBooking now room startAt endAt reason st) in
  findBooking id st1 = Some (0%nat, new) ∧
  (∀ t, bookings (final (approvalFires t id st1)) =
          withBookingStatus APPROVED t new :: bookings st ∧
        emitted (approvalFires t id st1) =
          [Notified ("Booking approved for " +:+ room_label room +:+
                     ". Please keep the room clean and tidy.") success]) ∧
  (∀ t t', let st2 := final (cancelBooking t id st1) in
           bookings st2 = withBookingStatus CANCELLED t new :: bookings st ∧
           approvalFires t' id st2 = mkRun tt st2 []).
Proof.
  cbn zeta.
  set (id := "b-" +:+ pretty now).
  set (new := mkBooking id _ _ _ _ _ _ _ _ _).
  set (st1 := final _).
  assert (findBooking id st1 = Some (0%nat, new)) as Hfind.
  { subst st1. rewrite run_submitBooking, run_pushNotice. unfold findBooking. cbn.
    by rewrite decide_True. }
  split_and!.
  - exact Hfind.
  - intros t. rewrite (run_approvalFires _ _ _ 0%nat new) by done.
    rewrite run_pushNotice. split; [|done]. subst st1.
    by rewrite run_submitBooking, run_pushNotice.
  - intros t t'. rewrite (run_cancelBooking _ _ _ 0%nat new) by (done || by left).
    cbn [final]. split.
    + rewrite run_pushNotice. subst st1. by rewrite run_submitBooking, run_pushNotice.
    + apply approvalFires_silent. intros idx b.
      rewrite findBooking_pushNotice.
      rewrite (findBooking_replace id st1 0%nat new) by done.
      by intros [= <- <-].
Qed.

(** ** The slot of a request *)

Lemma checkConflict_pushNotice now title kind st roomId s e :
  checkConflict (final (pushNotice now title kind st)) roomId s e =
  checkConflict st roomId s e.
Proof. by rewrite run_pushNotice. Qed.

(** A submitted request blocks its slot at once, before any approval: every
    range of the same room that overlaps a non-empty requested range is
    reported as a conflict from then on, and what conflicted before still
    does. *)
Theorem pending_request_blocks_slot now room startAt endAt reason st :
  let st1 := final (submitBooking now room startAt endAt reason st) in
  (∀ s e, s < endAt → startAt < e →
          checkConflict st1 (room_id room) s e = true) ∧
  (∀ roomId s e, checkConflict st roomId s e = true →
                 checkConflict st1 roomId s e = true) ∧
  (∀ roomId s e, roomId ≠ room_id room →
                 checkConflict st1 roomId s e = checkConflict st roomId s e).
Proof.
  cbn zeta. rewrite run_submitBooking. cbn [final]. split_and!.
  - intros s e Hs He. rewrite checkConflict_pushNotice. unfold checkConflict. cbn.
    apply orb_true_iff. left. apply conflictsWith_true. cbn. repeat split; try done; lia.
  - intros roomId s e Hc. rewrite checkConflict_pushNotice. unfold checkConflict in *. cbn.
    rewrite Hc. apply orb_true_r.
  - intros roomId s e Hne. rewrite checkConflict_pushNotice. unfold checkConflict. cbn.
    unfold conflictsWith at 1. cbn. by rewrite bool_decide_eq_false_2 by congruence.
Qed.

Lemma pending_request_blocks_slot_witness :
  checkConflict (final (submitBooking 1 room1 (14 * hour) (16 * hour) "talk" approvedOnly))
                "CR-1" (15 * hour) (17 * hour) = true.
Proof.
  apply (proj1 (pending_request_blocks_slot 1 room1 (14 * hour) (16 * hour) "talk"
                  approvedOnly)); reflexivity.
Defined.

(** Cancelling takes the booking out of the conflict scan: afterwards a
    range conflicts exactly when it conflicts with some other stored
    booking.  The entry itself stays in place, CANCELLED, and a second
    cancellation is silent. *)
Theorem cancel_frees_slot now id st idx b :
  findBooking id st = Some (idx, b) →
  b_status b = PENDING ∨ b_status b = APPROVED →
  let st' := final (cancelBooking now id st) in
  bookings st' = <[idx := withBookingStatus CANCELLED now b]> (bookings st) ∧
  (∀ roomId s e,
     checkConflict st' roomId s e = true ↔
     ∃ j b', j ≠ idx ∧ bookings st !! j = Some b' ∧
             conflictsWith roomId s e b' = true) ∧
  (∀ t, cancelBooking t id st' = mkRun tt st' []).
Proof.
  intros Hfind Hs. cbn zeta. rewrite (run_cancelBooking _ _ _ idx b) by done.
  cbn [final]. destruct (findBooking_Some _ _ _ _ Hfind) as [Hidx Hid].
  split_and!.
  - by rewrite run_pushNotice.
  - intros roomId s e. rewrite checkConflict_pushNotice, checkConflict_true.
    unfold replaceBooking. cbn [bookings setBookings]. split.
    + intros (b' & Hin & Hc). apply list_elem_of_lookup in Hin as [j Hj].
      destruct (decide (j = idx)) as [->|Hne].
      * rewrite list_lookup_insert_eq in Hj by by eapply lookup_lt_Some.
        injection Hj as <-. unfold conflictsWith in Hc. cbn in Hc.
        by destruct (bool_decide (b_roomId b = roomId)).
      * rewrite list_lookup_insert_ne in Hj by done. by exists j, b'.
    + intros (j & b' & Hne & Hj & Hc). exists b'. split; [|done].
      apply list_elem_of_lookup. exists j. by rewrite list_lookup_insert_ne.
  - intros t. apply cancelBooking_silent. intros idx' b'.
    rewrite findBooking_pushNotice.
    rewrite (findBooking_replace id st idx b) by done.
    intros [= <- <-]. split; discriminate.
Qed.

Lemma cancel_frees_slot_witness :
  checkConflict (final (cancelBooking 9 "b-1" approvedOnly))
                "CR-1" (10 * hour) (11 * hour) = false.
Proof.
  apply not_true_iff_false. intros Hc.
  apply (proj1 (proj2 (cancel_frees_slot 9 "b-1" approvedOnly 0%nat _ eq_refl
                         (or_intror eq_refl))) "CR-1" (10 * hour) (11 * hour)) in Hc.
  destruct Hc as (j & b' & Hne & Hj & _).
  destruct j as [|j]; [done|]. cbn in Hj. discriminate.
Defined.

(** ** Modifying and extending *)

(** [modifyBooking] on a PENDING or APPROVED booking, by the outcome of its
    three tests, each a comparison of the new times.  When the new range is
    non-empty, at most 24 hours long and free of conflicts, the entry holds
    the new range, is PENDING again and keeps its reason unless a new one
    was given; the stored range is non-empty and at most a day long; the
    other entries are untouched.  When the new end is not after the new
    start, when the range is longer than 24 hours, and when it is within
    the bound but in conflict, the request is refused with the alert of
    that test and nothing changes.  Because the conflict scan includes the
    booking itself, a new range that overlaps the booking's present range
    is always refused.  (A [NaN] time, which the script gets from a date it
    could not parse, satisfies none of these comparisons and is not an
    integer: the statement says nothing about it.) *)
Theorem modify_outcome now id newStartAt newEndAt newReason st idx b :
  findBooking id st = Some (idx, b) →
  b_status b = PENDING ∨ b_status b = APPROVED →
  let r := modifyBooking now id newStartAt newEndAt newReason st in
  let diff := newEndAt - newStartAt in
  (0 < diff → diff ≤ DAY_MS →
   checkConflict st (b_roomId b) newStartAt newEndAt = false →
     ∃ b', bookings (final r) = <[idx := b']> (bookings st) ∧
           b_startAt b' = newStartAt ∧ b_endAt b' = newEndAt ∧
           b_status b' = PENDING ∧ b_reason b' = default (b_reason b) newReason ∧
           b_id b' = b_id b ∧ b_roomId b' = b_roomId b ∧ bookingInv b' ∧
           emitted r = [Notified ("Booking modified for " +:+ b_roomLabel b +:+ ".") info;
                        ApprovalScheduled (b_id b)]) ∧
  (diff ≤ 0 → r = mkRun tt st [Alerted "End time must be after start time."]) ∧
  (DAY_MS < diff → r = mkRun tt st [Alerted "Bookings cannot exceed 24 hours."]) ∧
  (0 < diff → diff ≤ DAY_MS →
   checkConflict st (b_roomId b) newStartAt newEndAt = true →
     r = mkRun tt st [Alerted "Requested times overlap with another booking."]) ∧
  (newStartAt < b_endAt b → b_startAt b < newEndAt →
     final r = st ∧ ∃ msg, emitted r = [Alerted msg]).
Proof.
  intros Hfind Hs. cbn zeta.
  rewrite (run_modifyBooking _ _ _ _ _ _ idx b) by done.
  split_and!.
  - intros Hpos Hday Hfree.
    destruct (Z.leb_spec (newEndAt - newStartAt) 0); [lia|].
    destruct (Z.ltb_spec DAY_MS (newEndAt - newStartAt)); [lia|].
    rewrite Hfree. eexists. split; [by rewrite run_pushNotice|].
    cbn. split_and!; try done; unfold bookingInv; cbn; lia.
  - intros Hle.
    destruct (Z.leb_spec (newEndAt - newStartAt) 0); [reflexivity|lia].
  - intros Hlong.
    destruct (Z.leb_spec (newEndAt - newStartAt) 0); [unfold DAY_MS in *; lia|].
    destruct (Z.ltb_spec DAY_MS (newEndAt - newStartAt)); [reflexivity|lia].
  - intros Hpos Hday Hc.
    destruct (Z.leb_spec (newEndAt - newStartAt) 0); [lia|].
    destruct (Z.ltb_spec DAY_MS (newEndAt - newStartAt)); [lia|].
    by rewrite Hc.
  - intros Hlo Hhi.
    destruct (Z.leb_spec (newEndAt - newStartAt) 0); [by eauto|].
    destruct (Z.ltb_spec DAY_MS (newEndAt - newStartAt)); [by eauto|].
    assert (checkConflict st (b_roomId b) newStartAt newEndAt = true) as ->; [|by eauto].
    apply checkConflict_true. exists b. split.
    + eapply list_elem_of_lookup_2. by eapply findBooking_Some.
    + apply conflictsWith_true.
      repeat split; try lia; destruct Hs as [Hs|Hs]; rewrite Hs; discriminate.
Qed.

Lemma modify_outcome_witness :
  (* moved to a free range: accepted *)
  (∃ b', bookings (final (modifyBooking 9 "b-1" (12 * hour) (13 * hour) None approvedOnly)) =
           [b'] ∧ b_startAt b' = 12 * hour) ∧
  (* shifted by half an hour: refused, the old range is in the way *)
  final (modifyBooking 9 "b-1" (10 * hour + hour / 2) (11 * hour + hour / 2) None
           approvedOnly) = approvedOnly.
Proof.
  split.
  - destruct (proj1 (modify_outcome 9 "b-1" (12 * hour) (13 * hour) None approvedOnly
                       0%nat _ eq_refl (or_intror eq_refl)))
      as (b' & Hbs & Hstart & _).
    + reflexivity.
    + vm_compute. discriminate.
    + reflexivity.
    + exists b'. split; [exact Hbs|exact Hstart].
  - apply (proj2 (proj2 (proj2 (proj2 (modify_outcome 9 "b-1" (10 * hour + hour / 2)
                           (11 * hour + hour / 2) None approvedOnly
                           0%nat _ eq_refl (or_intror eq_refl)))))); reflexivity.
Defined.

(** [extendBooking] tests the new end only against the 24-hour bound and the
    conflict scan, and the scan includes the booking itself.  For an
    APPROVED booking with a non-empty range this leaves no way forward: any
    new end after the start is refused, and a new end at or before the start
    is accepted when nothing else conflicts, which stores a range that ends
    before it begins. *)
Theorem extend_only_backwards now id newEndAt st idx b :
  findBooking id st = Some (idx, b) → b_status b = APPROVED →
  b_startAt b < b_endAt b →
  let r := extendBooking now id newEndAt st in
  (b_startAt b < newEndAt → final r = st ∧ ∃ msg, emitted r = [Alerted msg]) ∧
  (newEndAt ≤ b_startAt b →
   checkConflict st (b_roomId b) (b_startAt b) newEndAt = false →
   ∃ b', bookings (final r) = <[idx := b']> (bookings st) ∧
         b_endAt b' = newEndAt ∧ b_startAt b' = b_startAt b ∧
         b_status b' = PENDING ∧ ¬ bookingInv b') ∧
  (newEndAt ≤ b_startAt b →
   (∀ j b', bookings st !! j = Some b' → j ≠ idx → b_roomId b' ≠ b_roomId b) →
   checkConflict st (b_roomId b) (b_startAt b) newEndAt = false).
Proof.
  intros Hfind Hs Hlen. cbn zeta.
  destruct (findBooking_Some _ _ _ _ Hfind) as [Hidx _].
  rewrite (run_extendBooking _ _ _ _ idx b) by done. split_and!.
  - intros Hnew. destruct (DAY_MS <? _); [by eauto|].
    rewrite (self_conflict st idx b) by (done || congruence). by eauto.
  - intros Hback Hfree.
    destruct (Z.ltb_spec DAY_MS (newEndAt - b_startAt b)); [unfold DAY_MS in *; lia|].
    rewrite Hfree. eexists. split; [by rewrite run_pushNotice|].
    cbn. split_and!; try done. unfold bookingInv. cbn. lia.
  - intros Hback Halone. apply checkConflict_false. intros b' Hin.
    apply not_true_iff_false. rewrite conflictsWith_true.
    intros (Hroom & _ & _ & _ & Hov).
    apply list_elem_of_lookup in Hin as [j Hj].
    destruct (decide (j = idx)) as [->|Hne].
    + rewrite Hidx in Hj. injection Hj as <-. lia.
    + by apply (Halone j b' Hj Hne).
Qed.

Lemma extend_only_backwards_witness :
  ∃ b', bookings (final (extendBooking 9 "b-1" (9 * hour) approvedOnly)) = [b'] ∧
        b_endAt b' = 9 * hour ∧ b_startAt b' = 10 * hour.
Proof.
  destruct (proj1 (proj2 (extend_only_backwards 9 "b-1" (9 * hour) approvedOnly
                            0%nat _ eq_refl eq_refl eq_refl)))
    as (b' & Hbs & Hend & Hstart & _); [vm_compute; discriminate|reflexivity|].
  exists b'. split_and!; [exact Hbs|exact Hend|exact Hstart].
Defined.

(** ** Nothing is ever deleted *)

Section growth.
Implicit Types (b : Booking) (bs : list Booking).

Lemma sameBooking_refl b : sameBooking b b.
Proof. by repeat split. Qed.

Lemma grownFrom_refl bs : grownFrom bs bs.
Proof.
  exists [], bs. split; [done|].
  apply Forall_Forall2_diag, Forall_forall. intros. apply sameBooking_refl.
Qed.

Lemma grownFrom_cons bs0 bs b : grownFrom bs0 bs → grownFrom bs0 (b :: bs).
Proof. intros (added & kept & -> & H). by exists (b :: added), kept. Qed.

Lemma grownFrom_replace bs0 bs idx b b' :
  grownFrom bs0 bs → bs !! idx = Some b → ¬ terminal b →
  b_id b' = b_id b → b_roomId b' = b_roomId b → b_roomLabel b' = b_roomLabel b →
  b_hasAC b' = b_hasAC b → b_createdAt b' = b_createdAt b →
  grownFrom bs0 (<[idx := b']> bs).
Proof.
  intros (added & kept & -> & Hall) Hidx Hlive Hid Hroom Hlabel Hac Hcreated.
  destruct (decide (idx < length added)%nat) as [Hlt|Hge].
  - exists (<[idx := b']> added), kept. split; [|done]. by rewrite insert_app_l.
  - exists added, (<[(idx - length added)%nat := b']> kept). split.
    + rewrite insert_app_r_alt by lia. reflexivity.
    + rewrite lookup_app_r in Hidx by lia.
      apply Forall2_lookup. intros k.
      destruct (decide (k = idx - length added)%nat) as [->|Hne].
      * rewrite list_lookup_insert_eq by by eapply lookup_lt_Some.
        pose proof (Forall2_lookup_r _ _ _ _ _ Hall Hidx) as (b0 & Hb0 & Hsame).
        rewrite Hb0. constructor.
        destruct Hsame as (? & ? & ? & ? & ? & Hterm).
        repeat split; try congruence.
        intros Hb0term. exfalso. apply Hlive. by rewrite (Hterm Hb0term).
      * rewrite list_lookup_insert_ne by done.
        by apply Forall2_lookup.
Qed.

Lemma keeps_grownFrom_perform bs0 now a :
  keeps (λ s, grownFrom bs0 (bookings s)) (perform now a).
Proof.
  destruct a as [machine minutes|machine|machine|i|machine|i
                |machineId reason notes photo affectStatus| |hostel floor
                |title kind|u title kind|room startAt endAt reason|bookingId|id
                |id newEndAt|id newStartAt newEndAt newReason]; cbn [perform];
    try solve [unfold startWash, markCollected, onRegistered, nudgeMachine, flagMachine,
                 sendReminderEmail, submitReport, requestWatch; frame_auto].
  - (* tick *)
    intros st H. by rewrite (proj1 (tick_bookings_user now st)).
  - (* submitBooking *)
    intros st H. rewrite run_submitBooking, run_pushNotice. cbn. by apply grownFrom_cons.
  - (* approval timer *)
    intros st H. destruct (findBooking bookingId st) as [[idx b]|] eqn:Hfind.
    + destruct (decide (b_status b = PENDING)) as [Hs|Hs].
      * rewrite (run_approvalFires _ _ _ idx b), run_pushNotice by done. cbn.
        eapply (grownFrom_replace _ _ _ _ _ H (proj1 (findBooking_Some _ _ _ _ Hfind)));
          [|reflexivity..].
        intros [Ht|Ht]; congruence.
      * rewrite approvalFires_silent; [done|]. intros ?? ; rewrite Hfind. by intros [= <- <-].
    + rewrite approvalFires_silent; [done|]. intros ??; by rewrite Hfind.
  - (* cancelBooking *)
    intros st H. destruct (findBooking id st) as [[idx b]|] eqn:Hfind.
    + destruct (decide (b_status b = PENDING ∨ b_status b = APPROVED)) as [Hs|Hs].
      * rewrite (run_cancelBooking _ _ _ idx b), run_pushNotice by done. cbn.
        eapply (grownFrom_replace _ _ _ _ _ H (proj1 (findBooking_Some _ _ _ _ Hfind)));
          [|reflexivity..].
        intros [Ht|Ht]; destruct Hs; congruence.
      * rewrite cancelBooking_silent; [done|]. intros ??; rewrite Hfind.
        intros [= <- <-]. tauto.
    + rewrite cancelBooking_silent; [done|]. intros ??; by rewrite Hfind.
  - (* extendBooking *)
    intros st H. destruct (findBooking id st) as [[idx b]|] eqn:Hfind.
    + destruct (decide (b_status b = APPROVED)) as [Hs|Hs].
      * rewrite (run_extendBooking _ _ _ _ idx b) by done.
        destruct (DAY_MS <? _); [done|].
        destruct (checkConflict _ _ _ _); [done|].
        rewrite run_pushNotice. cbn.
        eapply (grownFrom_replace _ _ _ _ _ H (proj1 (findBooking_Some _ _ _ _ Hfind)));
          [|reflexivity..].
        intros [Ht|Ht]; congruence.
      * rewrite run_extendBooking_ineligible; [done|]. intros ??; rewrite Hfind.
        by intros [= <- <-].
    + rewrite run_extendBooking_ineligible; [done|]. intros ??; by rewrite Hfind.
  - (* modifyBooking *)
    intros st H. destruct (findBooking id st) as [[idx b]|] eqn:Hfind.
    + destruct (decide (b_status b = PENDING ∨ b_status b = APPROVED)) as [Hs|Hs].
      * rewrite (run_modifyBooking _ _ _ _ _ _ idx b) by done.
        destruct (_ <=? 0); [done|].
        destruct (DAY_MS <? _); [done|].
        destruct (checkConflict _ _ _ _); [done|].
        rewrite run_pushNotice. cbn.
        eapply (grownFrom_replace _ _ _ _ _ H (proj1 (findBooking_Some _ _ _ _ Hfind)));
          [|reflexivity..].
        intros [Ht|Ht]; destruct Hs; congruence.
      * rewrite modifyBooking_silent; [done|]. intros ??; rewrite Hfind.
        intros [= <- <-]. tauto.
    + rewrite modifyBooking_silent; [done|]. intros ??; by rewrite Hfind.
Qed.
End growth.

(** No history of operations deletes or reorders a booking.  The ledger
    after it holds every earlier entry, in order, below whatever was
    submitted since; each entry keeps its id, room and creation time; and an
    entry that was CANCELLED or REJECTED is exactly as it was. *)
Theorem bookings_only_grow history st :
  ∃ added kept,
    bookings (replay history st) = added ++ kept ∧
    Forall2 sameBooking (bookings st) kept.
Proof.
  apply (replay_keeps (λ s, grownFrom (bookings st) (bookings s))).
  - intros now a. apply keeps_grownFrom_perform.
  - apply grownFrom_refl.
Qed.

(** ** Explicit approval *)

Lemma run_approveBooking now id st idx b :
  findBooking id st = Some (idx, b) → b_status b = PENDING →
  approveBooking now id st =
  mkRun tt
    (final (pushNotice now ("Booking approved for " +:+ b_roomLabel b +:+ ".") success
              (replaceBooking idx (withBookingStatus APPROVED now b) st)))
    [Notified ("Booking approved for " +:+ b_roomLabel b +:+ ".") success].
Proof.
  intros Hfind Hs. unfold approveBooking. rewrite run_bind. cbn [get value final emitted].
  rewrite Hfind, (bool_decide_eq_true_2 _ Hs). reflexivity.
Qed.

Lemma run_rejectBooking now id st idx b :
  findBooking id st = Some (idx, b) → b_status b = PENDING →
  rejectBooking now id st =
  mkRun tt
    (final (pushNotice now ("Booking rejected for " +:+ b_roomLabel b +:+ ".") warning
              (replaceBooking idx (withBookingStatus REJECTED now b) st)))
    [Notified ("Booking rejected for " +:+ b_roomLabel b +:+ ".") warning].
Proof.
  intros Hfind Hs. unfold rejectBooking. rewrite run_bind. cbn [get value final emitted].
  rewrite Hfind, (bool_decide_eq_true_2 _ Hs). reflexivity.
Qed.

Lemma decision_silent now id st :
  (∀ idx b, findBooking id st = Some (idx, b) → b_status b ≠ PENDING) →
  approveBooking now id st = mkRun tt st [] ∧ rejectBooking now id st = mkRun tt st [].
Proof.
  intros Hno. unfold approveBooking, rejectBooking.
  rewrite !run_bind. cbn [get value final emitted].
  destruct (findBooking id st) as [[idx b]|]; [|done].
  by rewrite (bool_decide_eq_false_2 _ (Hno idx b eq_refl)).
Qed.

(** The admin's decision on a PENDING request is final.  Approving stores
    APPROVED, rejecting stores REJECTED, each with its notice; after either
    one, approving or rejecting the same request again is silent and changes
    nothing.  A rejected request no longer counts in the conflict scan; an
    approved one still does.  On a request that is missing or not PENDING
    both calls are silent. *)
Theorem decision_is_final now id st idx b :
  findBooking id st = Some (idx, b) → b_status b = PENDING →
  let approved := final (approveBooking now id st) in
  let rejected := final (rejectBooking now id st) in
  bookings approved = <[idx := withBookingStatus APPROVED now b]> (bookings st) ∧
  emitted (approveBooking now id st) =
    [Notified ("Booking approved for " +:+ b_roomLabel b +:+ ".") success] ∧
  bookings rejected = <[idx := withBookingStatus REJECTED now b]> (bookings st) ∧
  emitted (rejectBooking now id st) =
    [Notified ("Booking rejected for " +:+ b_roomLabel b +:+ ".") warning] ∧
  (∀ t, approveBooking t id approved = mkRun tt approved [] ∧
        rejectBooking t id approved = mkRun tt approved [] ∧
        approveBooking t id rejected = mkRun tt rejected [] ∧
        rejectBooking t id rejected = mkRun tt rejected []) ∧
  (∀ roomId s e,
     checkConflict rejected roomId s e = true ↔
     ∃ j b', j ≠ idx ∧ bookings st !! j = Some b' ∧ conflictsWith roomId s e b' = true) ∧
  (∀ roomId s e, checkConflict approved roomId s e = checkConflict st roomId s e).
Proof.
  intros Hfind Hs. cbn zeta.
  destruct (findBooking_Some _ _ _ _ Hfind) as [Hidx Hid].
  rewrite (run_approveBooking _ _ _ idx b), (run_rejectBooking _ _ _ idx b) by done.
  cbn [final emitted]. split_and!.
  - by rewrite run_pushNotice.
  - reflexivity.
  - by rewrite run_pushNotice.
  - reflexivity.
  - intros t. split_and!.
    1,2: apply decision_silent; intros idx' b'; rewrite findBooking_pushNotice,
         (findBooking_replace id st idx b) by done; by intros [= <- <-].
    1,2: apply decision_silent; intros idx' b'; rewrite findBooking_pushNotice,
         (findBooking_replace id st idx b) by done; by intros [= <- <-].
  - intros roomId s e. rewrite checkConflict_pushNotice, checkConflict_true.
    unfold replaceBooking. cbn [bookings setBookings]. split.
    + intros (b' & Hin & Hc). apply list_elem_of_lookup in Hin as [j Hj].
      destruct (decide (j = idx)) as [->|Hne].
      * rewrite list_lookup_insert_eq in Hj by by eapply lookup_lt_Some.
        injection Hj as <-. unfold conflictsWith in Hc. cbn in Hc.
        by destruct (bool_decide (b_roomId b = roomId)).
      * rewrite list_lookup_insert_ne in Hj by done. by exists j, b'.
    + intros (j & b' & Hne & Hj & Hc). exists b'. split; [|done].
      apply list_elem_of_lookup. exists j. by rewrite list_lookup_insert_ne.
  - intros roomId s e. rewrite checkConflict_pushNotice.
    unfold checkConflict, replaceBooking. cbn [bookings setBookings].
    rewrite <- (list_insert_id (bookings st) idx b) at 2 by done.
    rewrite <- (take_drop_middle (bookings st) idx b) by done.
    rewrite !insert_app_r_alt by (rewrite length_take; lia).
    replace (idx - length (take idx (bookings st)))%nat with 0%nat
      by (rewrite length_take; apply lookup_lt_Some in Hidx; lia).
    cbn. rewrite !existsb_app. cbn. f_equal. f_equal.
    unfold conflictsWith. cbn. by rewrite Hs.
Qed.

Lemma decision_is_final_witness :
  bookings (final (rejectBooking 9 "b-3" demoLedger)) !! 2%nat =
    Some (mkBooking "b-3" "CR-2" "Common Room 2" true (11 * hour) (12 * hour)
                    "club" REJECTED 0 9) ∧
  approveBooking 10 "b-3" (final (rejectBooking 9 "b-3" demoLedger)) =
    mkRun tt (final (rejectBooking 9 "b-3" demoLedger)) [].
Proof.
  destruct (decision_is_final 9 "b-3" demoLedger 2%nat _ eq_refl eq_refl)
    as (_ & _ & Hrej & _ & Hfinal & _).
  split.
  - rewrite Hrej. reflexivity.
  - apply (Hfinal 10).
Defined.

(** * Status summary, live log, watch requests *)

Section counts.
Implicit Types (c : Counts) (ms : list Machine).

Lemma foldl_bumpCount ms c :
  let c' := foldl bumpCount c ms in
  c_FREE c' = (c_FREE c + countStatus FREE ms)%nat ∧
  c_RUNNING c' = (c_RUNNING c + countStatus RUNNING ms)%nat ∧
  c_AWAITING c' = (c_AWAITING c + countStatus AWAITING ms)%nat ∧
  c_MAINT c' = (c_MAINT c + countStatus MAINT ms)%nat.
Proof.
  revert c. induction ms as [|m ms IH]; intros c; cbn zeta.
  - unfold countStatus. cbn. lia.
  - cbn [foldl]. destruct (IH (bumpCount c m)) as (H1 & H2 & H3 & H4).
    rewrite H1, H2, H3, H4. unfold countStatus. rewrite !filter_cons.
    unfold bumpCount. destruct (m_status m); cbn;
      repeat case_decide; try congruence; cbn [length]; lia.
Qed.

Lemma countStatus_total ms :
  (countStatus FREE ms + countStatus RUNNING ms +
   countStatus AWAITING ms + countStatus MAINT ms)%nat = length ms.
Proof.
  unfold countStatus. induction ms as [|m ms IH]; [reflexivity|].
  rewrite !filter_cons. destruct (m_status m);
    repeat case_decide; try congruence; cbn [length]; lia.
Qed.

Lemma countFree_le ms hostel floor : (countFree hostel floor ms ≤ countStatus FREE ms)%nat.
Proof.
  unfold countFree, countStatus. induction ms as [|m ms IH]; [reflexivity|].
  rewrite !filter_cons. repeat case_decide; cbn [length]; try lia. tauto.
Qed.
End counts.

(** [computeCounts] sorts the machines by status: each count is the number
    of machines in that status, the four counts add up to the number of
    machines, and no floor has more FREE machines than the FREE count. *)
Theorem computeCounts_partition ms :
  let c := computeCounts ms in
  c_FREE c = length (filter (λ m, m_status m = FREE) ms) ∧
  c_RUNNING c = length (filter (λ m, m_status m = RUNNING) ms) ∧
  c_AWAITING c = length (filter (λ m, m_status m = AWAITING) ms) ∧
  c_MAINT c = length (filter (λ m, m_status m = MAINT) ms) ∧
  (c_FREE c + c_RUNNING c + c_AWAITING c + c_MAINT c)%nat = length ms ∧
  (∀ hostel floor, countFree hostel floor ms ≤ c_FREE c)%nat.
Proof.
  cbn zeta. unfold computeCounts.
  destruct (foldl_bumpCount ms (mkCounts 0 0 0 0)) as (H1 & H2 & H3 & H4).
  cbn in H1, H2, H3, H4. rewrite H1, H2, H3, H4. split_and!; try reflexivity.
  - apply countStatus_total.
  - intros. apply countFree_le.
Qed.

(** ** The log snippet *)

(** [truncateLogSnippet] gives nothing for a missing or empty text, and
    otherwise a non-empty text of at most 140 code units: the text itself
    when it fits, else its first 139 units and an ellipsis.  Truncating
    twice is the same as truncating once. *)
Theorem truncateLogSnippet_bound text :
  (truncateLogSnippet text = None ↔ text = None ∨ text = Some []) ∧
  (∀ t', truncateLogSnippet text = Some t' →
     t' ≠ [] ∧ (length t' ≤ 140)%nat ∧
     ∃ t, text = Some t ∧
          ((length t ≤ 140)%nat → t' = t) ∧
          ((140 < length t)%nat →
             t' = take 139 t ++ [ELLIPSIS] ∧ length t' = 140%nat)) ∧
  truncateLogSnippet (truncateLogSnippet text) = truncateLogSnippet text.
Proof.
  destruct text as [[|c t]|].
  - split_and!; [split; auto|discriminate|reflexivity].
  - assert (∀ t', truncateLogSnippet (Some (c :: t)) = Some t' →
              t' ≠ [] ∧ (length t' ≤ 140)%nat ∧
              ((length (c :: t) ≤ 140)%nat → t' = c :: t) ∧
              ((140 < length (c :: t))%nat →
                 t' = take 139 (c :: t) ++ [ELLIPSIS] ∧ length t' = 140%nat)) as Hcut.
    { intros t' Ht'. cbn [truncateLogSnippet] in Ht'.
      destruct (140 <? length (c :: t))%nat eqn:Hcmp; injection Ht' as <-;
        [apply Nat.ltb_lt in Hcmp as Hlong|apply Nat.ltb_ge in Hcmp as Hfit].
      - split_and!; [done| |intros; cbn [length] in *; lia|split; [done|]];
          cbn [length] in *; rewrite ?length_app, ?length_take; cbn [length] in *; lia.
      - split_and!; [done|done|done|intros; cbn [length] in *; lia]. }
    split_and!.
    + split; [discriminate|]. intros [?|?]; discriminate.
    + intros t' Ht'. destruct (Hcut t' Ht') as (Hne & Hlen & Hfit & Hlong).
      split_and!; try done. by exists (c :: t).
    + destruct (truncateLogSnippet (Some (c :: t))) as [t'|] eqn:Ht'; [|reflexivity].
      destruct (Hcut t' eq_refl) as (Hne & Hlen & _).
      destruct t' as [|c' t']; [done|]. cbn [truncateLogSnippet].
      replace (140 <? length (c' :: t'))%nat with false; [done|].
      symmetry. apply Nat.ltb_ge. exact Hlen.
  - split_and!; [split; auto|discriminate|reflexivity].
Qed.

Lemma truncateLogSnippet_bound_witness :
  (length (default [] (truncateLogSnippet (Some (replicate 500 65%N)))) ≤ 140)%nat.
Proof.
  destruct (truncateLogSnippet (Some (replicate 500 65%N))) as [t'|] eqn:Ht'.
  - apply (proj1 (proj2 (truncateLogSnippet_bound (Some (replicate 500 65%N)))) t' Ht').
  - cbn. lia.
Defined.

(** ** Watch requests *)

Lemma flagOf_requestWatch hostel floor st h f :
  flagOf (final (requestWatch hostel floor st)) h f =
  if decide (h = hostel ∧ f = floor) then true else flagOf st h f.
Proof.
  unfold flagOf, requestWatch. cbn.
  destruct (decide (h = hostel)) as [->|Hh].
  - rewrite lookup_insert_eq. cbn.
    destruct (decide (f = floor)) as [->|Hf].
    + rewrite lookup_insert_eq, decide_True by done. reflexivity.
    + rewrite lookup_insert_ne by done. rewrite decide_False by tauto.
      destruct (watchFree st !! hostel); cbn; [done|]. by rewrite lookup_empty.
  - rewrite lookup_insert_ne by done. rewrite decide_False by tauto. reflexivity.
Qed.

Lemma keeps_flag_perform hostel floor now a :
  keeps (λ s, flagOf s hostel floor = true) (perform now a).
Proof.
  destruct a as [machine minutes|machine|machine|i|machine|i
                |machineId reason notes photo affectStatus| |h f
                |title kind|u title kind|room startAt endAt reason|bookingId|id
                |id newEndAt|id newStartAt newEndAt newReason]; cbn [perform];
    try solve [unfold startWash, markCollected, onRegistered, nudgeMachine, flagMachine,
                 sendReminderEmail, submitReport, submitBooking, approvalFires,
                 cancelBooking, extendBooking, modifyBooking; frame_auto].
  - (* tick *)
    intros st H. unfold flagOf in *. rewrite run_tick. cbn [final].
    by rewrite watchFree_countdown.
  - (* requestWatch *)
    intros st H. rewrite flagOf_requestWatch. by case_decide.
Qed.

(** A watch request sets the flag of its floor and no other.  Once set, a
    flag stays set through every history of operations: nothing in the
    script ever answers the request. *)
Theorem watch_request_never_answered hostel floor st :
  flagOf (final (requestWatch hostel floor st)) hostel floor = true ∧
  (∀ h f, (h, f) ≠ (hostel, floor) →
          flagOf (final (requestWatch hostel floor st)) h f = flagOf st h f) ∧
  (∀ history, flagOf st hostel floor = true →
              flagOf (replay history st) hostel floor = true).
Proof.
  split_and!.
  - rewrite flagOf_requestWatch. by rewrite decide_True.
  - intros h f Hne. rewrite flagOf_requestWatch. rewrite decide_False; [done|].
    intros [-> ->]. by apply Hne.
  - intros history. apply (replay_keeps (λ s, flagOf s hostel floor = true)).
    intros now a. apply keeps_flag_perform.
Qed.

Lemma watch_request_never_answered_witness :
  flagOf (replay [(1, AMarkCollected (washer AWAITING None)); (2, ATick); (3, ATick)]
                 (laundry (washer AWAITING None))) "LVH" 3 = true.
Proof.
  apply (proj2 (proj2 (watch_request_never_answered "LVH" 3
                         (laundry (washer AWAITING None))))).
  reflexivity.
Defined.

(** * The log and what was pushed *)

Section log.
Implicit Types (st : State).

Lemma take_app_take {A} (n : nat) (l k : list A) :
  take n (l ++ take n k) = take n (l ++ k).
Proof.
  rewrite !take_app. f_equal. rewrite take_take. f_equal. lia.
Qed.

Lemma logs_quiet {A} (c : Op A) :
  (∀ st, notices (final (c st)) = notices st ∧ pushed (emitted (c st)) = []) → logs c.
Proof.
  intros Hc st Hb. destruct (Hc st) as [Hn He]. unfold noticesBounded in *.
  rewrite Hn, He. split; [done|]. cbn.
  symmetry. apply take_ge. rewrite length_fmap. exact Hb.
Qed.

Lemma logs_ret {A} (x : A) : logs (mret x).
Proof. by apply logs_quiet. Qed.

Lemma logs_get : logs get.
Proof. by apply logs_quiet. Qed.

Lemma logs_emit e : pushed [e] = [] → logs (emit e).
Proof. intros He. by apply logs_quiet. Qed.

Lemma logs_modify (g : State → State) :
  (∀ st, notices (g st) = notices st) → logs (modify g).
Proof. intros Hg. apply logs_quiet. intros st. by rewrite <- (Hg st). Qed.

Lemma logs_bind {A B} (c : Op A) (f : A → Op B) :
  logs c → (∀ x, logs (f x)) → logs (c ≫= f).
Proof.
  intros Hc Hf st Hb. destruct (Hc st Hb) as [Hb1 H1].
  destruct (Hf (value (c st)) (final (c st)) Hb1) as [Hb2 H2].
  rewrite final_bind, emitted_bind. split; [done|].
  rewrite H2, H1. unfold pushed. rewrite omap_app, reverse_app, <- (assoc_L (++)).
  apply take_app_take.
Qed.

Lemma logs_pushNotice now title kind : logs (pushNotice now title kind).
Proof.
  intros st Hb. split; [by apply keeps_pushNotice_bound|].
  rewrite run_pushNotice. cbn [final emitted notices setNotices]. unfold noticesBounded in Hb.
  destruct (decide (length (notices st) < NOTICE_CAP)%nat) as [Hlt|Hge].
  - rewrite capNotices_below by done. cbn.
    symmetry. f_equal. apply take_ge. rewrite length_fmap. unfold NOTICE_CAP in *. lia.
  - destruct (exists_last (l := notices st)) as (kept & oldest & Hns).
    { intros Hnil. rewrite Hnil in Hge. cbn in Hge. unfold NOTICE_CAP in Hge. lia. }
    rewrite (capNotices_full _ _ kept oldest) by (done || lia).
    rewrite Hns in *. rewrite length_app in *. cbn [length] in *. unfold NOTICE_CAP in *.
    cbn. f_equal. rewrite fmap_app.
    rewrite take_app_length'; [done|]. rewrite length_fmap. lia.
Qed.

Lemma logs_forEach {A} (f : A → Op unit) xs : (∀ x, logs (f x)) → logs (forEach f xs).
Proof.
  intros Hf. induction xs as [|x xs IH]; cbn [forEach].
  - apply logs_ret.
  - apply logs_bind; auto.
Qed.

Lemma logs_mapM {A B} (f : A → Op B) xs : (∀ x, logs (f x)) → logs (mapM f xs).
Proof.
  intros Hf. induction xs as [|x xs IH]; cbn [mapM].
  - apply logs_ret.
  - apply logs_bind; [apply Hf|]. intros y.
    apply logs_bind; [apply IH|]. intros ys. apply logs_ret.
Qed.
End log.

Ltac logs_step :=
  lazymatch goal with
  | |- logs (pushNotice _ _ _) => apply logs_pushNotice
  | |- logs (_ ≫= _) => apply logs_bind; [|intros ?]
  | |- logs (forEach _ _) => apply logs_forEach; intros ?
  | |- logs (mapM _ _) => apply logs_mapM; intros ?
  | |- logs (modify _) => apply logs_modify; intros ?; reflexivity
  | |- logs (emit _) => apply logs_emit; reflexivity
  | |- logs get => apply logs_get
  | |- logs (mret _) => apply logs_ret
  | |- logs (if ?b then _ else _) => destruct b
  | |- logs (match ?x with _ => _ end) => destruct x
  end.

Lemma logs_perform now a : logs (perform now a).
Proof.
  destruct a; cbn [perform];
    unfold startWash, markCollected, onRegistered, nudgeMachine, flagMachine,
      sendReminderEmail, submitReport, tick, countdown, tickMachine, watchFreeCheck,
      watchHostel, watchFloor, requestWatch, submitBooking, approvalFires,
      cancelBooking, extendBooking, modifyBooking;
    repeat logs_step.
Qed.

(** The notice list is the record of what was pushed: after any history it
    shows, by title and kind, the notices pushed during the history, newest
    first, followed by the entries it held before, and nothing beyond the
    50th. *)
Theorem notices_are_latest history st :
  (length (notices st) ≤ 50)%nat →
  headline <$> notices (replay history st) =
  take 50 (reverse (pushed (replayEvents history st)) ++ (headline <$> notices st)).
Proof.
  revert st. induction history as [|[now a] rest IH]; intros st Hb.
  - cbn. symmetry. apply take_ge. by rewrite length_fmap.
  - cbn [replay replayEvents].
    destruct (logs_perform now a st Hb) as [Hb1 H1].
    rewrite (IH _ Hb1), H1.
    unfold pushed. rewrite omap_app, reverse_app, <- (assoc_L (++)).
    apply take_app_take.
Qed.

Lemma notices_are_latest_witness :
  headline <$> notices (replay [(1, AStartWash (washer FREE None) 1); (2, ATick)]
                               (laundry (washer FREE None))) =
  [("M-3A finished. Please collect clothes.", success);
   ("Started wash on M-3A.", info)].
Proof.
  rewrite notices_are_latest by (cbn; lia). reflexivity.
Defined.

(** * The seeded state *)

Lemma foldl_insert_lookup {K V} `{Countable K} (g : K → V) ks (m0 : gmap K V) k :
  foldl (λ m k', <[k' := g k']> m) m0 ks !! k =
  if decide (k ∈ ks) then Some (g k) else m0 !! k.
Proof.
  revert m0. induction ks as [|x ks IH]; intros m0; cbn [foldl].
  - rewrite decide_False; [done|]. apply not_elem_of_nil.
  - rewrite IH. destruct (decide (k ∈ ks)) as [Hin|Hnotin].
    + rewrite decide_True; [done|]. by apply list_elem_of_further.
    + destruct (decide (k = x)) as [->|Hne].
      * rewrite lookup_insert_eq, decide_True; [done|]. apply list_elem_of_here.
      * rewrite lookup_insert_ne by done. rewrite decide_False; [done|].
        intros [?|?]%elem_of_cons; done.
Qed.

Section seeding_facts.
Context {Draw : Type}.
Variables (random : nat → Draw) (below45 below25 : Draw → bool) (etaOf agoOf : Draw → Z).
Implicit Types (m : Machine) (ms : list Machine).

Local Abbreviation seedMachine' := (seedMachine random below45 below25 etaOf agoOf).
Local Abbreviation seedAll' := (seedAll random below45 below25 etaOf agoOf).

Lemma seedMachine_seededAs now hostel floor i k :
  seededAs (hostel, floor, i) (seedMachine' now hostel floor i k).1.
Proof.
  unfold seedMachine, seededAs, machineInv.
  destruct (below45 (random k)); cbn.
  - split_and!; try done; split; (done || by eauto || by intros [? [=]]).
  - destruct (below25 (random (S k))); cbn;
      split_and!; try done; split; (done || by eauto || by intros [? [=]]).
Qed.

Lemma seedAll_seededAs now slots k :
  Forall2 seededAs slots (seedAll' now slots k).
Proof.
  revert k. induction slots as [|[[hostel floor] i] slots IH]; intros k; cbn [seedAll].
  - constructor.
  - pose proof (seedMachine_seededAs now hostel floor i k) as Hm.
    destruct (seedMachine' now hostel floor i k) as [m k']. by constructor.
Qed.

Lemma initWatch_lookup ms hostel floor :
  initWatch ms !! hostel ≫= (.!! floor) =
  if decide (Exists (λ m, m_hostel m = hostel ∧ m_floor m = floor) ms)
  then Some false else None.
Proof.
  unfold initWatch.
  rewrite (foldl_insert_lookup
             (λ h, foldl (λ byFloor f, <[f := false]> byFloor) ∅
                         (remove_dups (m_floor <$> filter (λ m, m_hostel m = h) ms)))).
  destruct (decide (hostel ∈ remove_dups (m_hostel <$> ms))) as [Hh|Hh]; cbn.
  - rewrite (foldl_insert_lookup (λ _, false)).
    destruct (decide (floor ∈ remove_dups
                        (m_floor <$> filter (λ m, m_hostel m = hostel) ms))) as [Hf|Hf].
    + rewrite decide_True; [done|].
      apply elem_of_remove_dups, list_elem_of_fmap in Hf as (m & -> & Hm).
      apply list_elem_of_filter in Hm as [Hmh Hm]. apply Exists_exists. by exists m.
    + rewrite lookup_empty. rewrite decide_False; [done|].
      intros (m & Hm & Hmh & Hmf)%Exists_exists.
      apply Hf, elem_of_remove_dups, list_elem_of_fmap.
      exists m. split; [done|]. by apply list_elem_of_filter.
  - rewrite decide_False; [done|].
    intros (m & Hm & Hmh & Hmf)%Exists_exists.
    apply Hh, elem_of_remove_dups, list_elem_of_fmap. by exists m.
Qed.

(** The state built on a reset is well-formed whatever the random draws:
    eighty machines with distinct ids, each FREE, RUNNING with an eta, or
    AWAITING with a completion time, none with counters or an owner; a
    watch flag, not set, for exactly the floors that have a machine; eight
    rooms with distinct ids; no wash records, notices, reports, bookings or
    user. *)
Theorem fresh_state_well_formed now :
  let st := freshState random below45 below25 etaOf agoOf now in
  length (machines st) = 80%nat ∧
  NoDup (m_id <$> machines st) ∧
  registryInv st ∧
  Forall (λ m, m_status m ≠ MAINT ∧ m_nudgeCount m = None ∧
               m_flagCount m = None ∧ m_ownerId m = None ∧ 1 ≤ m_floor m ≤ 4)
         (machines st) ∧
  (∀ m, m ∈ machines st →
        watchFree st !! m_hostel m ≫= (.!! m_floor m) = Some false) ∧
  (∀ hostel floor,
     (∀ m, m ∈ machines st → ¬ (m_hostel m = hostel ∧ m_floor m = floor)) →
     watchFree st !! hostel ≫= (.!! floor) = None) ∧
  length (rooms st) = 8%nat ∧ NoDup (room_id <$> rooms st) ∧
  washes st = [] ∧ notices st = [] ∧ reports st = [] ∧ bookings st = [] ∧
  user st = None.
Proof.
  cbn zeta. unfold freshState. cbn [machines washes notices reports watchFree user
                                     rooms bookings].
  pose proof (seedAll_seededAs now seedSlots 0) as Hall.
  fold (makeMachines random below45 below25 etaOf agoOf now) in Hall.
  set (ms := makeMachines random below45 below25 etaOf agoOf now) in *.
  assert (m_id <$> ms =
          (λ slot : string * Z * Z,
             slot.1.1 +:+ "-" +:+ pretty slot.1.2 +:+ "-" +:+ pretty slot.2) <$> seedSlots)
    as Hids.
  { clearbody ms. induction Hall as [|slot m slots ms' Hm _ IH]; [done|].
    rewrite !fmap_cons, IH. f_equal. apply Hm. }
  split_and!; try reflexivity.
  - rewrite <- (Forall2_length _ _ _ Hall). reflexivity.
  - rewrite Hids. apply (bool_decide_unpack _). vm_compute. exact I.
  - unfold registryInv. cbn [machines].
    eapply Forall2_Forall_r; [exact Hall|]. apply Forall_forall.
    intros slot _ m Hm. apply Hm.
  - eapply Forall2_Forall_r; [exact Hall|].
    assert (Forall (λ slot : string * Z * Z, 1 ≤ slot.1.2 ≤ 4) seedSlots) as Hfloors
      by (apply (bool_decide_unpack _); vm_compute; exact I).
    eapply Forall_impl; [exact Hfloors|].
    intros slot Hslot m (_ & _ & Hf & _ & ? & ? & ? & ?). rewrite Hf. done.
  - intros m Hm. rewrite initWatch_lookup. rewrite decide_True; [done|].
    apply Exists_exists. by exists m.
  - intros hostel floor Hnone. rewrite initWatch_lookup. rewrite decide_False; [done|].
    intros (m & Hm & Hh & Hf)%Exists_exists. by apply (Hnone m Hm).
  - apply (bool_decide_unpack _). vm_compute. exact I.
Qed.
End seeding_facts.

Lemma fresh_state_well_formed_witness :
  let st := freshState (λ k : nat, k) Nat.even (λ _, true)
                       (λ d, 8 + Z.of_nat d) (λ d, Z.of_nat d) 1000 in
  registryInv st ∧
  (∀ hostel floor,
     (∀ m, m ∈ machines st → ¬ (m_hostel m = hostel ∧ m_floor m = floor)) →
     watchFree st !! hostel ≫= (.!! floor) = None).
Proof.
  intros st.
  destruct (fresh_state_well_formed (λ k : nat, k) Nat.even (λ _, true)
              (λ d, 8 + Z.of_nat d) (λ d, Z.of_nat d) 1000)
    as (_ & _ & Hinv & _ & _ & Hnone & _).
  split; [exact Hinv|exact Hnone].
Defined.
(** ** One whole tick: wash records and notices *)

Lemma washes_tickMachine now m st :
  washes (final (tickMachine now m st)) =
  if endsCycle m then map (finishWash now (m_id m)) (washes st) else washes st.
Proof.
  rewrite run_tickMachine. unfold endsCycle.
  destruct (m_status m), (m_eta m) as [e|]; try reflexivity.
  destruct (Z.eqb_spec (e - 1) 3) as [Heq|Hne].
  - destruct (Z.leb_spec (e - 1) 0); [lia|]. cbn. by rewrite run_pushNotice.
  - destruct (Z.leb_spec (e - 1) 0); [|reflexivity].
    cbn. by rewrite run_pushNotice.
Qed.

Lemma washes_mapM_tickMachine now ms st :
  washes (final (mapM (tickMachine now) ms st)) = map (closeBy now ms) (washes st).
Proof.
  revert st. induction ms as [|m ms IH]; intros st.
  - cbn. by rewrite map_id.
  - cbn [mapM]. rewrite !final_bind. cbn [mret Op_ret final].
    rewrite IH, washes_tickMachine. unfold closeBy. cbn [foldl].
    destruct (endsCycle m); [|reflexivity].
    rewrite map_map. reflexivity.
Qed.

Lemma tick_washes_exact now st :
  washes (final (tick now st)) = map (closeBy now (machines st)) (washes st).
Proof.
  rewrite run_tick. cbn [final]. unfold countdown. rewrite !final_bind.
  cbn [get value final modify setMachines washes].
  apply washes_mapM_tickMachine.
Qed.

Lemma finishWash_other now id w :
  w_status w ≠ W_RUNNING ∨ w_machineId w ≠ id → finishWash now id w = w.
Proof.
  intros H. unfold finishWash.
  destruct (decide (w_machineId w = id)), (decide (w_status w = W_RUNNING)).
  - tauto.
  - by rewrite (bool_decide_eq_false_2 (w_status w = _)), andb_false_r.
  - by rewrite (bool_decide_eq_false_2 (w_machineId w = _)).
  - by rewrite (bool_decide_eq_false_2 (w_machineId w = _)).
Qed.

Lemma closeBy_miss now ms w :
  Forall (λ m, endsCycle m = true → m_id m ≠ w_machineId w) ms →
  closeBy now ms w = w.
Proof.
  induction 1 as [|m ms Hm _ IH]; [reflexivity|].
  unfold closeBy in *. cbn [foldl].
  destruct (endsCycle m) eqn:He; [|exact IH].
  rewrite finishWash_other; [exact IH|].
  right. intros Heq. by apply Hm.
Qed.

Lemma closeBy_settled now ms w :
  w_status w ≠ W_RUNNING → closeBy now ms w = w.
Proof.
  intros Hs. induction ms as [|m ms IH]; [reflexivity|].
  unfold closeBy in *. cbn [foldl].
  destruct (endsCycle m); [|exact IH].
  rewrite finishWash_other by (by left). exact IH.
Qed.

Lemma closeBy_hit now ms w :
  w_status w = W_RUNNING →
  Exists (λ m, endsCycle m = true ∧ m_id m = w_machineId w) ms →
  closeBy now ms w = withWashStatus W_AWAITING now w.
Proof.
  intros Hs. induction ms as [|m ms IH]; intros Hex.
  - by apply Exists_nil in Hex.
  - unfold closeBy in *. cbn [foldl].
    destruct (decide (endsCycle m = true ∧ m_id m = w_machineId w)) as [[He Hid]|Hno].
    + rewrite He, finishWash_running by done.
      by apply (closeBy_settled now ms (withWashStatus W_AWAITING now w)).
    + apply Exists_cons in Hex as [Hex|Hex]; [tauto|].
      destruct (endsCycle m) eqn:He; [|by apply IH].
      rewrite finishWash_other; [by apply IH|].
      right. intros Heq. apply Hno. by split.
Qed.

Lemma endsCycle_true m :
  endsCycle m = true ↔ m_status m = RUNNING ∧ ∃ e, m_eta m = Some e ∧ e - 1 ≤ 0.
Proof.
  unfold endsCycle. split.
  - destruct (m_status m), (m_eta m) as [e|]; try done.
    intros He%Z.leb_le. split; [done|]. by exists e.
  - intros (-> & e & -> & He). by apply Z.leb_le.
Qed.

(** C5. The countdown of a tick.  In the callback a RUNNING machine with an
    eta has it decremented; the info notice appears exactly when the new eta
    is 3; when the new eta is 0 or less the machine becomes AWAITING, its
    eta is cleared, [lastCompletedAt] is the tick time, each RUNNING wash
    record of the machine becomes AWAITING with [endAt] set, and the success
    notice appears.  A machine that is not RUNNING comes back as it was,
    with no effect.  For one whole tick: the registry holds the per-machine
    results; what the tick emits is what the callback emits for each
    machine, in registry order; a RUNNING wash record of a machine of the
    registry whose new eta is 0 or less is AWAITING in [state.washes] after
    the tick, with [endAt] the tick time and the rest as before; every other
    wash record is untouched. *)
Theorem C5_tick_countdown now m st :
  let r := tickMachine now m st in
  (∀ e, m_status m = RUNNING → m_eta m = Some e →
     (0 < e - 1 →
        value r = withEta (e - 1) m ∧ m_eta (value r) = Some (e - 1) ∧
        m_status (value r) = RUNNING ∧ washes (final r) = washes st) ∧
     (e - 1 = 3 →
        emitted r = [Notified (m_label m +:+ " finishing in ~3 minutes.") info]) ∧
     (e - 1 ≠ 3 → 0 < e - 1 → emitted r = []) ∧
     (e - 1 ≤ 0 →
        m_status (value r) = AWAITING ∧ m_eta (value r) = None ∧
        m_lastCompletedAt (value r) = Some now ∧
        (∀ i w, washes st !! i = Some w →
                w_machineId w = m_id m → w_status w = W_RUNNING →
                ∃ w', washes (final r) !! i = Some w' ∧
                      w_status w' = W_AWAITING ∧ w_endAt w' = Some now) ∧
        emitted r =
          [Notified (m_label m +:+ " finished. Please collect clothes.") success])) ∧
  (m_status m ≠ RUNNING → r = mkRun m st []) ∧
  machines (final (tick now st)) =
    map (λ m', value (tickMachine now m' st)) (machines st) ∧
  emitted (tick now st) = machines st ≫= (λ m', emitted (tickMachine now m' st)) ∧
  (∀ i w m' e, washes st !! i = Some w → w_status w = W_RUNNING →
     m' ∈ machines st → m_id m' = w_machineId w →
     m_status m' = RUNNING → m_eta m' = Some e → e - 1 ≤ 0 →
     washes (final (tick now st)) !! i = Some (withWashStatus W_AWAITING now w) ∧
     w_status (withWashStatus W_AWAITING now w) = W_AWAITING ∧
     w_endAt (withWashStatus W_AWAITING now w) = Some now ∧
     w_id (withWashStatus W_AWAITING now w) = w_id w ∧
     w_machineId (withWashStatus W_AWAITING now w) = w_machineId w ∧
     w_startAt (withWashStatus W_AWAITING now w) = w_startAt w) ∧
  (∀ i w, washes st !! i = Some w →
     (w_status w ≠ W_RUNNING ∨
      ∀ m' e, m' ∈ machines st → m_id m' = w_machineId w →
              m_status m' = RUNNING → m_eta m' = Some e → 0 < e - 1) →
     washes (final (tick now st)) !! i = Some w) ∧
  length (washes (final (tick now st))) = length (washes st).
Proof.
  intros r. subst r. split_and!.
  - intros e Hs He. rewrite run_tickMachine, Hs, He. split_and!.
    + intros Hpos. destruct (Z.eqb_spec (e - 1) 3) as [Heq|Hne].
      * rewrite Heq. cbn. done.
      * destruct (Z.leb_spec (e - 1) 0); [lia|]. cbn. done.
    + intros ->. reflexivity.
    + intros Hne Hpos. destruct (Z.eqb_spec (e - 1) 3); [done|].
      destruct (Z.leb_spec (e - 1) 0); [lia|done].
    + intros Hle. destruct (Z.eqb_spec (e - 1) 3); [lia|].
      destruct (Z.leb_spec (e - 1) 0); [|lia]. cbn. split_and!; try done.
      intros i w Hi Hid Hrun. eexists. split.
      * rewrite list_lookup_fmap. rewrite run_pushNotice. cbn. rewrite Hi. reflexivity.
      * by rewrite finishWash_running.
  - intros Hs. rewrite run_tickMachine. by destruct (m_status m).
  - rewrite tick_machines. apply map_ext. intros. by rewrite value_tickMachine.
  - rewrite emitted_tick. apply list_bind_ext; [|reflexivity].
    intros m'. by rewrite emitted_tickMachine.
  - intros i w m' e Hi Hrun Hin Hid Hs He Hle. split; [|done].
    rewrite tick_washes_exact, list_lookup_fmap, Hi. cbn. f_equal.
    apply closeBy_hit; [exact Hrun|].
    apply Exists_exists. exists m'. split_and!; [exact Hin| |exact Hid].
    apply endsCycle_true. split; [exact Hs|]. by exists e.
  - intros i w Hi Hw.
    rewrite tick_washes_exact, list_lookup_fmap, Hi. cbn. f_equal.
    destruct Hw as [Hw|Hw]; [by apply closeBy_settled|].
    apply closeBy_miss, Forall_forall. intros m' Hin (Hs & e & He & Hle)%endsCycle_true Hid.
    specialize (Hw m' e Hin Hid Hs He). lia.
  - by rewrite tick_washes_exact, length_map.
Qed.

Lemma C5_tick_countdown_witness :
  m_status (value (tickMachine 60000 (washer RUNNING (Some 1))
                               (laundry (washer RUNNING (Some 1))))) = AWAITING ∧
  emitted (tickMachine 60000 (washer RUNNING (Some 4))
                       (laundry (washer RUNNING (Some 4)))) =
    [Notified "M-3A finishing in ~3 minutes." info] ∧
  washes (final (tick 60000 (laundry (washer RUNNING (Some 1))))) !! 0%nat =
    Some (mkWash "w-1" "LVH-3-1" "M-3A" "LVH" 3 0 (Some 60000) W_AWAITING).
Proof.
  split_and!.
  - destruct (proj1 (C5_tick_countdown 60000 (washer RUNNING (Some 1))
                       (laundry (washer RUNNING (Some 1)))) 1 eq_refl eq_refl)
      as (_ & _ & _ & Hdone).
    apply Hdone. lia.
  - destruct (proj1 (C5_tick_countdown 60000 (washer RUNNING (Some 4))
                       (laundry (washer RUNNING (Some 4)))) 4 eq_refl eq_refl)
      as (_ & Hthree & _).
    apply Hthree. lia.
  - destruct (C5_tick_countdown 60000 (washer RUNNING (Some 1))
                (laundry (washer RUNNING (Some 1))))
      as (_ & _ & _ & _ & Hclose & _).
    refine (proj1 (Hclose 0%nat (mkWash "w-1" "LVH-3-1" "M-3A" "LVH" 3 0 None W_RUNNING)
              (washer RUNNING (Some 1)) 1 eq_refl eq_refl _ eq_refl eq_refl eq_refl _)).
    + apply list_elem_of_here.
    + lia.
Defined.

